(** * Compute: attribute references and the untyped hash table

    A shallow embedding of [Sources/ComputeCxx/Attribute/AttributeID.h] and
    [Sources/ComputeCxx/Util/HashTable.cpp], with the properties the
    specification states about them.

    Fixed-width integers are values of [Z] kept in range by the wrap-around
    functions below; node pointers are indices into the arena memory that
    holds the table's [HashNode]s, and the null pointer is [None]. *)

From Stdlib Require Import ZArith Lia List Bool.
From stdpp Require Import base numbers option list gmap.

Local Open Scope Z_scope.

(** ** Machine integers *)

Definition uint32 (z : Z) : Z := z mod 2 ^ 32.
Definition uint64 (z : Z) : Z := z mod 2 ^ 64.
Definition int32 (z : Z) : Z := (z + 2 ^ 31) mod 2 ^ 32 - 2 ^ 31.
Definition int64 (z : Z) : Z := (z + 2 ^ 63) mod 2 ^ 64 - 2 ^ 63.

(** ** Attribute references (AttributeID.h) *)

Module AttributeID.

(** [static constexpr uint32_t KindMask = 0x3] *)
Definition KindMask : Z := 3.

(** [enum Kind : uint32_t].  The enumerators are the three named values;
    a value of the enumeration type is any [uint32_t], which is what
    [kind()] returns. *)
Inductive Kind : Type := Direct | Indirect | NilAttribute.

Definition Kind_value (k : Kind) : Z :=
  match k with
  | Direct => 0
  | Indirect => Z.shiftl 1 0
  | NilAttribute => Z.shiftl 1 1
  end.

(** The class holds one [uint32_t _value]. *)
Record t : Type := AttributeID { _value : Z }.

(** [~KindMask] at type [uint32_t]. *)
Definition not_KindMask : Z := uint32 (Z.lnot KindMask).

(** [AttributeID(data::ptr<Node> node) : _value(node | Kind::Direct)].
    Modelled from the spec: [data::ptr] (Data/Pointer.h) is not among the
    sources; it is the arena offset the tag is packed into, a [uint32_t]
    here. *)
Definition of_node (node : Z) : t :=
  AttributeID (Z.lor node (Kind_value Direct)).

(** [AttributeID(data::ptr<IndirectNode> indirect_node)] *)
Definition of_indirect_node (indirect_node : Z) : t :=
  AttributeID (Z.lor indirect_node (Kind_value Indirect)).

Definition make_nil : t := AttributeID (Kind_value NilAttribute).

(** [operator bool() const { return _value == 0; }] *)
Definition operator_bool (a : t) : bool := _value a =? 0.

(** [Kind kind() const { return Kind(_value & KindMask); }] *)
Definition kind (a : t) : Z := Z.land (_value a) KindMask.

(** [with_kind(Kind kind)]: [(_value & ~KindMask) | kind] *)
Definition with_kind (a : t) (k : Kind) : t :=
  AttributeID (Z.lor (Z.land (_value a) not_KindMask) (Kind_value k)).

Definition is_direct (a : t) : bool := kind a =? Kind_value Direct.
Definition is_indirect (a : t) : bool := kind a =? Kind_value Indirect.
Definition is_nil (a : t) : bool := kind a =? Kind_value NilAttribute.

(** [to_node()] asserts [is_direct()] and dereferences the pointer
    [_value & ~KindMask]; the result here is the address dereferenced,
    [None] when the assertion fails. *)
Definition to_node (a : t) : option Z :=
  if is_direct a then Some (Z.land (_value a) not_KindMask) else None.

Definition to_indirect_node (a : t) : option Z :=
  if is_indirect a then Some (Z.land (_value a) not_KindMask) else None.

(** The pointer bits of a reference: everything but the tag. *)
Definition pointer_bits (a : t) : Z := Z.land (_value a) not_KindMask.

End AttributeID.

(** ** The untyped hash table (HashTable.cpp) *)

Module util.

(** [pointer_hash]: the arithmetic is on [int64_t], the shifts to the
    right are arithmetic, and the result is returned as [uint64_t]. *)
Definition pointer_hash (pointer : Z) : Z :=
  let p := int64 pointer in
  let result := int64 (Z.lxor (-1) (int64 (Z.shiftl p 32)) + p) in
  let result := Z.lxor result (Z.shiftr result 22) in
  let result := int64 (result + Z.lxor (-1) (int64 (Z.shiftl result 13))) in
  let result := int64 (Z.lxor result (Z.shiftr result 8) * 9) in
  let result := Z.lxor result (Z.shiftr result 15) in
  let result := int64 (result + Z.lxor (-1) (int64 (Z.shiftl result 27))) in
  uint64 (Z.lxor result (Z.shiftr result 31)).

Definition pointer_compare (a b : Z) : bool := a =? b.

(** Function pointers.  The constructor compares the equality function it
    is given with the address of [pointer_compare], so the built-in
    functions are told apart from the caller's. *)
Inductive hasher : Type :=
| pointer_hash_fn
| custom_hash_fn (f : Z -> Z).

Inductive key_equal : Type :=
| pointer_compare_fn
| custom_compare_fn (f : Z -> Z -> bool).

Definition call_hash (h : hasher) (key : Z) : Z :=
  match h with
  | pointer_hash_fn => pointer_hash key
  | custom_hash_fn f => uint64 (f key)
  end.

Definition call_compare (c : key_equal) (a b : Z) : bool :=
  match c with
  | pointer_compare_fn => pointer_compare a b
  | custom_compare_fn f => f a b
  end.

Definition is_pointer_compare (c : key_equal) : bool :=
  match c with
  | pointer_compare_fn => true
  | custom_compare_fn _ => false
  end.

(** The removal callbacks and the body of [for_each] are the caller's
    code; a call to one of them is recorded, with the function called and
    its arguments, in the order the calls are made. *)
Inductive call : Type :=
| did_remove_key_call (f : nat) (key : Z)
| did_remove_value_call (f : nat) (value : Z)
| body_call (body : nat) (key value context : Z).

(** The arena a table allocates from: its own, made on demand by
    [new Heap(nullptr, 0, Heap::minimum_increment)], or the caller's. *)
Inductive Heap : Type :=
| new_Heap
| caller_Heap (id : nat).

(** [struct HashNode]; [next] is a node pointer. *)
Record HashNode : Type := mkHashNode {
  next : option nat;
  key : Z;
  value : Z;
  hash_value : Z
}.

Definition set_next (n : HashNode) (p : option nat) : HashNode :=
  mkHashNode p (key n) (value n) (hash_value n).

(** Modelled from the spec: the class declaration (HashTable.h) is not
    among the sources.  The fields are those the member functions use;
    keys, values and hashes are 64 bits wide, [_count] and [_bucket_mask]
    are taken as [uint64_t] and [_bucket_mask_width] as [uint32_t].
    [_buckets] is the bucket array, [None] for [nullptr]; a slot that
    holds no entry of the map is a null chain head.  [nodes] is the arena
    memory the nodes live in, a node pointer being an index into it, and
    [calls] the calls made so far to the caller's functions. *)
Record UntypedTable : Type := mkUntypedTable {
  _hash : hasher;
  _compare : key_equal;
  _did_remove_key : option nat;
  _did_remove_value : option nat;
  _heap : option Heap;
  _spare_node : option nat;
  _buckets : option (gmap Z nat);
  _count : Z;
  _bucket_mask : Z;
  _bucket_mask_width : Z;
  _is_heap_owner : bool;
  _compare_by_pointer : bool;
  nodes : list HashNode;
  calls : list call
}.

Definition set_heap (h : option Heap) (t : UntypedTable) : UntypedTable :=
  mkUntypedTable (_hash t) (_compare t) (_did_remove_key t)
    (_did_remove_value t) h (_spare_node t) (_buckets t) (_count t)
    (_bucket_mask t) (_bucket_mask_width t) (_is_heap_owner t)
    (_compare_by_pointer t) (nodes t) (calls t).

Definition set_spare_node (s : option nat) (t : UntypedTable) : UntypedTable :=
  mkUntypedTable (_hash t) (_compare t) (_did_remove_key t)
    (_did_remove_value t) (_heap t) s (_buckets t) (_count t)
    (_bucket_mask t) (_bucket_mask_width t) (_is_heap_owner t)
    (_compare_by_pointer t) (nodes t) (calls t).

Definition set_buckets (b : option (gmap Z nat)) (t : UntypedTable) : UntypedTable :=
  mkUntypedTable (_hash t) (_compare t) (_did_remove_key t)
    (_did_remove_value t) (_heap t) (_spare_node t) b (_count t)
    (_bucket_mask t) (_bucket_mask_width t) (_is_heap_owner t)
    (_compare_by_pointer t) (nodes t) (calls t).

Definition set_count (c : Z) (t : UntypedTable) : UntypedTable :=
  mkUntypedTable (_hash t) (_compare t) (_did_remove_key t)
    (_did_remove_value t) (_heap t) (_spare_node t) (_buckets t) c
    (_bucket_mask t) (_bucket_mask_width t) (_is_heap_owner t)
    (_compare_by_pointer t) (nodes t) (calls t).

Definition set_bucket_mask (m : Z) (t : UntypedTable) : UntypedTable :=
  mkUntypedTable (_hash t) (_compare t) (_did_remove_key t)
    (_did_remove_value t) (_heap t) (_spare_node t) (_buckets t) (_count t)
    m (_bucket_mask_width t) (_is_heap_owner t)
    (_compare_by_pointer t) (nodes t) (calls t).

Definition set_bucket_mask_width (w : Z) (t : UntypedTable) : UntypedTable :=
  mkUntypedTable (_hash t) (_compare t) (_did_remove_key t)
    (_did_remove_value t) (_heap t) (_spare_node t) (_buckets t) (_count t)
    (_bucket_mask t) w (_is_heap_owner t)
    (_compare_by_pointer t) (nodes t) (calls t).

Definition set_nodes (ns : list HashNode) (t : UntypedTable) : UntypedTable :=
  mkUntypedTable (_hash t) (_compare t) (_did_remove_key t)
    (_did_remove_value t) (_heap t) (_spare_node t) (_buckets t) (_count t)
    (_bucket_mask t) (_bucket_mask_width t) (_is_heap_owner t)
    (_compare_by_pointer t) ns (calls t).

Definition set_calls (cs : list call) (t : UntypedTable) : UntypedTable :=
  mkUntypedTable (_hash t) (_compare t) (_did_remove_key t)
    (_did_remove_value t) (_heap t) (_spare_node t) (_buckets t) (_count t)
    (_bucket_mask t) (_bucket_mask_width t) (_is_heap_owner t)
    (_compare_by_pointer t) (nodes t) cs.

(** [UntypedTable::UntypedTable()] *)
Definition UntypedTable_default : UntypedTable :=
  {| _hash := pointer_hash_fn;
     _compare := pointer_compare_fn;
     _did_remove_key := None;
     _did_remove_value := None;
     _heap := None;
     _spare_node := None;
     _buckets := None;
     _count := 0;
     _bucket_mask := 0;
     _bucket_mask_width := 0;
     _is_heap_owner := true;
     _compare_by_pointer := true;
     nodes := [];
     calls := [] |}.

(** [UntypedTable::UntypedTable(custom_hash, custom_compare,
    did_remove_key, did_remove_value, heap)]; a null function pointer or
    arena is [None]. *)
Definition UntypedTable_with (custom_hash : option hasher)
    (custom_compare : option key_equal)
    (did_remove_key did_remove_value : option nat)
    (heap : option Heap) : UntypedTable :=
  {| _hash := match custom_hash with Some h => h | None => pointer_hash_fn end;
     _compare :=
       match custom_compare with Some c => c | None => pointer_compare_fn end;
     _did_remove_key := did_remove_key;
     _did_remove_value := did_remove_value;
     _heap := heap;
     _spare_node := None;
     _buckets := None;
     _count := 0;
     _bucket_mask := 0;
     _bucket_mask_width := 0;
     _is_heap_owner := match heap with None => true | Some _ => false end;
     _compare_by_pointer :=
       match custom_compare with
       | None => true
       | Some c => is_pointer_compare c
       end;
     nodes := [];
     calls := [] |}.

(** *** Outcomes of a table operation

    The operations dereference raw pointers, walk linked chains and
    allocate arrays, so an execution either returns, dereferences a null
    or dangling pointer, never leaves a loop, or is left by an exception:
    [new Bucket[n]] with a negative [n] throws
    [std::bad_array_new_length].  [Throw t] carries the table as the
    exception leaves it.  Memory is not bounded: an allocation of a valid
    size succeeds. *)

Inductive result (A : Type) : Type :=
| Ok (a : A)
| Fault
| Diverge
| Throw (t : UntypedTable).

Arguments Ok {A} a.
Arguments Fault {A}.
Arguments Diverge {A}.
Arguments Throw {A} t.

Definition bind {A B : Type} (m : result A) (f : A -> result B) : result B :=
  match m with
  | Ok a => f a
  | Fault => Fault
  | Diverge => Diverge
  | Throw t => Throw t
  end.

Notation "x <- m ;; k" := (bind m (fun x => k))
  (at level 100, m at next level, right associativity).

(** *** Chains

    A chain walk that has taken more steps than the arena holds nodes has
    visited some node twice, and from there on repeats itself: the loop in
    the source never ends.  The walks below stop with [Diverge] at that
    point, and with [Fault] on a node pointer outside the arena. *)

Definition walk_limit (ns : list HashNode) : nat := S (length ns).

(** [for (; node != nullptr; node = node->next) if (p(node)) return node;] *)
Fixpoint find_node (fuel : nat) (ns : list HashNode) (p : HashNode -> bool)
    (node : option nat) : result (option (nat * HashNode)) :=
  match node with
  | None => Ok None
  | Some a =>
      match fuel with
      | O => Diverge
      | S fuel' =>
          match ns !! a with
          | None => Fault
          | Some n =>
              if p n then Ok (Some (a, n))
              else find_node fuel' ns p (next n)
          end
      end
  end.

(** The loop of [remove] and [remove_ptr]: [candidate] runs along the chain
    and [node] trails it, both starting at the chain head; the result is the
    pair [(node, candidate)] at the first match. *)
Fixpoint find_candidate (fuel : nat) (ns : list HashNode) (p : HashNode -> bool)
    (node : nat) (candidate : option nat) : result (option (nat * nat)) :=
  match candidate with
  | None => Ok None
  | Some c =>
      match fuel with
      | O => Diverge
      | S fuel' =>
          match ns !! c with
          | None => Fault
          | Some n =>
              if p n then Ok (Some (node, c))
              else find_candidate fuel' ns p c (next n)
          end
      end
  end.

(** Reading and writing through a node pointer. *)
Definition load (ns : list HashNode) (a : nat) : result HashNode :=
  match ns !! a with
  | Some n => Ok n
  | None => Fault
  end.

Definition store (ns : list HashNode) (a : nat) (n : HashNode)
    : result (list HashNode) :=
  match ns !! a with
  | Some _ => Ok (<[a := n]> ns)
  | None => Fault
  end.

(** [_buckets[i]] *)
Definition buckets_of (t : UntypedTable) : result (gmap Z nat) :=
  match _buckets t with
  | Some b => Ok b
  | None => Fault
  end.

(** [if (f) f(x);] for a removal callback. *)
Definition notify (f : option nat) (c : nat -> call) (cs : list call)
    : list call :=
  match f with
  | Some g => cs ++ [c g]
  | None => cs
  end.

(** *** Managing buckets *)

Definition initial_bucket_mask_width : Z := 4.

(** [1 << w] and [4 << w] are computed at type [int]. *)
Definition shl_int (x w : Z) : Z := int32 (Z.shiftl x w).

Definition make_heap (t : UntypedTable) : UntypedTable :=
  match _heap t with
  | None => set_heap (Some new_Heap) t
  | Some _ => t
  end.

(** [UntypedTable::create_buckets] *)
Definition create_buckets (t : UntypedTable) : UntypedTable :=
  match _buckets t with
  | None =>
      let t := set_bucket_mask_width initial_bucket_mask_width t in
      let t :=
        set_bucket_mask
          (uint64 (int32 (shl_int 1 initial_bucket_mask_width - 1))) t in
      let t := make_heap t in
      set_buckets (Some ∅) t
  | Some _ => t
  end.

(** The inner loop of [grow_buckets]:
    [for (node = old_buckets[i]; node != nullptr; node = node->next)
       { new_bucket = _bucket_mask & node->hash_value;
         node->next = new_buckets[new_bucket];
         new_buckets[new_bucket] = node; }]
    The step [node = node->next] reads the link the body has just written. *)
Fixpoint relink (fuel : nat) (mask : Z) (node : option nat)
    (st : list HashNode * gmap Z nat) : result (list HashNode * gmap Z nat) :=
  match node with
  | None => Ok st
  | Some a =>
      match fuel with
      | O => Diverge
      | S fuel' =>
          let '(ns, new_buckets) := st in
          n <- load ns a ;;
          let new_bucket := Z.land mask (hash_value n) in
          let n' := set_next n (new_buckets !! new_bucket) in
          let ns' := <[a := n']> ns in
          let new_buckets' := <[new_bucket := a]> new_buckets in
          relink fuel' mask (next n') (ns', new_buckets')
      end
  end.

(** The outer loop, [for (uint32_t i = 0; !(i >> old_width); i++)], over the
    bucket indices [idxs]. *)
Fixpoint redistribute (fuel : nat) (mask : Z) (old_buckets : gmap Z nat)
    (idxs : list Z) (st : list HashNode * gmap Z nat)
    : result (list HashNode * gmap Z nat) :=
  match idxs with
  | [] => Ok st
  | i :: idxs' =>
      st' <- relink fuel mask (old_buckets !! i) st ;;
      redistribute fuel mask old_buckets idxs' st'
  end.

(** The indices [0 .. 2^width - 1]. *)
Definition bucket_indices (width : Z) : list Z :=
  seqZ 0 (2 ^ width).

(** [new Bucket[n]], with [n] of type [int]: a negative length is refused
    with an exception, any other gives an array, which [grow_buckets] then
    zeroes. *)
Definition new_Bucket_array (n : Z) (t : UntypedTable)
    : result (gmap Z nat) :=
  if n <? 0 then Throw t else Ok ∅.

(** [UntypedTable::grow_buckets].  The width is raised before the new
    array is allocated.  From width 4 on the array comes from
    [new Bucket[1 << _bucket_mask_width]]; below, from the arena, whose
    allocation is taken to succeed and is zeroed as well. *)
Definition grow_buckets (t : UntypedTable) : result UntypedTable :=
  if 30 <? _bucket_mask_width t then Ok t
  else
    let old_width := _bucket_mask_width t in
    let t := set_bucket_mask_width (uint32 (old_width + 1)) t in
    let old_buckets := _buckets t in
    p <- (if initial_bucket_mask_width <=? old_width then
            new_buckets <- new_Bucket_array
                             (shl_int 1 (_bucket_mask_width t)) t ;;
            Ok (t, new_buckets)
          else Ok (make_heap t, ∅)) ;;
    let '(t, new_buckets) := p in
    let t :=
      set_bucket_mask
        (uint64 (int32 (shl_int 1 (_bucket_mask_width t) - 1))) t in
    old <- match old_buckets with
           | Some b => Ok b
           | None =>
               (* the loop reads [old_buckets[0]] *)
               Fault
           end ;;
    st <- redistribute (walk_limit (nodes t)) (_bucket_mask t) old
            (bucket_indices old_width) (nodes t, new_buckets) ;;
    Ok (set_buckets (Some (snd st)) (set_nodes (fst st) t)).

(** *** Lookup *)

(** [UntypedTable::lookup(key, found_key_out)].  The table is not changed;
    the result is the value returned and, when [found_key_out] is not null,
    the key stored through it. *)
Definition lookup (k : Z) (found_key_out : bool) (t : UntypedTable)
    : result (Z * option Z) :=
  let out (x : Z) := if found_key_out then Some x else None in
  if negb (_count t =? 0) then
    let h := call_hash (_hash t) k in
    b <- buckets_of t ;;
    let node := b !! Z.land (_bucket_mask t) h in
    r <- (if _compare_by_pointer t then
            find_node (walk_limit (nodes t)) (nodes t)
              (fun n => key n =? k) node
          else
            match node with
            | Some _ =>
                find_node (walk_limit (nodes t)) (nodes t)
                  (fun n => (hash_value n =? h)
                            && call_compare (_compare t) (key n) k) node
            | None => Ok None
            end) ;;
    match r with
    | Some (_, n) => Ok (value n, out (key n))
    | None => Ok (0, out 0)
    end
  else Ok (0, out 0).

(** *** Modifying entries *)

(** The second half of [insert], from the comment "insert new" on: grow if
    the count after the insertion exceeds [4 << _bucket_mask_width], take a
    node from the free list or the arena, fill it and push it on the chain
    of its bucket. *)
Definition insert_new (h k v : Z) (t : UntypedTable)
    : result (bool * UntypedTable) :=
  t <- (if uint64 (shl_int 4 (_bucket_mask_width t)) <? uint64 (_count t + 1)
        then grow_buckets t else Ok t) ;;
  let t := make_heap t in
  p <- match _spare_node t with
       | Some s =>
           n <- load (nodes t) s ;;
           Ok (s, set_spare_node (next n) t)
       | None =>
           Ok (length (nodes t),
               set_nodes (nodes t ++ [mkHashNode None 0 0 0]) t)
       end ;;
  let '(inserted_node, t) := p in
  b <- buckets_of t ;;
  let bucket := Z.land (_bucket_mask t) h in
  let n := mkHashNode (b !! bucket) k v h in
  ns <- store (nodes t) inserted_node n ;;
  let t := set_nodes ns t in
  let t := set_buckets (Some (<[bucket := inserted_node]> b)) t in
  let t := set_count (uint64 (_count t + 1)) t in
  Ok (true, t).

(** The first half on a match, "replace existing": the callbacks get the
    old key and value, then both are overwritten in the node. *)
Definition replace_existing (a : nat) (n : HashNode) (k v : Z)
    (t : UntypedTable) : UntypedTable :=
  let cs := notify (_did_remove_key t)
              (fun f => did_remove_key_call f (key n)) (calls t) in
  let cs := notify (_did_remove_value t)
              (fun f => did_remove_value_call f (value n)) cs in
  let n' := mkHashNode (next n) k v (hash_value n) in
  set_calls cs (set_nodes (<[a := n']> (nodes t)) t).

(** [UntypedTable::insert(key, value)] *)
Definition insert (k v : Z) (t : UntypedTable) : result (bool * UntypedTable) :=
  let t := match _buckets t with None => create_buckets t | Some _ => t end in
  let h := call_hash (_hash t) k in
  b <- buckets_of t ;;
  let node := b !! Z.land h (_bucket_mask t) in
  r <- find_node (walk_limit (nodes t)) (nodes t)
         (fun n => (hash_value n =? h) && call_compare (_compare t) (key n) k)
         node ;;
  match r with
  | Some (a, n) => Ok (false, replace_existing a n k v t)
  | None => insert_new h k v t
  end.

(** The body run by [remove] and [remove_ptr] on a match. *)
Definition unlink (node candidate : nat) (t : UntypedTable)
    : result UntypedTable :=
  c <- load (nodes t) candidate ;;
  nd <- load (nodes t) node ;;
  (* node->next = candidate->next *)
  let ns := <[node := set_next nd (next c)]> (nodes t) in
  c <- load ns candidate ;;
  let cs := notify (_did_remove_key t)
              (fun f => did_remove_key_call f (key c)) (calls t) in
  let cs := notify (_did_remove_value t)
              (fun f => did_remove_value_call f (value c)) cs in
  (* candidate->next = _spare_node; _spare_node = candidate *)
  let ns := <[candidate := set_next c (_spare_node t)]> ns in
  let t := set_calls cs (set_nodes ns t) in
  let t := set_spare_node (Some candidate) t in
  Ok (set_count (uint64 (_count t - 1)) t).

(** [UntypedTable::remove_ptr(key)].  The function has no [return] after
    its loop: when the loop ends without a match, control flows off the end
    and no value is returned, which is the result [None]. *)
Definition remove_ptr (k : Z) (t : UntypedTable)
    : result (option bool * UntypedTable) :=
  if _count t =? 0 then Ok (Some false, t)
  else
    b <- buckets_of t ;;
    match b !! Z.land (_bucket_mask t) (call_hash (_hash t) k) with
    | None => Ok (None, t)
    | Some node =>
        r <- find_candidate (walk_limit (nodes t)) (nodes t)
               (fun n => key n =? k) node (Some node) ;;
        match r with
        | Some (node, candidate) =>
            t' <- unlink node candidate t ;;
            Ok (Some true, t')
        | None => Ok (None, t)
        end
    end.

(** [UntypedTable::remove(key)] *)
Definition remove (k : Z) (t : UntypedTable)
    : result (option bool * UntypedTable) :=
  if _count t =? 0 then Ok (Some false, t)
  else if _compare_by_pointer t then remove_ptr k t
  else
    let h := call_hash (_hash t) k in
    b <- buckets_of t ;;
    match b !! Z.land (_bucket_mask t) h with
    | None => Ok (Some false, t)
    | Some node =>
        r <- find_candidate (walk_limit (nodes t)) (nodes t)
               (fun n => (hash_value n =? h)
                         && call_compare (_compare t) (key n) k)
               node (Some node) ;;
        match r with
        | Some (node, candidate) =>
            t' <- unlink node candidate t ;;
            Ok (Some true, t')
        | None => Ok (Some false, t)
        end
    end.

(** The inner loop of [for_each]: one call of [body] per node of a chain. *)
Fixpoint visit (fuel : nat) (ns : list HashNode) (body : nat) (context : Z)
    (node : option nat) (cs : list call) : result (list call) :=
  match node with
  | None => Ok cs
  | Some a =>
      match fuel with
      | O => Diverge
      | S fuel' =>
          n <- load ns a ;;
          visit fuel' ns body context (next n)
            (cs ++ [body_call body (key n) (value n) context])
      end
  end.

Fixpoint visit_buckets (ns : list HashNode) (body : nat) (context : Z)
    (b : gmap Z nat) (idxs : list Z) (cs : list call) : result (list call) :=
  match idxs with
  | [] => Ok cs
  | i :: idxs' =>
      cs' <- visit (walk_limit ns) ns body context (b !! i) cs ;;
      visit_buckets ns body context b idxs' cs'
  end.

(** [UntypedTable::for_each(body, context)] *)
Definition for_each (body : nat) (context : Z) (t : UntypedTable)
    : result UntypedTable :=
  if negb (_count t =? 0) then
    b <- buckets_of t ;;
    cs <- visit_buckets (nodes t) body context b
            (bucket_indices (_bucket_mask_width t)) (calls t) ;;
    Ok (set_calls cs t)
  else Ok t.

(** *** Sequences of operations

    A client's use of a table: the operations it calls, in order, and what
    each call hands back. *)

Inductive operation : Type :=
| op_lookup (k : Z) (found_key_out : bool)
| op_insert (k v : Z)
| op_remove (k : Z)
| op_for_each (body : nat) (context : Z).

Inductive outcome : Type :=
| lookup_returned (v : Z) (found_key : option Z)
| insert_returned (fresh : bool)
| remove_returned (removed : option bool)
| for_each_returned.

Definition perform (o : operation) (t : UntypedTable)
    : result (outcome * UntypedTable) :=
  match o with
  | op_lookup k out =>
      r <- lookup k out t ;; Ok (lookup_returned (fst r) (snd r), t)
  | op_insert k v =>
      r <- insert k v t ;; Ok (insert_returned (fst r), snd r)
  | op_remove k =>
      r <- remove k t ;; Ok (remove_returned (fst r), snd r)
  | op_for_each body context =>
      t' <- for_each body context t ;; Ok (for_each_returned, t')
  end.

Fixpoint run (ops : list operation) (t : UntypedTable)
    : result (list outcome * UntypedTable) :=
  match ops with
  | [] => Ok ([], t)
  | o :: ops' =>
      r <- perform o t ;;
      rs <- run ops' (snd r) ;;
      Ok (fst r :: fst rs, snd rs)
  end.

(** The state a sequence of operations leaves the table in. *)
Definition state_after (ops : list operation) (t : UntypedTable)
    : result UntypedTable :=
  r <- run ops t ;; Ok (snd r).

(** What a client sees of a sequence of operations. *)
Definition outcomes (ops : list operation) (t : UntypedTable)
    : result (list outcome) :=
  r <- run ops t ;; Ok (fst r).

(** Test data: the keys 8, 16, ..., 8n, each inserted with the value [key + 1]. *)
Definition insert_keys (n : nat) : list operation :=
  map (fun i => op_insert (8 * Z.of_nat i) (8 * Z.of_nat i + 1)) (seq 1 n).

Definition lookup_keys (n : nat) : list operation :=
  map (fun i => op_lookup (8 * Z.of_nat i) false) (seq 1 n).

Definition found (o : outcome) : bool :=
  match o with
  | lookup_returned v _ => negb (v =? 0)
  | _ => false
  end.

Definition count_found (r : result (list outcome)) : option nat :=
  match r with
  | Ok os => Some (length (filter (fun o => found o = true) os))
  | _ => None
  end.

(** *** Well-formed tables

    [chain ns head l]: following [next] from [head] in the memory [ns]
    reaches the null pointer, through the nodes [l] in that order. *)
Inductive chain (ns : list HashNode) : option nat -> list nat -> Prop :=
| chain_end : chain ns None []
| chain_step (a : nat) (n : HashNode) (l : list nat) :
    ns !! a = Some n -> chain ns (next n) l -> chain ns (Some a) (a :: l).

(** A live entry is a node on the chain of some bucket. *)
Definition live (t : UntypedTable) (a : nat) : Prop :=
  exists b i l,
    _buckets t = Some b /\ chain (nodes t) (b !! i) l /\ a ∈ l.

(** The table holds a live entry whose key the table's comparison function
    finds equal to [k]. *)
Definition has_equal_entry (t : UntypedTable) (k : Z) : Prop :=
  exists a n,
    live t a /\ nodes t !! a = Some n
    /\ call_compare (_compare t) (key n) k = true.

(** The node [a] sits in bucket [i] of a table with hash [h] and mask [m]:
    it caches the hash of its key, and that hash selects [i]. *)
Definition placed (h : hasher) (m : Z) (ns : list HashNode) (i : Z) (a : nat)
    : Prop :=
  exists n,
    ns !! a = Some n /\ hash_value n = call_hash h (key n)
    /\ Z.land m (hash_value n) = i.

(** The state the operations are meant to keep a table in. *)
Record table_ok (t : UntypedTable) : Prop := {
  ok_width : 0 <= _bucket_mask_width t;
  ok_mask : _bucket_mask t = 2 ^ _bucket_mask_width t - 1;
  ok_chains :
    forall b i a, _buckets t = Some b -> b !! i = Some a ->
      exists l, chain (nodes t) (Some a) l
                /\ Forall (placed (_hash t) (_bucket_mask t) (nodes t) i) l;
  ok_spare : forall s, _spare_node t = Some s -> (s < length (nodes t))%nat;
  ok_compare :
    forall x y, call_compare (_compare t) x y = true ->
      call_hash (_hash t) x = call_hash (_hash t) y
}.

(** Test data: keys 8, 120 and 160 of a default table share bucket 13. *)
Definition three_in_one_chain : UntypedTable :=
  Eval vm_compute in
    match state_after [op_insert 8 100; op_insert 120 200; op_insert 160 300]
            UntypedTable_default with
    | Ok t => t
    | _ => UntypedTable_default
    end.

(** The range the width of the bucket array stays in. *)
Definition width_in_range (t : UntypedTable) : Prop :=
  0 <= _bucket_mask_width t <= 30.

(** Test data: a table whose bucket array has [2^w] slots, all null. *)
Definition table_at_width (w : Z) : UntypedTable :=
  set_bucket_mask (2 ^ w - 1)
    (set_bucket_mask_width w
       (set_buckets (Some ∅) (make_heap UntypedTable_default))).

(** What growth and the fresh insertion need of a table: the head of every
    bucket is placed in it, and the head of the free list is a node. *)
Record growable (t : UntypedTable) : Prop := {
  gr_width : 0 <= _bucket_mask_width t;
  gr_mask : _bucket_mask t = 2 ^ _bucket_mask_width t - 1;
  gr_heads :
    forall b i a, _buckets t = Some b -> b !! i = Some a ->
      placed (_hash t) (_bucket_mask t) (nodes t) i a;
  gr_spare : forall s, _spare_node t = Some s -> (s < length (nodes t))%nat
}.

(** A chain of one node, placed in bucket [j]. *)
Definition lone_head (h : hasher) (m : Z) (ns : list HashNode) (j : Z)
    (a : nat) : Prop :=
  exists n,
    ns !! a = Some n /\ next n = None
    /\ hash_value n = call_hash h (key n)
    /\ Z.land m (hash_value n) = j.

(** *** What construction fixes

    The hash function, the comparison function and its fast path, the two
    callbacks and the ownership flag are set by the constructors only. *)
Definition config (t : UntypedTable)
    : hasher * key_equal * option nat * option nat * bool * bool :=
  (_hash t, _compare t, _did_remove_key t, _did_remove_value t,
   _is_heap_owner t, _compare_by_pointer t).

(** The fast path compares keys by identity, which is what the comparison
    function of such a table does too. *)
Definition fast_path_ok (t : UntypedTable) : Prop :=
  _compare_by_pointer t = true -> _compare t = pointer_compare_fn.

(** The comparison [lookup] and [remove] make on a node, by mode. *)
Definition matches (t : UntypedTable) (k : Z) (n : HashNode) : bool :=
  if _compare_by_pointer t then key n =? k
  else (hash_value n =? call_hash (_hash t) k)
       && call_compare (_compare t) (key n) k.

(** The calls [for_each] makes for the nodes [l], in order. *)
Definition body_calls (ns : list HashNode) (body : nat) (context : Z)
    (l : list nat) : list call :=
  flat_map
    (fun a =>
       match ns !! a with
       | Some n => [body_call body (key n) (value n) context]
       | None => []
       end) l.

(** *** Teardown *)

(** The inner loop of the destructor: for each node of a chain, the key
    callback and then the value callback, each if it is set. *)
Fixpoint notify_chain (fuel : nat) (ns : list HashNode)
    (did_remove_key did_remove_value : option nat) (node : option nat)
    (cs : list call) : result (list call) :=
  match node with
  | None => Ok cs
  | Some a =>
      match fuel with
      | O => Diverge
      | S fuel' =>
          n <- load ns a ;;
          let cs := notify did_remove_key
                      (fun f => did_remove_key_call f (key n)) cs in
          let cs := notify did_remove_value
                      (fun f => did_remove_value_call f (value n)) cs in
          notify_chain fuel' ns did_remove_key did_remove_value (next n) cs
      end
  end.

Fixpoint notify_buckets (ns : list HashNode)
    (did_remove_key did_remove_value : option nat) (b : gmap Z nat)
    (idxs : list Z) (cs : list call) : result (list call) :=
  match idxs with
  | [] => Ok cs
  | i :: idxs' =>
      cs' <- notify_chain (walk_limit ns) ns did_remove_key did_remove_value
               (b !! i) cs ;;
      notify_buckets ns did_remove_key did_remove_value b idxs' cs'
  end.

(** What the destructor does: the calls made when it is done, whether it
    passed [_buckets] to [free], and whether it reset and deleted the
    arena. *)
Record teardown : Type := mkTeardown {
  final_calls : list call;
  buckets_freed : bool;
  heap_deleted : bool
}.

Definition is_set {A : Type} (o : option A) : bool :=
  match o with
  | Some _ => true
  | None => false
  end.

(** [UntypedTable::~UntypedTable] *)
Definition destroy (t : UntypedTable) : result teardown :=
  cs <- (if (is_set (_did_remove_key t) || is_set (_did_remove_value t))
            && negb (_count t =? 0)
         then
           b <- buckets_of t ;;
           notify_buckets (nodes t) (_did_remove_key t) (_did_remove_value t)
             b (bucket_indices (_bucket_mask_width t)) (calls t)
         else Ok (calls t)) ;;
  Ok {| final_calls := cs;
        buckets_freed := 4 <? _bucket_mask t;
        heap_deleted := _is_heap_owner t && is_set (_heap t) |}.

(** What the caller sees when an entry with key [k] and value [v] is
    handed back: a call of the key callback with [k], then a call of the
    value callback with [v], each only if the callback is set. *)
Definition callback_calls (did_remove_key did_remove_value : option nat)
    (k v : Z) : list call :=
  match did_remove_key with
  | Some f => [did_remove_key_call f k]
  | None => []
  end
  ++ match did_remove_value with
     | Some g => [did_remove_value_call g v]
     | None => []
     end.

(** The calls expected of the destructor for the nodes [l], in order. *)
Definition removal_calls (ns : list HashNode)
    (did_remove_key did_remove_value : option nat) (l : list nat)
    : list call :=
  flat_map
    (fun a =>
       match ns !! a with
       | Some n =>
           callback_calls did_remove_key did_remove_value (key n) (value n)
       | None => []
       end) l.

(** Test data: the chain of [three_in_one_chain] in a table constructed
    with both callbacks, the functions 1 and 2. *)
Definition notifying_chain : UntypedTable :=
  Eval vm_compute in
    match state_after [op_insert 8 100; op_insert 120 200; op_insert 160 300]
            (UntypedTable_with None None (Some 1%nat) (Some 2%nat) None) with
    | Ok t => t
    | _ => UntypedTable_default
    end.

(** *** Hashing strings *)

(** [string_hash]: the characters at [str], as [char] values, up to the
    terminating zero; a string without one is read past its end.  The
    accumulator is an [int64_t]. *)
Fixpoint string_hash_from (result : Z) (str : list Z) : option Z :=
  match str with
  | [] => None
  | c :: rest =>
      if c =? 0 then Some (uint64 result)
      else string_hash_from (int64 (result * 33 + c)) rest
  end.

Definition string_hash (str : list Z) : option Z := string_hash_from 0 str.

(** The polynomial the hash evaluates: [c1 * 33^(n-1) + ... + cn]. *)
Fixpoint horner (acc : Z) (cs : list Z) : Z :=
  match cs with
  | [] => acc
  | c :: rest => horner (acc * 33 + c) rest
  end.

(** What a call on a table without entries hands back. *)
Definition quiet_outcome (o : operation) : outcome :=
  match o with
  | op_lookup _ out => lookup_returned 0 (if out then Some 0 else None)
  | op_insert _ _ => insert_returned true
  | op_remove _ => remove_returned (Some false)
  | op_for_each _ _ => for_each_returned
  end.

Definition is_insert (o : operation) : bool :=
  match o with
  | op_insert _ _ => true
  | _ => false
  end.

(** The first node among [l] that satisfies [q]: what a search loop finds
    on a chain through the nodes [l]. *)
Fixpoint first_match (ns : list HashNode) (q : HashNode -> bool)
    (l : list nat) : option (nat * HashNode) :=
  match l with
  | [] => None
  | a :: l' =>
      match ns !! a with
      | Some n => if q n then Some (a, n) else first_match ns q l'
      | None => None
      end
  end.

(** The count is zero only when no entry is live, and has not wrapped. *)
Definition counted (t : UntypedTable) : Prop :=
  0 <= _count t < 2 ^ 64 - 1
  /\ (_count t = 0 -> forall a, ~ live t a).

(** The bucket array and the fields that describe it go together: no array,
    width and mask zero; an array, a width from 4 to 31 and the mask of
    that width. *)
Definition array_described (t : UntypedTable) : Prop :=
  match _buckets t with
  | None => _bucket_mask_width t = 0 /\ _bucket_mask t = 0
  | Some _ =>
      4 <= _bucket_mask_width t <= 31
      /\ _bucket_mask t = 2 ^ _bucket_mask_width t - 1
  end.

(** The state of a table that was filled by [n] fresh insertions of the
    keys 8, 16, ..., 8n and has not reached width 30: well formed, no node
    on the free list, [n] counted, and no growth pending. *)
Definition filled_to (n : nat) (t : UntypedTable) : Prop :=
  table_ok t
  /\ _spare_node t = None
  /\ _compare t = pointer_compare_fn
  /\ is_Some (_buckets t)
  /\ 4 <= _bucket_mask_width t <= 29
  /\ _count t = Z.of_nat n
  /\ Z.of_nat n <= uint64 (shl_int 4 (_bucket_mask_width t))
  /\ Forall (fun nd => key nd <= 8 * Z.of_nat n) (nodes t).

End util.

Import util.

(** * Properties of attribute references *)

Section AttributeID_facts.

Import AttributeID.

Lemma not_KindMask_value : not_KindMask = 4294967292.
Proof. reflexivity. Qed.

Lemma tag_of_pointer_bits (v : Z) : Z.land (Z.land v not_KindMask) KindMask = 0.
Proof.
  rewrite <- Z.land_assoc, not_KindMask_value.
  change (Z.land 4294967292 KindMask) with 0.
  apply Z.land_0_r.
Qed.

Lemma Kind_value_tag (k : Kind) : Z.land (Kind_value k) KindMask = Kind_value k.
Proof. destruct k; reflexivity. Qed.

Lemma Kind_value_no_pointer (k : Kind) : Z.land (Kind_value k) not_KindMask = 0.
Proof. destruct k; reflexivity. Qed.

Lemma kind_with_kind (a : t) (k : Kind) : kind (with_kind a k) = Kind_value k.
Proof.
  unfold kind, with_kind; cbn [_value].
  rewrite Z.land_lor_distr_l, tag_of_pointer_bits, Kind_value_tag.
  apply Z.lor_0_l.
Qed.

Lemma pointer_bits_with_kind (a : t) (k : Kind) :
  pointer_bits (with_kind a k) = pointer_bits a.
Proof.
  unfold pointer_bits, with_kind; cbn [_value].
  rewrite Z.land_lor_distr_l, Kind_value_no_pointer, Z.lor_0_r.
  rewrite <- Z.land_assoc, Z.land_diag.
  reflexivity.
Qed.

(** C8. For every reference [a] and every kind [k], the kind of
    [a.with_kind(k)] is exactly [k] and its pointer bits are those of [a];
    hence [to_node()] after [with_kind(Direct)] and [to_indirect_node()]
    after [with_kind(Indirect)] pass their assertion and dereference the
    address [a] holds. *)
Theorem with_kind_sets_kind_keeps_pointer (a : t) (k : Kind) :
  kind (with_kind a k) = Kind_value k
  /\ pointer_bits (with_kind a k) = pointer_bits a
  /\ to_node (with_kind a Direct) = Some (pointer_bits a)
  /\ to_indirect_node (with_kind a Indirect) = Some (pointer_bits a).
Proof.
  split; [apply kind_with_kind|].
  split; [apply pointer_bits_with_kind|].
  unfold to_node, to_indirect_node, is_direct, is_indirect.
  rewrite !kind_with_kind, !Z.eqb_refl.
  fold (pointer_bits (with_kind a Direct)).
  fold (pointer_bits (with_kind a Indirect)).
  rewrite !pointer_bits_with_kind.
  split; reflexivity.
Qed.

(** The conversion to [bool] holds exactly of the zero encoding. *)
Lemma operator_bool_iff_zero (a : t) : operator_bool a = true <-> _value a = 0.
Proof. unfold operator_bool. apply Z.eqb_eq. Qed.

Lemma indirect_value_nonzero (p : Z) : Z.lor p (Kind_value Indirect) <> 0.
Proof.
  intros H. apply Z.lor_eq_0_iff in H. destruct H as [_ H]. discriminate H.
Qed.

(** C4. The conversion to [bool] is the test [_value == 0]: the direct
    reference to the node at offset 8 and the indirect reference to the
    indirect node at offset 8 both convert to [false], as does every
    indirect reference and every direct reference to a node at a non-zero
    offset; Nil converts to [false] too. *)
Theorem valid_references_convert_to_false :
  is_direct (of_node 8) = true
  /\ operator_bool (of_node 8) = false
  /\ is_indirect (of_indirect_node 8) = true
  /\ operator_bool (of_indirect_node 8) = false
  /\ operator_bool make_nil = false
  /\ (forall p, operator_bool (of_indirect_node p) = false)
  /\ (forall p, operator_bool (of_node p) = (p =? 0)%Z).
Proof.
  repeat split; try reflexivity.
  - intros p. unfold operator_bool, of_indirect_node; cbn [_value].
    apply Z.eqb_neq, indirect_value_nonzero.
  - intros p. unfold operator_bool, of_node; cbn [_value Kind_value].
    rewrite Z.lor_0_r. reflexivity.
Qed.

(** C5, as stated: the encoding of Nil does not have every bit of the kind
    mask set. *)
Lemma nil_is_not_all_tag_bits :
  ~ (Z.land (_value make_nil) KindMask = KindMask).
Proof. discriminate. Qed.

(** C5, amended. [make_nil()] yields one fixed encoding, the enumerator
    [NilAttribute] = 2: bit 1 of the kind mask is set and bit 0 is clear,
    and no pointer bit is set.  It is nil and neither direct nor indirect,
    so neither [to_node()] nor [to_indirect_node()] dereferences it, and it
    differs from every indirect reference and from every direct reference to
    a node whose offset has the tag bits clear. *)
Theorem nil_encoding :
  _value make_nil = 2
  /\ Z.testbit (_value make_nil) 1 = true
  /\ Z.testbit (_value make_nil) 0 = false
  /\ pointer_bits make_nil = 0
  /\ is_nil make_nil = true
  /\ is_direct make_nil = false
  /\ is_indirect make_nil = false
  /\ to_node make_nil = None
  /\ to_indirect_node make_nil = None
  /\ (forall p, of_indirect_node p <> make_nil)
  /\ (forall p, Z.land p KindMask = 0 -> of_node p <> make_nil).
Proof.
  repeat split; try reflexivity.
  - intros p H. injection H as H.
    apply (f_equal (fun z => Z.testbit z 0)) in H.
    rewrite Z.lor_spec in H. apply orb_false_iff in H.
    destruct H as [_ H]. discriminate H.
  - intros p Hp H. injection H as H.
    cbn [Kind_value] in H. rewrite Z.lor_0_r in H. subst p.
    discriminate Hp.
Qed.

Lemma nil_encoding_witness :
  Z.land 8 KindMask = 0 /\ of_node 8 <> make_nil.
Proof.
  split; [reflexivity|].
  apply (proj2 (proj2 (proj2 (proj2 (proj2 (proj2 (proj2 (proj2 (proj2
          (proj2 nil_encoding)))))))))).
  reflexivity.
Defined.

End AttributeID_facts.

(** * Properties of the table *)

(** ** Construction *)

(** C10. The default constructor and the parameterized constructor given
    null for the hash function, the equality function, both callbacks and
    the arena build the same table: pointer hashing, pointer comparison with
    the fast path on, no callbacks, the arena owned by the table.  Every
    sequence of lookup, insert, remove and for_each calls therefore has the
    same outcomes and leaves the same state on both. *)
Theorem default_is_all_null_construction :
  UntypedTable_with None None None None None = UntypedTable_default
  /\ _hash UntypedTable_default = pointer_hash_fn
  /\ _compare UntypedTable_default = pointer_compare_fn
  /\ _compare_by_pointer UntypedTable_default = true
  /\ _did_remove_key UntypedTable_default = None
  /\ _did_remove_value UntypedTable_default = None
  /\ _heap UntypedTable_default = None
  /\ _is_heap_owner UntypedTable_default = true
  /\ (forall ops : list operation,
        run ops (UntypedTable_with None None None None None)
        = run ops UntypedTable_default).
Proof. repeat split. Qed.

(** ** The empty table *)

(** C9. On a table whose entry count is zero, whatever its bucket array is
    (null included), [lookup] returns null and stores null through
    [found_key_out] when that is given, [remove] returns [false] and leaves
    the table as it is, and [for_each] returns without a call to [body]:
    none of them reaches the read of [_buckets], which on a null array is a
    fault. *)
Theorem empty_table_operations (t : UntypedTable) (k : Z)
    (found_key_out : bool) (body : nat) (context : Z) :
  _count t = 0 ->
  lookup k found_key_out t = Ok (0, if found_key_out then Some 0 else None)
  /\ remove k t = Ok (Some false, t)
  /\ for_each body context t = Ok t
  /\ lookup k found_key_out (set_buckets None t)
     = Ok (0, if found_key_out then Some 0 else None)
  /\ remove k (set_buckets None t) = Ok (Some false, set_buckets None t)
  /\ for_each body context (set_buckets None t) = Ok (set_buckets None t).
Proof.
  intros H.
  unfold lookup, remove, for_each; cbn [_count set_buckets].
  rewrite H. cbn. repeat split; reflexivity.
Qed.

Lemma empty_table_operations_witness :
  lookup 8 true UntypedTable_default = Ok (0, Some 0)
  /\ remove 8 UntypedTable_default = Ok (Some false, UntypedTable_default)
  /\ for_each 0 0 UntypedTable_default = Ok UntypedTable_default.
Proof.
  pose proof (empty_table_operations UntypedTable_default 8 true 0%nat 0
                eq_refl) as (H1 & H2 & H3 & _).
  exact (conj H1 (conj H2 H3)).
Defined.

(** ** Removal *)

(** C1. Removing the entry at the head of a bucket chain leaves the bucket
    pointing at the removed node.  With keys 8 and 16 (in buckets 13 and
    14) in a default table, [remove(16)] returns [true] and [lookup(16)]
    still returns the value 200 with the key 16.  With 8, 120 and 160 in
    one chain (160 at its head), after [remove(160)] the lookup of 160
    still succeeds, and 120 and 8 are no longer found; removing the middle
    entry 120 or the tail entry 8 of that chain does make its lookup
    fail. *)
Theorem removed_head_is_still_found :
  outcomes [op_insert 8 100; op_insert 16 200; op_remove 16;
            op_lookup 16 true] UntypedTable_default
  = Ok [insert_returned true; insert_returned true;
        remove_returned (Some true); lookup_returned 200 (Some 16)]
  /\ outcomes [op_insert 8 100; op_insert 120 200; op_insert 160 300;
               op_remove 160;
               op_lookup 160 true; op_lookup 120 true; op_lookup 8 true]
       UntypedTable_default
     = Ok [insert_returned true; insert_returned true; insert_returned true;
           remove_returned (Some true);
           lookup_returned 300 (Some 160); lookup_returned 0 (Some 0);
           lookup_returned 0 (Some 0)]
  /\ outcomes [op_insert 8 100; op_insert 120 200; op_insert 160 300;
               op_remove 120; op_lookup 120 true] UntypedTable_default
     = Ok [insert_returned true; insert_returned true; insert_returned true;
           remove_returned (Some true); lookup_returned 0 (Some 0)]
  /\ outcomes [op_insert 8 100; op_insert 120 200; op_insert 160 300;
               op_remove 8; op_lookup 8 true] UntypedTable_default
     = Ok [insert_returned true; insert_returned true; insert_returned true;
           remove_returned (Some true); lookup_returned 0 (Some 0)].
Proof. repeat split; vm_compute; reflexivity. Qed.

(** C3. [remove_ptr] ends without a [return] when its loop finds no match:
    in a default table holding key 8, [remove(120)] walks the chain of
    bucket 13 to its end and hands back no value, and so does [remove(16)]
    on the empty bucket 14.  A key removed from the head of its chain is
    still matched by the next [remove]: in both comparison modes the second
    [remove(8)] returns [true] again. *)
Theorem remove_of_absent_key_not_false :
  outcomes [op_insert 8 100; op_remove 120] UntypedTable_default
  = Ok [insert_returned true; remove_returned None]
  /\ outcomes [op_insert 8 100; op_remove 16] UntypedTable_default
     = Ok [insert_returned true; remove_returned None]
  /\ outcomes [op_insert 8 100; op_insert 16 200; op_remove 8; op_remove 8]
       UntypedTable_default
     = Ok [insert_returned true; insert_returned true;
           remove_returned (Some true); remove_returned (Some true)]
  /\ outcomes [op_insert 8 100; op_insert 16 200; op_remove 8; op_remove 8]
       (UntypedTable_with None (Some (custom_compare_fn Z.eqb)) None None None)
     = Ok [insert_returned true; insert_returned true;
           remove_returned (Some true); remove_returned (Some true)].
Proof. repeat split; vm_compute; reflexivity. Qed.

(** ** Insertion after a removal *)

(** C6. An entry removed from the head of its chain is still found by the
    search of [insert].  In a table constructed with both callbacks,
    after [insert(16, 200)] and a [remove(16)] that returns [true], the
    count is 0 and [lookup(16)] returns null; yet [insert(16, 300)]
    returns [false], as for a replacement: it calls the callbacks a second
    time with the key 16 and the value 200, leaves the count at 0, and
    the value 300 is not found afterwards.  The same outcomes come with
    the comparison function of the caller.  With the key 8 in the table
    besides, the value 300 is found after that insertion, but its node is
    at the head of the free list as well: the next fresh insertion, of
    key 24, takes it, and key 16 is gone. *)
Theorem insert_after_remove_is_not_fresh :
  outcomes [op_insert 16 200; op_remove 16; op_lookup 16 true;
            op_insert 16 300; op_lookup 16 true]
    (UntypedTable_with None None (Some 1%nat) (Some 2%nat) None)
  = Ok [insert_returned true; remove_returned (Some true);
        lookup_returned 0 (Some 0); insert_returned false;
        lookup_returned 0 (Some 0)]
  /\ (t <- state_after [op_insert 16 200; op_remove 16; op_insert 16 300]
              (UntypedTable_with None None (Some 1%nat) (Some 2%nat) None) ;;
      Ok (_count t, calls t))
     = Ok (0, [did_remove_key_call 1 16; did_remove_value_call 2 200;
               did_remove_key_call 1 16; did_remove_value_call 2 200])
  /\ outcomes [op_insert 16 200; op_remove 16; op_lookup 16 true;
               op_insert 16 300; op_lookup 16 true]
       (UntypedTable_with None (Some (custom_compare_fn Z.eqb))
          (Some 1%nat) (Some 2%nat) None)
     = Ok [insert_returned true; remove_returned (Some true);
           lookup_returned 0 (Some 0); insert_returned false;
           lookup_returned 0 (Some 0)]
  /\ outcomes [op_insert 8 100; op_insert 16 200; op_remove 16;
               op_insert 16 300; op_lookup 16 true;
               op_insert 24 5; op_lookup 16 true; op_lookup 24 true]
       UntypedTable_default
     = Ok [insert_returned true; insert_returned true;
           remove_returned (Some true); insert_returned false;
           lookup_returned 300 (Some 16);
           insert_returned true; lookup_returned 0 (Some 0);
           lookup_returned 5 (Some 24)].
Proof. repeat split; vm_compute; reflexivity. Qed.

(** ** Growth *)

(** C2. A default table gets 16 buckets on its first insertion.  After 64
    distinct keys every one of them is found and the width is still 4; the
    65th insertion is a fresh one and grows the array to width 5, after
    which the count is 65 but only 16 of the 65 keys are found: the first
    key, 8, is among the lost ones.  The relinking loop follows the link it
    has just overwritten, so it moves the head of each old chain only. *)
Theorem growth_loses_entries :
  count_found (outcomes (insert_keys 64 ++ lookup_keys 64) UntypedTable_default)
  = Some 64%nat
  /\ (t <- state_after (insert_keys 64) UntypedTable_default ;;
      Ok (_bucket_mask_width t, _count t)) = Ok (4, 64)
  /\ (t <- state_after (insert_keys 64) UntypedTable_default ;;
      r <- insert 520 521 t ;;
      Ok (fst r, _bucket_mask_width (snd r), _count (snd r)))
     = Ok (true, 5, 65)
  /\ count_found (outcomes (insert_keys 65 ++ lookup_keys 65) UntypedTable_default)
     = Some 16%nat
  /\ outcomes (insert_keys 64 ++ [op_lookup 8 true]) UntypedTable_default
     = Ok (repeat (insert_returned true) 64 ++ [lookup_returned 9 (Some 8)])
  /\ outcomes (insert_keys 65 ++ [op_lookup 8 true]) UntypedTable_default
     = Ok (repeat (insert_returned true) 65 ++ [lookup_returned 0 (Some 0)]).
Proof. repeat split; vm_compute; reflexivity. Qed.

(** ** Inverting the outcome of a sequence *)

Lemma bind_Ok {A B : Type} (m : result A) (f : A -> result B) (b : B) :
  bind m f = Ok b -> exists a, m = Ok a /\ f a = Ok b.
Proof. destruct m; cbn; intros H; try discriminate. eauto. Qed.

Ltac inv_bind H :=
  let x := fresh "x" in
  let Hx := fresh "Hx" in
  apply bind_Ok in H; destruct H as (x & Hx & H).

Ltac simpl_fields :=
  cbn [bind fst snd
       set_heap set_spare_node set_buckets set_count set_bucket_mask
       set_bucket_mask_width set_nodes set_calls
       _hash _compare _did_remove_key _did_remove_value _heap _spare_node
       _buckets _count _bucket_mask _bucket_mask_width _is_heap_owner
       _compare_by_pointer nodes calls] in *.

(** ** The width of the bucket array *)

Lemma make_heap_fields (t : UntypedTable) :
  _bucket_mask_width (make_heap t) = _bucket_mask_width t
  /\ _bucket_mask (make_heap t) = _bucket_mask t
  /\ _buckets (make_heap t) = _buckets t
  /\ nodes (make_heap t) = nodes t
  /\ _spare_node (make_heap t) = _spare_node t
  /\ _count (make_heap t) = _count t
  /\ calls (make_heap t) = calls t
  /\ _hash (make_heap t) = _hash t
  /\ _compare (make_heap t) = _compare t.
Proof. unfold make_heap. destruct (_heap t); repeat split. Qed.

(** What a growth that goes through leaves in the table. *)
Lemma grow_buckets_inv (t t' : UntypedTable) :
  grow_buckets t = Ok t' ->
  (30 < _bucket_mask_width t /\ t' = t)
  \/ (_bucket_mask_width t <= 30
      /\ _bucket_mask_width t' = uint32 (_bucket_mask_width t + 1)
      /\ _bucket_mask t'
         = uint64 (int32 (shl_int 1 (uint32 (_bucket_mask_width t + 1)) - 1))
      /\ _spare_node t' = _spare_node t
      /\ _count t' = _count t
      /\ calls t' = calls t
      /\ exists old st,
           _buckets t = Some old
           /\ redistribute (walk_limit (nodes t)) (_bucket_mask t') old
                (bucket_indices (_bucket_mask_width t)) (nodes t, ∅) = Ok st
           /\ nodes t' = fst st /\ _buckets t' = Some (snd st)).
Proof.
  unfold grow_buckets. intros H.
  destruct (30 <? _bucket_mask_width t) eqn:Hw.
  - left. apply Z.ltb_lt in Hw. injection H as <-. auto.
  - right. apply Z.ltb_ge in Hw.
    inv_bind H. destruct x as [t1 new_buckets].
    inv_bind H. inv_bind H. injection H as <-.
    destruct (initial_bucket_mask_width <=? _bucket_mask_width t).
    + inv_bind Hx. unfold new_Bucket_array in Hx2.
      destruct (_ <? 0); [discriminate|].
      injection Hx2 as <-. injection Hx as <- <-.
      cbn [set_bucket_mask_width set_bucket_mask set_buckets set_nodes
           _bucket_mask_width _bucket_mask _spare_node _count calls nodes
           _buckets] in *.
      destruct (_buckets t) as [old|] eqn:Hb; [|discriminate].
      injection Hx0 as <-.
      repeat split; try lia. eauto 10.
    + injection Hx as <- <-.
      destruct (make_heap_fields (set_bucket_mask_width
                  (uint32 (_bucket_mask_width t + 1)) t))
        as (E1 & E2 & E3 & E4 & E5 & E6 & E7 & _).
      cbn [set_bucket_mask_width set_bucket_mask set_buckets set_nodes
           _bucket_mask_width _bucket_mask _spare_node _count calls nodes
           _buckets] in *.
      rewrite ?E1, ?E4, ?E5, ?E6, ?E7 in *.
      destruct (_buckets t) as [old|] eqn:Hb; [|discriminate].
      injection Hx0 as <-.
      repeat split; try lia. eauto 10.
Qed.

(** At width 30 the length of the new array, [1 << 31], is negative at
    type [int]: the allocation throws, with the width already raised. *)
Lemma grow_buckets_throws (t : UntypedTable) :
  _bucket_mask_width t = 30 ->
  grow_buckets t = Throw (set_bucket_mask_width 31 t).
Proof.
  intros Hw. unfold grow_buckets. rewrite Hw. reflexivity.
Qed.

(** A growth that returns did not start from width 30. *)
Lemma grow_buckets_Ok_width (t t' : UntypedTable) :
  grow_buckets t = Ok t' -> _bucket_mask_width t <> 30.
Proof.
  intros H Hw. rewrite (grow_buckets_throws t Hw) in H. discriminate H.
Qed.

Lemma create_buckets_fields (t : UntypedTable) :
  _buckets t = None ->
  _buckets (create_buckets t) = Some ∅
  /\ _bucket_mask_width (create_buckets t) = 4
  /\ _bucket_mask (create_buckets t) = 15
  /\ nodes (create_buckets t) = nodes t
  /\ _spare_node (create_buckets t) = _spare_node t
  /\ _count (create_buckets t) = _count t
  /\ calls (create_buckets t) = calls t
  /\ _hash (create_buckets t) = _hash t
  /\ _compare (create_buckets t) = _compare t.
Proof.
  intros H. unfold create_buckets, make_heap. rewrite H.
  cbn [set_bucket_mask set_bucket_mask_width _heap].
  destruct (_heap t); repeat split.
Qed.

(** What a fresh insertion leaves in the table: the state [t2] after the
    growth check, and the new node [a] at the head of its bucket. *)
Lemma insert_new_inv (h k v : Z) (t t' : UntypedTable) (r : bool) :
  insert_new h k v t = Ok (r, t') ->
  r = true
  /\ exists t2 b a,
       (if uint64 (shl_int 4 (_bucket_mask_width t)) <? uint64 (_count t + 1)
        then grow_buckets t = Ok t2 else t2 = t)
       /\ _buckets t2 = Some b
       /\ _bucket_mask_width t' = _bucket_mask_width t2
       /\ _bucket_mask t' = _bucket_mask t2
       /\ _buckets t' = Some (<[Z.land (_bucket_mask t2) h := a]> b)
       /\ nodes t' !! a
          = Some (mkHashNode (b !! Z.land (_bucket_mask t2) h) k v h)
       /\ _count t' = uint64 (_count t2 + 1)
       /\ calls t' = calls t2.
Proof.
  unfold insert_new. intros H.
  inv_bind H. rename x into t2.
  destruct (make_heap_fields t2) as (E1 & E2 & E3 & E4 & E5 & E6 & E7 & _).
  inv_bind H. destruct x as [a t3].
  assert (F : _bucket_mask_width t3 = _bucket_mask_width t2
              /\ _bucket_mask t3 = _bucket_mask t2
              /\ _buckets t3 = _buckets t2
              /\ _count t3 = _count t2
              /\ calls t3 = calls t2).
  { destruct (_spare_node (make_heap t2)) as [s|].
    - inv_bind Hx0. injection Hx0 as <- <-. cbn. auto.
    - injection Hx0 as <- <-. cbn. auto. }
  destruct F as (F1 & F2 & F3 & F4 & F5).
  inv_bind H. rename x into b.
  inv_bind H. rename x into ns.
  injection H as <- <-.
  split; [reflexivity|].
  exists t2, b, a.
  unfold buckets_of in Hx1. rewrite F3 in Hx1.
  destruct (_buckets t2) as [b'|] eqn:Hb; [|discriminate].
  injection Hx1 as ->.
  unfold store in Hx2.
  destruct (nodes t3 !! a) eqn:Ha; [|discriminate].
  injection Hx2 as <-.
  cbn [set_count set_buckets set_nodes _bucket_mask_width _bucket_mask
       _buckets nodes _count calls].
  rewrite F1, F2, F4, F5.
  split.
  { destruct (uint64 (shl_int 4 (_bucket_mask_width t)) <? uint64 (_count t + 1));
      [exact Hx | injection Hx as <-; reflexivity]. }
  repeat split.
  apply list_lookup_insert_eq. eapply lookup_lt_Some. exact Ha.
Qed.

Lemma unlink_fields (node candidate : nat) (t t' : UntypedTable) :
  unlink node candidate t = Ok t' ->
  _bucket_mask_width t' = _bucket_mask_width t
  /\ _bucket_mask t' = _bucket_mask t
  /\ _buckets t' = _buckets t.
Proof.
  unfold unlink. intros H.
  inv_bind H. inv_bind H. inv_bind H. injection H as <-. repeat split.
Qed.

Lemma remove_fields (k : Z) (t t' : UntypedTable) (r : option bool) :
  remove k t = Ok (r, t') ->
  _bucket_mask_width t' = _bucket_mask_width t
  /\ _bucket_mask t' = _bucket_mask t
  /\ _buckets t' = _buckets t.
Proof.
  unfold remove, remove_ptr. intros H.
  destruct (_count t =? 0); [injection H as <- <-; auto|].
  destruct (_compare_by_pointer t).
  - inv_bind H.
    destruct (x !! _); [|injection H as <- <-; auto].
    inv_bind H. destruct x0 as [[nd c]|]; [|injection H as <- <-; auto].
    inv_bind H. injection H as <- <-. eapply unlink_fields; eauto.
  - inv_bind H.
    destruct (x !! _); [|injection H as <- <-; auto].
    inv_bind H. destruct x0 as [[nd c]|]; [|injection H as <- <-; auto].
    inv_bind H. injection H as <- <-. eapply unlink_fields; eauto.
Qed.

Lemma for_each_fields (body : nat) (context : Z) (t t' : UntypedTable) :
  for_each body context t = Ok t' ->
  _bucket_mask_width t' = _bucket_mask_width t
  /\ _bucket_mask t' = _bucket_mask t
  /\ _buckets t' = _buckets t.
Proof.
  unfold for_each. intros H.
  destruct (negb (_count t =? 0)); [|injection H as <-; auto].
  inv_bind H. inv_bind H. injection H as <-. repeat split.
Qed.

Lemma uint32_small (z : Z) : 0 <= z < 2 ^ 32 -> uint32 z = z.
Proof. intros H. unfold uint32. apply Z.mod_small. exact H. Qed.

Lemma grow_buckets_width_in_range (t t' : UntypedTable) :
  grow_buckets t = Ok t' -> width_in_range t -> width_in_range t'.
Proof.
  unfold width_in_range. intros H Hr.
  pose proof (grow_buckets_Ok_width t t' H) as Hne.
  apply grow_buckets_inv in H.
  destruct H as [[_ ->]|(Hle & Hw & _)]; [exact Hr|].
  rewrite Hw, uint32_small; lia.
Qed.

Lemma insert_width_in_range (k v : Z) (t t' : UntypedTable) (r : bool) :
  insert k v t = Ok (r, t') -> width_in_range t -> width_in_range t'.
Proof.
  unfold insert. intros H Hr.
  set (t1 := match _buckets t with
             | Some _ => t
             | None => create_buckets t
             end) in *.
  assert (Hr1 : width_in_range t1).
  { subst t1. destruct (_buckets t) eqn:Hb; [exact Hr|].
    destruct (create_buckets_fields t Hb) as (_ & E & _).
    unfold width_in_range. rewrite E. lia. }
  clearbody t1.
  inv_bind H. inv_bind H.
  destruct x0 as [[a n]|].
  - injection H as <- <-. exact Hr1.
  - apply insert_new_inv in H.
    destruct H as (_ & t2 & b & a & Hg & _ & Hw & _).
    unfold width_in_range. rewrite Hw.
    destruct (uint64 (shl_int 4 (_bucket_mask_width t1)) <? uint64 (_count t1 + 1)).
    + eapply grow_buckets_width_in_range; eauto.
    + subst t2. exact Hr1.
Qed.

Lemma perform_width_in_range (o : operation) (t t' : UntypedTable) (r : outcome) :
  perform o t = Ok (r, t') -> width_in_range t -> width_in_range t'.
Proof.
  destruct o; cbn [perform]; intros H Hr; inv_bind H; injection H as <- <-.
  - exact Hr.
  - destruct x as [fresh t1]. eapply insert_width_in_range; eauto.
  - destruct x as [removed t1]. apply remove_fields in Hx.
    destruct Hx as (E & _). unfold width_in_range. cbn [snd]. rewrite E.
    exact Hr.
  - apply for_each_fields in Hx. destruct Hx as (E & _).
    unfold width_in_range. rewrite E. exact Hr.
Qed.

Lemma run_width_in_range (ops : list operation) (t t' : UntypedTable)
    (rs : list outcome) :
  run ops t = Ok (rs, t') -> width_in_range t -> width_in_range t'.
Proof.
  revert t t' rs. induction ops as [|o ops IH]; intros t t' rs H Hr.
  - injection H as <- <-. exact Hr.
  - cbn [run] in H. inv_bind H. inv_bind H. injection H as <- <-.
    destruct x as [r t1]. destruct x0 as [rs1 t2]. cbn [snd] in *.
    eapply IH; [exact Hx0|]. eapply perform_width_in_range; eauto.
Qed.

Lemma relink_null (fuel : nat) (mask : Z) (st : list HashNode * gmap Z nat) :
  relink fuel mask None st = Ok st.
Proof. destruct fuel; reflexivity. Qed.

Lemma redistribute_empty (fuel : nat) (mask : Z) (idxs : list Z)
    (st : list HashNode * gmap Z nat) :
  redistribute fuel mask ∅ idxs st = Ok st.
Proof.
  induction idxs as [|i idxs IH]; cbn [redistribute]; [reflexivity|].
  rewrite lookup_empty, relink_null. cbn [bind]. exact IH.
Qed.

(** [1 << w] at type [int] is not negative up to [w = 30]. *)
Lemma shl_int_1_nonneg (w : Z) : 0 <= w <= 30 -> (shl_int 1 w <? 0) = false.
Proof.
  intros Hw.
  assert (Hall : forallb (fun w => negb (shl_int 1 w <? 0)) (seqZ 0 31) = true)
    by (vm_compute; reflexivity).
  rewrite forallb_forall in Hall.
  apply negb_true_iff, Hall, list_elem_of_In, elem_of_seqZ. lia.
Qed.



(** ** Chains *)

Section chains.

Variable ns : list HashNode.

Lemma chain_det (head : option nat) (l1 l2 : list nat) :
  chain ns head l1 -> chain ns head l2 -> l1 = l2.
Proof.
  intros H1. revert l2.
  induction H1 as [|a n l Ha H1 IH]; intros l2 H2; inversion H2; subst.
  - reflexivity.
  - f_equal. apply IH. congruence.
Qed.

Lemma chain_valid (head : option nat) (l : list nat) :
  chain ns head l -> forall a, a ∈ l -> is_Some (ns !! a).
Proof.
  induction 1 as [|a n l Ha H IH]; intros a' Hin.
  - inversion Hin.
  - apply elem_of_cons in Hin. destruct Hin as [->|Hin]; eauto.
Qed.

(** The chain that starts at a node of a chain is the rest of that chain. *)
Lemma chain_from_member (head : option nat) (l : list nat) (a : nat) :
  chain ns head l -> a ∈ l ->
  exists l1 l2, l = l1 ++ a :: l2 /\ chain ns (Some a) (a :: l2).
Proof.
  induction 1 as [|a' n l Ha H IH]; intros Hin.
  - inversion Hin.
  - apply elem_of_cons in Hin. destruct Hin as [->|Hin].
    + exists [], l. split; [reflexivity|]. econstructor; eauto.
    + destruct (IH Hin) as (l1 & l2 & -> & Hc).
      exists (a' :: l1), l2. split; [reflexivity|exact Hc].
Qed.

(** A chain that ends visits no node twice. *)
Lemma chain_NoDup (head : option nat) (l : list nat) :
  chain ns head l -> NoDup l.
Proof.
  induction 1 as [|a n l Ha H IH]; [constructor|].
  apply NoDup_cons. split; [|exact IH].
  intros Hin.
  destruct (chain_from_member _ _ _ H Hin) as (l1 & l2 & E & Hc).
  assert (Hc' : chain ns (Some a) (a :: l)) by (econstructor; eauto).
  pose proof (chain_det _ _ _ Hc Hc') as E'.
  injection E' as E'. subst l2.
  apply (f_equal length) in E. rewrite length_app in E. cbn in E. lia.
Qed.

Lemma chain_length (head : option nat) (l : list nat) :
  chain ns head l -> (length l <= length ns)%nat.
Proof.
  intros H.
  rewrite <- (length_seq (length ns) 0).
  apply submseteq_length, NoDup_submseteq; [eapply chain_NoDup; eauto|].
  intros a Ha. apply elem_of_seq.
  apply (chain_valid _ _ H), lookup_lt_is_Some in Ha. lia.
Qed.

(** The search loop on a chain that ends: it returns, with the first node
    that satisfies [p] or with null when there is none. *)
Lemma find_node_chain (p : HashNode -> bool) (head : option nat)
    (l : list nat) (fuel : nat) :
  chain ns head l -> (length l <= fuel)%nat ->
  (find_node fuel ns p head = Ok None
   /\ forall a n, a ∈ l -> ns !! a = Some n -> p n = false)
  \/ (exists a n,
        find_node fuel ns p head = Ok (Some (a, n))
        /\ a ∈ l /\ ns !! a = Some n /\ p n = true).
Proof.
  intros H. revert fuel.
  induction H as [|a n l Ha H IH]; intros fuel Hf.
  - left. split; [destruct fuel; reflexivity|].
    intros a n Hin. inversion Hin.
  - destruct fuel as [|fuel]; [cbn in Hf; lia|].
    cbn [find_node]. rewrite Ha.
    destruct (p n) eqn:Hp.
    + right. exists a, n. repeat split; auto. apply elem_of_cons; auto.
    + destruct (IH fuel) as [[E Hall]|(a' & n' & E & Hin & Ha' & Hp')].
      * cbn in Hf. lia.
      * left. split; [exact E|].
        intros a' n' Hin Ha'. apply elem_of_cons in Hin.
        destruct Hin as [->|Hin]; [congruence|eauto].
      * right. exists a', n'. repeat split; auto.
        apply elem_of_cons; auto.
Qed.

(** The search gives up only on a chain that does not end. *)
Lemma find_node_diverges (p : HashNode -> bool) (head : option nat) :
  find_node (walk_limit ns) ns p head = Diverge ->
  forall l, ~ chain ns head l.
Proof.
  intros E l Hc.
  destruct (find_node_chain p head l (walk_limit ns) Hc)
    as [[E' _]|(a & n & E' & _)].
  - unfold walk_limit. apply chain_length in Hc. lia.
  - congruence.
  - congruence.
Qed.

(** The loop of [remove] on a chain that ends. *)
Lemma find_candidate_chain (p : HashNode -> bool) (node : nat)
    (head : option nat) (l : list nat) (fuel : nat) :
  chain ns head l -> (length l <= fuel)%nat ->
  exists r, find_candidate fuel ns p node head = Ok r.
Proof.
  intros H. revert fuel node.
  induction H as [|a n l Ha H IH]; intros fuel node Hf.
  - exists None. destruct fuel; reflexivity.
  - destruct fuel as [|fuel]; [cbn in Hf; lia|].
    cbn [find_candidate]. rewrite Ha.
    destruct (p n); [eauto|].
    apply IH. cbn in Hf. lia.
Qed.

Lemma find_candidate_diverges (p : HashNode -> bool) (node : nat)
    (head : option nat) :
  find_candidate (walk_limit ns) ns p node head = Diverge ->
  forall l, ~ chain ns head l.
Proof.
  intros E l Hc.
  destruct (find_candidate_chain p node head l (walk_limit ns) Hc) as [r E'].
  - unfold walk_limit. apply chain_length in Hc. lia.
  - congruence.
Qed.

(** The loop of [for_each] on a chain that ends. *)
Lemma visit_chain (body : nat) (context : Z) (head : option nat)
    (l : list nat) (fuel : nat) (cs : list call) :
  chain ns head l -> (length l <= fuel)%nat ->
  exists cs', visit fuel ns body context head cs = Ok cs'.
Proof.
  intros H. revert fuel cs.
  induction H as [|a n l Ha H IH]; intros fuel cs Hf.
  - exists cs. destruct fuel; reflexivity.
  - destruct fuel as [|fuel]; [cbn in Hf; lia|].
    cbn [visit]. unfold load. rewrite Ha. cbn [bind].
    apply IH. cbn in Hf. lia.
Qed.

Lemma visit_diverges (body : nat) (context : Z) (head : option nat)
    (cs : list call) :
  visit (walk_limit ns) ns body context head cs = Diverge ->
  forall l, ~ chain ns head l.
Proof.
  intros E l Hc.
  destruct (visit_chain body context head l (walk_limit ns) cs Hc) as [r E'].
  - unfold walk_limit. apply chain_length in Hc. lia.
  - congruence.
Qed.

End chains.

(** Overwriting the key and value of a node keeps every chain. *)
Lemma chain_same_links (ns : list HashNode) (a : nat) (n n' : HashNode)
    (head : option nat) (l : list nat) :
  ns !! a = Some n -> next n' = next n ->
  chain ns head l -> chain (<[a := n']> ns) head l.
Proof.
  intros Ha Hn H.
  induction H as [|c m l Hc H IH]; [constructor|].
  destruct (decide (a = c)) as [->|Hne].
  - apply chain_step with n'.
    + apply list_lookup_insert_eq. eapply lookup_lt_Some; eauto.
    + rewrite Hn. congruence.
  - apply chain_step with m; [|exact IH].
    rewrite list_lookup_insert_ne; auto.
Qed.

(** ** Growth on a well-formed table returns *)

(** [(1 << w) - 1] at type [int], widened to the mask's 64 bits. *)
Lemma mask_of_width (w : Z) :
  0 <= w <= 31 -> uint64 (int32 (shl_int 1 w - 1)) = 2 ^ w - 1.
Proof.
  intros Hw.
  assert (Hall : forallb (fun w => uint64 (int32 (shl_int 1 w - 1)) =? 2 ^ w - 1)
                   (seqZ 0 32) = true) by (vm_compute; reflexivity).
  rewrite forallb_forall in Hall.
  apply Z.eqb_eq, Hall, list_elem_of_In, elem_of_seqZ. lia.
Qed.

Lemma land_masks (w : Z) :
  0 <= w -> Z.land (2 ^ w - 1) (2 ^ (w + 1) - 1) = 2 ^ w - 1.
Proof.
  intros Hw.
  replace (2 ^ (w + 1) - 1) with (Z.ones (w + 1))
    by (rewrite Z.ones_equiv; lia).
  rewrite Z.land_ones by lia.
  apply Z.mod_small.
  rewrite Z.pow_add_r by lia. change (2 ^ 1) with 2.
  pose proof (Z.pow_pos_nonneg 2 w). lia.
Qed.

Lemma relink_head (fuel : nat) (mask : Z) (a : nat) (n : HashNode)
    (ns : list HashNode) (nb : gmap Z nat) :
  ns !! a = Some n ->
  nb !! Z.land mask (hash_value n) = None ->
  relink (S fuel) mask (Some a) (ns, nb)
  = Ok (<[a := set_next n None]> ns, <[Z.land mask (hash_value n) := a]> nb).
Proof.
  intros Ha Hnb. cbn [relink]. unfold load. rewrite Ha. cbn [bind].
  rewrite Hnb. cbn [set_next next]. apply relink_null.
Qed.

(** The redistribution loop returns when the head of every old bucket [i]
    is placed in [i] under the old mask: the slot it moves to is then still
    empty, and the inner loop stops after that one node.  Every slot of the
    new array then holds a chain of one node. *)
Lemma redistribute_returns (fuel : nat) (hf : hasher) (mask omask : Z)
    (old : gmap Z nat) (idxs : list Z) :
  Z.land omask mask = omask ->
  NoDup idxs ->
  forall (ns : list HashNode) (nb : gmap Z nat),
    (forall i a, i ∈ idxs -> old !! i = Some a -> placed hf omask ns i a) ->
    (forall j a, nb !! j = Some a ->
       (Z.land omask j ∉ idxs) /\ lone_head hf mask ns j a) ->
    exists ns' nb',
      redistribute (S fuel) mask old idxs (ns, nb) = Ok (ns', nb')
      /\ length ns' = length ns
      /\ forall j a, nb' !! j = Some a -> lone_head hf mask ns' j a.
Proof.
  intros Hm. induction idxs as [|i idxs IH]; intros Hnd ns nb Hheads Hnb.
  - exists ns, nb. repeat split. intros j a Hj. apply (Hnb j a Hj).
  - apply NoDup_cons in Hnd. destruct Hnd as [Hi Hnd].
    cbn [redistribute].
    destruct (old !! i) as [a|] eqn:Hold.
    + destruct (Hheads i a) as (n & Ha & Hcached & Hn);
        [apply elem_of_cons; auto | exact Hold |].
      assert (Hfree : nb !! Z.land mask (hash_value n) = None).
      { destruct (nb !! Z.land mask (hash_value n)) as [c|] eqn:E; [|reflexivity].
        exfalso. apply (Hnb _ _ E).
        rewrite Z.land_assoc, Hm, Hn. apply elem_of_cons; auto. }
      rewrite (relink_head fuel mask a n ns nb Ha Hfree). cbn [bind].
      destruct (IH Hnd (<[a := set_next n None]> ns)
                  (<[Z.land mask (hash_value n) := a]> nb))
        as (ns' & nb' & E & Hlen & Hlone).
      * intros i' a' Hi' Hold'.
        destruct (Hheads i' a') as (n' & Ha' & Hc' & Hn');
          [apply elem_of_cons; auto | exact Hold' |].
        destruct (decide (a = a')) as [<-|Hne].
        -- exfalso. apply Hi. congruence.
        -- exists n'. rewrite list_lookup_insert_ne by exact Hne. auto.
      * intros j c Hj.
        destruct (decide (Z.land mask (hash_value n) = j)) as [<-|Hne].
        -- rewrite lookup_insert_eq in Hj. injection Hj as <-.
           split; [rewrite Z.land_assoc, Hm, Hn; exact Hi|].
           exists (set_next n None).
           rewrite list_lookup_insert_eq by (eapply lookup_lt_Some; eauto).
           auto.
        -- rewrite lookup_insert_ne in Hj by exact Hne.
           destruct (Hnb _ _ Hj) as (Hout & n2 & Hc2 & Hnx2 & Hca2 & Hj2).
           split; [intros Hin; apply Hout, elem_of_cons; auto|].
           exists n2. repeat split; auto.
           rewrite list_lookup_insert_ne; [exact Hc2|].
           intros <-. apply Hout.
           rewrite Ha in Hc2. injection Hc2 as <-.
           rewrite <- Hj2, Z.land_assoc, Hm, Hn. apply elem_of_cons; auto.
      * exists ns', nb'. split; [exact E|]. split; [|exact Hlone].
        rewrite Hlen. apply length_insert.
    + rewrite relink_null. cbn [bind].
      apply (IH Hnd ns nb).
      * intros i' a' Hi'. apply Hheads. apply elem_of_cons; auto.
      * intros j c Hj. destruct (Hnb _ _ Hj) as [Hout Hl].
        split; [intros Hin; apply Hout, elem_of_cons; auto|exact Hl].
Qed.

(** Growth on a table whose bucket heads are placed returns, at any width
    but 30; unless the width is above 30 already, it is one more than
    before, the mask is the one of that width and every new bucket holds at
    most one node. *)
Lemma grow_buckets_returns (t : UntypedTable) (b : gmap Z nat) :
  growable t -> _buckets t = Some b -> _bucket_mask_width t <> 30 ->
  exists t' b',
    grow_buckets t = Ok t'
    /\ _buckets t' = Some b'
    /\ length (nodes t') = length (nodes t)
    /\ _spare_node t' = _spare_node t
    /\ _hash t' = _hash t
    /\ _compare t' = _compare t
    /\ (t' = t
        \/ (_bucket_mask_width t' = _bucket_mask_width t + 1
            /\ _bucket_mask t' = 2 ^ (_bucket_mask_width t + 1) - 1
            /\ forall j a, b' !! j = Some a ->
                 lone_head (_hash t) (_bucket_mask t') (nodes t') j a)).
Proof.
  intros [Hw Hmask Hheads Hspare] Hb Hne.
  destruct (Z.ltb_spec 30 (_bucket_mask_width t)) as [Hgt|Hle].
  - exists t, b. unfold grow_buckets.
    apply Z.ltb_lt in Hgt. rewrite Hgt. repeat split; auto.
  - destruct (redistribute_returns (length (nodes t)) (_hash t)
                (2 ^ (_bucket_mask_width t + 1) - 1)
                (_bucket_mask t) b (bucket_indices (_bucket_mask_width t)))
      with (ns := nodes t) (nb := (∅ : gmap Z nat))
      as (ns' & nb' & E & Hlen & Hlone).
    + rewrite Hmask. apply land_masks. exact Hw.
    + apply NoDup_seqZ.
    + intros i a _ Hi. eapply Hheads; eauto.
    + intros j a Hj. rewrite lookup_empty in Hj. discriminate Hj.
    + unfold grow_buckets.
      apply Z.ltb_ge in Hle. rewrite Hle. apply Z.ltb_ge in Hle.
      assert (Hfields :
        forall t0, nodes t0 = nodes t ->
          _bucket_mask_width t0 = uint32 (_bucket_mask_width t + 1) ->
          _spare_node t0 = _spare_node t ->
          _hash t0 = _hash t -> _compare t0 = _compare t ->
          exists t' b',
            (old <- match Some b with
                    | Some b0 => Ok b0
                    | None => Fault
                    end ;;
             st <- redistribute (walk_limit
                      (nodes (set_bucket_mask
                         (uint64 (int32 (shl_int 1 (_bucket_mask_width t0) - 1)))
                         t0)))
                     (_bucket_mask (set_bucket_mask
                         (uint64 (int32 (shl_int 1 (_bucket_mask_width t0) - 1)))
                         t0))
                     old (bucket_indices (_bucket_mask_width t))
                     (nodes (set_bucket_mask
                         (uint64 (int32 (shl_int 1 (_bucket_mask_width t0) - 1)))
                         t0), ∅) ;;
             Ok (set_buckets (Some (snd st))
                   (set_nodes (fst st)
                      (set_bucket_mask
                         (uint64 (int32 (shl_int 1 (_bucket_mask_width t0) - 1)))
                         t0))))
            = Ok t'
            /\ _buckets t' = Some b'
            /\ length (nodes t') = length (nodes t)
            /\ _spare_node t' = _spare_node t
            /\ _hash t' = _hash t
            /\ _compare t' = _compare t
            /\ (t' = t
                \/ (_bucket_mask_width t' = _bucket_mask_width t + 1
                    /\ _bucket_mask t' = 2 ^ (_bucket_mask_width t + 1) - 1
                    /\ forall j a, b' !! j = Some a ->
                         lone_head (_hash t) (_bucket_mask t') (nodes t') j a))).
      { intros t0 E1 E2 E3 E4 E5.
        cbn [bind set_bucket_mask nodes _bucket_mask].
        rewrite E1, E2, uint32_small, mask_of_width by lia.
        unfold walk_limit. rewrite E. cbn [bind fst snd].
        eexists _, nb'. split; [reflexivity|].
        simpl_fields. rewrite E2, uint32_small by lia.
        repeat split; auto. }
      assert (Hnn : forall t0,
                _bucket_mask_width t0 = uint32 (_bucket_mask_width t + 1) ->
                (shl_int 1 (_bucket_mask_width t0) <? 0) = false).
      { intros t0 ->. rewrite uint32_small by lia.
        apply shl_int_1_nonneg. lia. }
      cbn [set_bucket_mask_width _buckets]. rewrite Hb.
      destruct (initial_bucket_mask_width <=? _bucket_mask_width t).
      * unfold new_Bucket_array. rewrite Hnn by reflexivity. cbn [bind].
        apply (Hfields (set_bucket_mask_width
                          (uint32 (_bucket_mask_width t + 1)) t));
          reflexivity.
      * cbn [bind]. unfold make_heap.
        destruct (_heap (set_bucket_mask_width
                    (uint32 (_bucket_mask_width t + 1)) t));
          apply Hfields; reflexivity.
Qed.

(** ** A fresh insertion on a well-formed table returns *)

Lemma insert_new_returns (h k v : Z) (t : UntypedTable) (b : gmap Z nat) :
  growable t -> _buckets t = Some b -> _bucket_mask_width t <> 30 ->
  exists t', insert_new h k v t = Ok (true, t').
Proof.
  intros Hg Hb Hne.
  assert (Hgrown : exists t2 b2,
    (if uint64 (shl_int 4 (_bucket_mask_width t)) <? uint64 (_count t + 1)
     then grow_buckets t else Ok t) = Ok t2
    /\ _buckets t2 = Some b2
    /\ forall s, _spare_node t2 = Some s -> (s < length (nodes t2))%nat).
  { destruct (uint64 (shl_int 4 (_bucket_mask_width t)) <? uint64 (_count t + 1)).
    - destruct (grow_buckets_returns t b Hg Hb Hne)
        as (t2 & b2 & E & Hb2 & Hl & Hs & _).
      exists t2, b2. repeat split; auto.
      intros s. rewrite Hs, Hl. apply (gr_spare t Hg).
    - exists t, b. repeat split; auto. apply (gr_spare t Hg). }
  destruct Hgrown as (t2 & b2 & E & Hb2 & Hspare).
  unfold insert_new. rewrite E. cbn [bind].
  destruct (make_heap_fields t2) as (_ & _ & E3 & E4 & E5 & _).
  rewrite E5. destruct (_spare_node t2) as [s|] eqn:Hs.
  - specialize (Hspare s eq_refl). rename Hspare into Hlt.
    apply lookup_lt_is_Some in Hlt. destruct Hlt as [n Hn].
    unfold load, buckets_of, store. rewrite E4, Hn. simpl_fields.
    rewrite E3, Hb2. simpl_fields. rewrite E4, Hn. simpl_fields.
    eexists. reflexivity.
  - unfold buckets_of, store. simpl_fields.
    rewrite E3, Hb2. simpl_fields.
    rewrite E4, lookup_app_r, Nat.sub_diag by lia.
    cbn [lookup list_lookup bind]. eexists. reflexivity.
Qed.

(** ** Insertion *)

Lemma find_node_null (fuel : nat) (ns : list HashNode) (p : HashNode -> bool) :
  find_node fuel ns p None = Ok None.
Proof. destruct fuel; reflexivity. Qed.

Lemma table_ok_growable (t : UntypedTable) : table_ok t -> growable t.
Proof.
  intros [Hw Hm Hch Hsp _]. split; auto.
  intros b i a Hb Hi.
  destruct (Hch b i a Hb Hi) as (l & Hc & Hpl).
  inversion Hc; subst. inversion Hpl; subst. assumption.
Qed.

Lemma create_buckets_growable (t : UntypedTable) :
  _buckets t = None -> table_ok t -> growable (create_buckets t).
Proof.
  intros Hb Hok.
  destruct (create_buckets_fields t Hb)
    as (E1 & E2 & E3 & E4 & E5 & _).
  split.
  - rewrite E2. lia.
  - rewrite E2, E3. reflexivity.
  - intros b i a Hb' Hi. rewrite E1 in Hb'. injection Hb' as <-.
    rewrite lookup_empty in Hi. discriminate Hi.
  - rewrite E4, E5. apply (ok_spare t Hok).
Qed.

(** The chain of every bucket of a well-formed table ends, and its nodes
    are placed in that bucket. *)
Lemma bucket_chain (t : UntypedTable) (b : gmap Z nat) (i : Z) :
  table_ok t -> _buckets t = Some b ->
  exists l,
    chain (nodes t) (b !! i) l
    /\ Forall (placed (_hash t) (_bucket_mask t) (nodes t) i) l.
Proof.
  intros Hok Hb. destruct (b !! i) as [a|] eqn:Hi.
  - eapply (ok_chains t Hok); eauto.
  - exists []. split; constructor.
Qed.

(** The two callbacks, called one after the other, add the calls a caller
    expects for one entry. *)
Lemma notify_callback_calls (kf vf : option nat) (k v : Z) (cs : list call) :
  notify vf (fun f => did_remove_value_call f v)
    (notify kf (fun f => did_remove_key_call f k) cs)
  = cs ++ callback_calls kf vf k v.
Proof.
  unfold notify, callback_calls.
  destruct kf, vf; cbn [app]; rewrite <- ?app_assoc, ?app_nil_r; reflexivity.
Qed.

(** X22. On a well-formed table of width at most 29 whose comparison
    function agrees with its hash function, [insert(key, value)] returns,
    and returns [false] exactly when a node on a bucket chain has a key
    equal to [key].  Then that node has its key and value overwritten in
    place: the callbacks that are set were called with the old key and
    then the old value, nothing else in the table changes, and every chain
    runs through the same nodes as before.  When it returns [true], the
    count has gone up by one, no callback was called, and the head of the
    bucket the hash of [key] selects is a node holding [key], [value] and
    that hash. *)
Theorem insert_replaces_or_pushes (t : UntypedTable) (k v : Z) :
  table_ok t -> _bucket_mask_width t <= 29 ->
  exists fresh t',
    insert k v t = Ok (fresh, t')
    /\ (fresh = false <-> has_equal_entry t k)
    /\ (fresh = false ->
        exists a n,
          live t a /\ nodes t !! a = Some n
          /\ call_compare (_compare t) (key n) k = true
          /\ t' = set_calls
                    (calls t
                     ++ callback_calls (_did_remove_key t)
                          (_did_remove_value t) (key n) (value n))
                    (set_nodes
                       (<[a := mkHashNode (next n) k v (hash_value n)]>
                          (nodes t)) t)
          /\ forall head l,
               chain (nodes t) head l -> chain (nodes t') head l)
    /\ (fresh = true ->
        _count t' = uint64 (_count t + 1)
        /\ calls t' = calls t
        /\ exists b' a nx,
             _buckets t' = Some b'
             /\ b' !! Z.land (_bucket_mask t') (call_hash (_hash t) k) = Some a
             /\ nodes t' !! a
                = Some (mkHashNode nx k v (call_hash (_hash t) k))).
Proof.
  intros Hok Hw29.
  assert (Hfresh : forall t1 b1 t',
            _buckets t1 = Some b1 -> _count t1 = _count t ->
            calls t1 = calls t ->
            insert_new (call_hash (_hash t) k) k v t1 = Ok (true, t') ->
            _count t' = uint64 (_count t + 1)
            /\ calls t' = calls t
            /\ exists b' a nx,
                 _buckets t' = Some b'
                 /\ b' !! Z.land (_bucket_mask t') (call_hash (_hash t) k)
                    = Some a
                 /\ nodes t' !! a
                    = Some (mkHashNode nx k v (call_hash (_hash t) k))).
  { intros t1 b1 t' Hb1 Hc1 Hcs1 E.
    apply insert_new_inv in E.
    destruct E as (_ & t2 & b2 & a & Hg & Hb2 & _ & Hm & Hb' & Ha & Hcnt & Hcs).
    assert (Hsame : _count t2 = _count t1 /\ calls t2 = calls t1).
    { destruct (uint64 (shl_int 4 (_bucket_mask_width t1))
                <? uint64 (_count t1 + 1)); [|subst t2; auto].
      apply grow_buckets_inv in Hg.
      destruct Hg as [[_ ->]|(_ & _ & _ & _ & E1 & E2 & _)]; auto. }
    destruct Hsame as [S1 S2].
    rewrite Hcnt, Hcs, S1, S2, Hc1, Hcs1.
    split; [reflexivity|]. split; [reflexivity|].
    eexists _, a, _. split; [exact Hb'|]. split; [|exact Ha].
    rewrite Hm. apply lookup_insert_eq. }
  unfold insert.
  destruct (_buckets t) as [b|] eqn:Hb.
  - unfold buckets_of. rewrite Hb. cbn [bind].
    set (h := call_hash (_hash t) k) in *.
    set (p := fun n => (hash_value n =? h) && call_compare (_compare t) (key n) k).
    destruct (bucket_chain t b (Z.land h (_bucket_mask t)) Hok Hb)
      as (l & Hc & Hpl).
    destruct (find_node_chain (nodes t) p _ l (walk_limit (nodes t)) Hc)
      as [[E Hnone]|(a & n & E & Hin & Ha & Hp)].
    { unfold walk_limit. apply chain_length in Hc. lia. }
    + rewrite E. cbn [bind].
      destruct (insert_new_returns h k v t b (table_ok_growable t Hok) Hb)
        as (t' & E'); [lia|].
      exists true, t'. split; [exact E'|].
      split; [|split; [discriminate|]].
      * split; [discriminate|]. intros Heq. exfalso.
        destruct Heq as (a & n & (b' & i & l' & Hb' & Hc' & Hin) & Ha & Hcmp).
        rewrite Hb in Hb'. injection Hb' as <-.
        destruct (bucket_chain t b i Hok Hb) as (l'' & Hc'' & Hpl'').
        pose proof (chain_det _ _ _ _ Hc' Hc'') as <-.
        rewrite Forall_forall in Hpl''.
        destruct (Hpl'' a Hin) as (n' & Ha' & Hh & Hi).
        rewrite Ha in Ha'. injection Ha' as <-.
        apply (ok_compare t Hok) in Hcmp as Hhash.
        assert (Hi' : i = Z.land h (_bucket_mask t)).
        { rewrite <- Hi, Hh, Hhash. apply Z.land_comm. }
        rewrite Hi' in Hc'. pose proof (chain_det _ _ _ _ Hc Hc') as <-.
        specialize (Hnone a n Hin Ha). unfold p in Hnone.
        rewrite Hcmp, Hh, Hhash in Hnone. fold h in Hnone.
        rewrite Z.eqb_refl in Hnone. discriminate Hnone.
      * intros _. apply (Hfresh t b t' Hb eq_refl eq_refl E').
    + rewrite E. cbn [bind].
      exists false, (replace_existing a n k v t).
      split; [reflexivity|].
      assert (Hcmp : call_compare (_compare t) (key n) k = true).
      { unfold p in Hp. apply andb_true_iff in Hp. apply Hp. }
      assert (Hlive : live t a).
      { exists b, (Z.land h (_bucket_mask t)), l. auto. }
      split; [|split; [|discriminate]].
      * split; [intros _|reflexivity]. exists a, n. auto.
      * intros _. exists a, n.
        split; [exact Hlive|]. split; [exact Ha|]. split; [exact Hcmp|].
        split.
        -- unfold replace_existing. rewrite notify_callback_calls.
           reflexivity.
        -- intros head l0. unfold replace_existing. simpl_fields.
           apply chain_same_links with n; auto.
  - destruct (create_buckets_fields t Hb)
      as (E1 & E2 & E3 & E4 & E5 & E6 & E7 & E8 & E9).
    unfold buckets_of. rewrite E1. cbn [bind].
    rewrite lookup_empty, find_node_null. cbn [bind].
    destruct (insert_new_returns (call_hash (_hash (create_buckets t)) k) k v
                (create_buckets t) ∅ (create_buckets_growable t Hb Hok) E1)
      as (t' & E'); [rewrite E2; lia|].
    exists true, t'. split; [exact E'|].
    split; [|split; [discriminate|]].
    + split; [discriminate|].
      intros (a & n & (b' & i & l' & Hb' & _) & _).
      rewrite Hb in Hb'. discriminate Hb'.
    + intros _. rewrite E8 in E'. apply (Hfresh _ _ t' E1 E6 E7 E').
Qed.

Lemma three_in_one_chain_built :
  state_after [op_insert 8 100; op_insert 120 200; op_insert 160 300]
    UntypedTable_default
  = Ok three_in_one_chain.
Proof. vm_compute. reflexivity. Qed.

Lemma three_in_one_chain_buckets :
  _buckets three_in_one_chain = Some {[13 := 2%nat]}.
Proof. vm_compute. reflexivity. Qed.

Lemma three_in_one_chain_ok : table_ok three_in_one_chain.
Proof.
  split.
  - cbn. lia.
  - reflexivity.
  - intros b i a Hb Hi.
    rewrite three_in_one_chain_buckets in Hb. injection Hb as <-.
    apply lookup_singleton_Some in Hi. destruct Hi as [<- <-].
    exists [2; 1; 0]%nat. split.
    + repeat (eapply chain_step; [reflexivity|]; cbn [next]).
      apply chain_end.
    + repeat constructor; eexists; (split; [reflexivity|]);
        split; vm_compute; reflexivity.
  - intros s Hs. discriminate Hs.
  - intros x y Hxy. cbn in Hxy. unfold pointer_compare in Hxy.
    apply Z.eqb_eq in Hxy. subst y. reflexivity.
Qed.

Lemma notifying_chain_built :
  state_after [op_insert 8 100; op_insert 120 200; op_insert 160 300]
    (UntypedTable_with None None (Some 1%nat) (Some 2%nat) None)
  = Ok notifying_chain.
Proof. vm_compute. reflexivity. Qed.

Lemma notifying_chain_buckets :
  _buckets notifying_chain = Some {[13 := 2%nat]}.
Proof. vm_compute. reflexivity. Qed.

Lemma notifying_chain_ok : table_ok notifying_chain.
Proof.
  split.
  - cbn. lia.
  - reflexivity.
  - intros b i a Hb Hi.
    rewrite notifying_chain_buckets in Hb. injection Hb as <-.
    apply lookup_singleton_Some in Hi. destruct Hi as [<- <-].
    exists [2; 1; 0]%nat. split.
    + repeat (eapply chain_step; [reflexivity|]; cbn [next]).
      apply chain_end.
    + repeat constructor; eexists; (split; [reflexivity|]);
        split; vm_compute; reflexivity.
  - intros s Hs. discriminate Hs.
  - intros x y Hxy. cbn in Hxy. unfold pointer_compare in Hxy.
    apply Z.eqb_eq in Hxy. subst y. reflexivity.
Qed.

Lemma insert_replaces_or_pushes_witness :
  exists fresh t',
    insert 120 999 notifying_chain = Ok (fresh, t')
    /\ (fresh = false <-> has_equal_entry notifying_chain 120)
    /\ (fresh = false ->
        exists a n,
          live notifying_chain a /\ nodes notifying_chain !! a = Some n
          /\ call_compare (_compare notifying_chain) (key n) 120 = true
          /\ t' = set_calls
                    (calls notifying_chain
                     ++ callback_calls (_did_remove_key notifying_chain)
                          (_did_remove_value notifying_chain)
                          (key n) (value n))
                    (set_nodes
                       (<[a := mkHashNode (next n) 120 999 (hash_value n)]>
                          (nodes notifying_chain)) notifying_chain)
          /\ forall head l,
               chain (nodes notifying_chain) head l ->
               chain (nodes t') head l)
    /\ (fresh = true ->
        _count t' = uint64 (_count notifying_chain + 1)
        /\ calls t' = calls notifying_chain
        /\ exists b' a nx,
             _buckets t' = Some b'
             /\ b' !! Z.land (_bucket_mask t')
                        (call_hash (_hash notifying_chain) 120) = Some a
             /\ nodes t' !! a
                = Some (mkHashNode nx 120 999
                          (call_hash (_hash notifying_chain) 120))).
Proof.
  assert (Hw : _bucket_mask_width notifying_chain <= 29)
    by (vm_compute; discriminate).
  exact (insert_replaces_or_pushes notifying_chain 120 999
           notifying_chain_ok Hw).
Defined.

(** ** Insertions keep a table well formed

    As long as nothing has been removed (the free list is empty), an
    insertion into a well-formed table returns and leaves a well-formed
    table. *)

Lemma chain_app (ns ns2 : list HashNode) (head : option nat) (l : list nat) :
  chain ns head l -> chain (ns ++ ns2) head l.
Proof.
  induction 1 as [|a n l Ha H IH]; [constructor|].
  apply chain_step with n; [|exact IH].
  apply lookup_app_l_Some. exact Ha.
Qed.

Lemma placed_app (h : hasher) (m : Z) (ns ns2 : list HashNode) (i : Z) (a : nat) :
  placed h m ns i a -> placed h m (ns ++ ns2) i a.
Proof.
  intros (n & Ha & H). exists n. split; [|exact H].
  apply lookup_app_l_Some. exact Ha.
Qed.

Lemma default_table_ok : table_ok UntypedTable_default.
Proof.
  split.
  - cbn. lia.
  - reflexivity.
  - intros b i a Hb. discriminate Hb.
  - intros s Hs. discriminate Hs.
  - intros x y Hxy. cbn in Hxy. unfold pointer_compare in Hxy.
    apply Z.eqb_eq in Hxy. subst y. reflexivity.
Qed.

Lemma create_buckets_ok (t : UntypedTable) :
  _buckets t = None -> table_ok t -> table_ok (create_buckets t).
Proof.
  intros Hb Hok.
  destruct (create_buckets_fields t Hb)
    as (E1 & E2 & E3 & E4 & E5 & E6 & E7 & E8 & E9).
  split.
  - rewrite E2. lia.
  - rewrite E2, E3. reflexivity.
  - intros b i a Hb' Hi. rewrite E1 in Hb'. injection Hb' as <-.
    rewrite lookup_empty in Hi. discriminate Hi.
  - rewrite E4, E5. apply (ok_spare t Hok).
  - rewrite E8, E9. apply (ok_compare t Hok).
Qed.

Lemma make_heap_ok (t : UntypedTable) : table_ok t -> table_ok (make_heap t).
Proof.
  intros Hok. unfold make_heap. destruct (_heap t); [exact Hok|].
  destruct Hok as [H1 H2 H3 H4 H5]. split; assumption.
Qed.

Lemma grow_buckets_ok (t : UntypedTable) (b : gmap Z nat) :
  table_ok t -> _buckets t = Some b -> _bucket_mask_width t <> 30 ->
  exists t' b',
    grow_buckets t = Ok t'
    /\ _buckets t' = Some b'
    /\ table_ok t'
    /\ _spare_node t' = _spare_node t
    /\ _hash t' = _hash t.
Proof.
  intros Hok Hb Hne.
  destruct (grow_buckets_returns t b (table_ok_growable t Hok) Hb Hne)
    as (t' & b' & E & Hb' & Hlen & Hsp & Hh & Hc & Hcase).
  exists t', b'. split; [exact E|]. split; [exact Hb'|].
  split; [|split; assumption].
  destruct Hcase as [->|(Hw & Hm & Hlone)]; [exact Hok|].
  split.
  - rewrite Hw. pose proof (ok_width t Hok). lia.
  - rewrite Hw, Hm. reflexivity.
  - intros b0 j a Hb0 Hj. rewrite Hb' in Hb0. injection Hb0 as <-.
    destruct (Hlone j a Hj) as (n & Ha & Hnx & Hca & Hpl).
    exists [a]. split.
    + apply chain_step with n; [exact Ha|]. rewrite Hnx. constructor.
    + repeat constructor. exists n. rewrite Hh. auto.
  - intros s Hs. rewrite Hlen. rewrite Hsp in Hs. apply (ok_spare t Hok s Hs).
  - rewrite Hh, Hc. apply (ok_compare t Hok).
Qed.

(** Overwriting a node with an equal key keeps the table well formed. *)
Lemma replace_existing_ok (t : UntypedTable) (a : nat) (n : HashNode) (k v : Z) :
  table_ok t -> nodes t !! a = Some n ->
  hash_value n = call_hash (_hash t) k ->
  table_ok (replace_existing a n k v t).
Proof.
  intros Hok Ha Hh. unfold replace_existing.
  destruct Hok as [H1 H2 H3 H4 H5]. split; simpl_fields; auto.
  - intros b i c Hb Hi.
    destruct (H3 b i c Hb Hi) as (l & Hc & Hpl).
    exists l. split; [apply chain_same_links with n; auto|].
    eapply Forall_impl; [exact Hpl|].
    intros c' (n' & Hc' & Hca & Hi').
    destruct (decide (a = c')) as [<-|Hne].
    + rewrite Ha in Hc'. injection Hc' as <-.
      eexists. rewrite list_lookup_insert_eq by (eapply lookup_lt_Some; eauto).
      split; [reflexivity|]. cbn [hash_value key]. auto.
    + exists n'. rewrite list_lookup_insert_ne by exact Hne. auto.
  - intros s Hs. rewrite length_insert. auto.
Qed.

Lemma insert_new_ok (k v : Z) (t : UntypedTable) (b : gmap Z nat) :
  table_ok t -> _buckets t = Some b -> _spare_node t = None ->
  _bucket_mask_width t <> 30 ->
  exists t',
    insert_new (call_hash (_hash t) k) k v t = Ok (true, t')
    /\ table_ok t' /\ _spare_node t' = None.
Proof.
  intros Hok Hb Hsp Hw30.
  set (h := call_hash (_hash t) k).
  assert (Hgrown : exists t2 b2,
    (if uint64 (shl_int 4 (_bucket_mask_width t)) <? uint64 (_count t + 1)
     then grow_buckets t else Ok t) = Ok t2
    /\ _buckets t2 = Some b2 /\ table_ok t2
    /\ _spare_node t2 = None /\ _hash t2 = _hash t).
  { destruct (uint64 (shl_int 4 (_bucket_mask_width t)) <? uint64 (_count t + 1)).
    - destruct (grow_buckets_ok t b Hok Hb Hw30)
        as (t2 & b2 & E & Hb2 & Hok2 & Hs2 & Hh2).
      exists t2, b2. rewrite Hs2. auto.
    - exists t, b. auto. }
  destruct Hgrown as (t2 & b2 & E & Hb2 & Hok2 & Hsp2 & Hh2).
  unfold insert_new. rewrite E. cbn [bind].
  pose proof (make_heap_ok t2 Hok2) as Hok3.
  destruct (make_heap_fields t2) as (E1 & E2 & E3 & E4 & E5 & _ & _ & E8 & E9).
  rewrite <- E3 in Hb2. rewrite <- E5 in Hsp2. rewrite <- E8 in Hh2.
  clear E1 E2 E3 E4 E5 E8 E9 E Hok2.
  set (t3 := make_heap t2) in *. clearbody t3.
  rewrite Hsp2. cbn [bind]. unfold buckets_of, store. simpl_fields.
  rewrite Hb2. simpl_fields.
  rewrite lookup_app_r, Nat.sub_diag by lia. cbn [list_lookup stdpp.base.lookup bind].
  rewrite insert_app_r_alt, Nat.sub_diag by lia. cbn [list_insert stdpp.base.insert].
  eexists. split; [reflexivity|]. split; [|exact Hsp2].
  set (idx := Z.land (_bucket_mask t3) h).
  set (N := mkHashNode (b2 !! idx) k v h).
  destruct Hok3 as [H1 H2 H3 H4 H5]. split; simpl_fields; auto.
  - intros b0 i a Hb0 Hi. injection Hb0 as <-.
    destruct (decide (idx = i)) as [<-|Hne].
    + rewrite lookup_insert_eq in Hi. injection Hi as <-.
      assert (Hl0 : exists l0, chain (nodes t3) (b2 !! idx) l0
                /\ Forall (placed (_hash t3) (_bucket_mask t3) (nodes t3) idx) l0).
      { destruct (b2 !! idx) as [a0|] eqn:Hidx.
        - eapply H3; eauto.
        - exists []. split; constructor. }
      destruct Hl0 as (l0 & Hc0 & Hpl0).
      exists (length (nodes t3) :: l0). split.
      * apply chain_step with N.
        -- rewrite lookup_app_r, Nat.sub_diag by lia. reflexivity.
        -- apply chain_app. exact Hc0.
      * constructor.
        -- exists N. rewrite lookup_app_r, Nat.sub_diag by lia.
           split; [reflexivity|]. cbn [hash_value key N].
           split; [unfold h; congruence|reflexivity].
        -- eapply Forall_impl; [exact Hpl0|]. intros c. apply placed_app.
    + rewrite lookup_insert_ne in Hi by exact Hne.
      destruct (H3 b2 i a Hb2 Hi) as (l & Hc & Hpl).
      exists l. split; [apply chain_app; exact Hc|].
      eapply Forall_impl; [exact Hpl|]. intros c. apply placed_app.
  - intros s Hs. congruence.
Qed.

Lemma insert_keeps_ok (k v : Z) (t : UntypedTable) :
  table_ok t -> _spare_node t = None -> _bucket_mask_width t <> 30 ->
  exists r t',
    insert k v t = Ok (r, t') /\ table_ok t' /\ _spare_node t' = None.
Proof.
  intros Hok Hsp Hne. unfold insert.
  destruct (_buckets t) as [b|] eqn:Hb.
  - unfold buckets_of. rewrite Hb. cbn [bind].
    set (h := call_hash (_hash t) k).
    set (p := fun n => (hash_value n =? h) && call_compare (_compare t) (key n) k).
    destruct (bucket_chain t b (Z.land h (_bucket_mask t)) Hok Hb)
      as (l & Hc & Hpl).
    destruct (find_node_chain (nodes t) p _ l (walk_limit (nodes t)) Hc)
      as [[E Hnone]|(a & n & E & Hin & Ha & Hp)].
    { unfold walk_limit. apply chain_length in Hc. lia. }
    + rewrite E. cbn [bind].
      destruct (insert_new_ok k v t b Hok Hb Hsp Hne)
        as (t' & E' & Hok' & Hsp').
      exists true, t'. auto.
    + rewrite E. cbn [bind].
      exists false, (replace_existing a n k v t).
      split; [reflexivity|]. split; [|exact Hsp].
      apply replace_existing_ok; auto.
      unfold p in Hp. apply andb_true_iff in Hp. destruct Hp as [Hp _].
      apply Z.eqb_eq in Hp. exact Hp.
  - destruct (create_buckets_fields t Hb)
      as (E1 & E2 & E3 & E4 & E5 & E6 & E7 & E8 & E9).
    unfold buckets_of. rewrite E1. cbn [bind].
    rewrite lookup_empty, find_node_null. cbn [bind].
    destruct (insert_new_ok k v (create_buckets t) ∅
                (create_buckets_ok t Hb Hok) E1)
      as (t' & E' & Hok' & Hsp'); [congruence|rewrite E2; lia|].
    exists true, t'. auto.
Qed.

(** The growth threshold [4 << 29], computed at type [int] and compared
    as [uint64_t], is [2^64 - 2^31]: while the count stays below it, an
    insertion keeps a width of at most 29 within that bound, and adds at
    most one to the count. *)
Lemma insert_width_count (k v : Z) (t t' : UntypedTable) (r : bool) :
  insert k v t = Ok (r, t') ->
  0 <= _bucket_mask_width t <= 29 ->
  0 <= _count t -> _count t + 1 < 2 ^ 64 - 2 ^ 31 ->
  0 <= _bucket_mask_width t' <= 29
  /\ _count t <= _count t' <= _count t + 1.
Proof.
  unfold insert. intros H Hw Hc0 Hc1.
  set (t1 := match _buckets t with
             | Some _ => t
             | None => create_buckets t
             end) in *.
  assert (H1 : 0 <= _bucket_mask_width t1 <= 29 /\ _count t1 = _count t).
  { subst t1. destruct (_buckets t) eqn:Hb; [auto|].
    destruct (create_buckets_fields t Hb) as (_ & E & _ & _ & _ & E' & _).
    rewrite E, E'. split; [lia|reflexivity]. }
  destruct H1 as [Hw1 Hcnt1]. clearbody t1.
  inv_bind H. inv_bind H.
  destruct x0 as [[a n]|].
  - injection H as <- <-. unfold replace_existing. simpl_fields. lia.
  - apply insert_new_inv in H.
    destruct H as (_ & t2 & b & a & Hg & _ & Ew & _ & _ & _ & Ec & _).
    assert (H2 : 0 <= _bucket_mask_width t2 <= 29 /\ _count t2 = _count t1).
    { destruct (uint64 (shl_int 4 (_bucket_mask_width t1))
                <? uint64 (_count t1 + 1)) eqn:Hthr; [|subst t2; auto].
      apply grow_buckets_inv in Hg.
      destruct Hg as [[? _]|(_ & E1 & _ & _ & E2 & _)]; [lia|].
      rewrite E1, E2, uint32_small by lia. split; [|reflexivity].
      destruct (Z.eq_dec (_bucket_mask_width t1) 29) as [E29|]; [|lia].
      exfalso. rewrite E29 in Hthr. apply Z.ltb_lt in Hthr.
      change (uint64 (shl_int 4 29)) with (2 ^ 64 - 2 ^ 31) in Hthr.
      unfold uint64 in Hthr. rewrite Z.mod_small in Hthr by lia. lia. }
    destruct H2 as [Hw2 Hcnt2].
    rewrite Ew, Ec, Hcnt2, Hcnt1. unfold uint64.
    rewrite Z.mod_small by lia. lia.
Qed.

(** X14. Every sequence of insertions into a well-formed table with an
    empty free list, a default table for one, runs to its end, without a
    fault, an endless loop or an exception, and leaves a well-formed table
    with an empty free list, as long as the width starts at 29 at most and
    the count stays below [2^64 - 2^31], which is what keeps the width at
    29 at most. *)
Lemma insertions_keep_ok (kvs : list (Z * Z)) (t : UntypedTable) :
  table_ok t -> _spare_node t = None ->
  _bucket_mask_width t <= 29 ->
  0 <= _count t -> _count t + Z.of_nat (length kvs) < 2 ^ 64 - 2 ^ 31 ->
  exists rs t',
    run (map (fun kv => op_insert (fst kv) (snd kv)) kvs) t = Ok (rs, t')
    /\ table_ok t' /\ _spare_node t' = None
    /\ _bucket_mask_width t' <= 29.
Proof.
  revert t. induction kvs as [|[k v] kvs IH]; intros t Hok Hsp Hw Hc0 Hc1.
  - exists [], t. auto.
  - cbn [length] in Hc1.
    destruct (insert_keeps_ok k v t Hok Hsp) as (r & t1 & E & Hok1 & Hsp1);
      [lia|].
    destruct (insert_width_count k v t t1 r E) as [Hw1 Hcnt1];
      [pose proof (ok_width t Hok); lia | lia | lia |].
    destruct (IH t1 Hok1 Hsp1) as (rs & t' & E' & Hok' & Hsp' & Hw');
      [lia | lia | lia |].
    exists (insert_returned r :: rs), t'.
    cbn [map run perform fst snd]. rewrite E. cbn [bind fst snd].
    rewrite E'. cbn [bind fst snd]. auto.
Qed.

Lemma insertions_keep_ok_witness :
  exists rs t',
    run (map (fun kv => op_insert (fst kv) (snd kv))
           [(8, 100); (120, 200); (160, 300)]) UntypedTable_default
    = Ok (rs, t')
    /\ table_ok t' /\ _spare_node t' = None
    /\ _bucket_mask_width t' <= 29.
Proof.
  assert (Hw : _bucket_mask_width UntypedTable_default <= 29)
    by (vm_compute; discriminate).
  assert (Hc0 : 0 <= _count UntypedTable_default) by reflexivity.
  assert (Hc1 : _count UntypedTable_default
                + Z.of_nat (length [(8, 100); (120, 200); (160, 300)])
                < 2 ^ 64 - 2 ^ 31) by reflexivity.
  exact (insertions_keep_ok [(8, 100); (120, 200); (160, 300)]
           UntypedTable_default default_table_ok eq_refl Hw Hc0 Hc1).
Defined.

(** * Further properties of the table *)

(** ** What each operation leaves alone *)

Lemma relink_length (fuel : nat) (mask : Z) (node : option nat)
    (st st' : list HashNode * gmap Z nat) :
  relink fuel mask node st = Ok st' -> length (fst st') = length (fst st).
Proof.
  revert node st. induction fuel as [|fuel IH]; intros node [ns nb] H.
  - destruct node; [discriminate|]. injection H as <-. reflexivity.
  - destruct node as [a|]; [|injection H as <-; reflexivity].
    cbn [relink] in H. inv_bind H.
    apply IH in H. cbn [fst] in *. rewrite H. apply length_insert.
Qed.

Lemma redistribute_length (fuel : nat) (mask : Z) (old : gmap Z nat)
    (idxs : list Z) (st st' : list HashNode * gmap Z nat) :
  redistribute fuel mask old idxs st = Ok st' ->
  length (fst st') = length (fst st).
Proof.
  revert st. induction idxs as [|i idxs IH]; intros st H.
  - injection H as <-. reflexivity.
  - cbn [redistribute] in H. inv_bind H.
    apply IH in H. apply relink_length in Hx. congruence.
Qed.

Lemma make_heap_config (t : UntypedTable) :
  config (make_heap t) = config t
  /\ (forall h, _heap t = Some h -> _heap (make_heap t) = Some h)
  /\ is_set (_heap (make_heap t)) = true.
Proof.
  unfold make_heap. destruct (_heap t) eqn:E.
  - rewrite E. repeat split. intros h0 Hh. exact Hh.
  - repeat split. intros h Hh. discriminate Hh.
Qed.

Lemma grow_buckets_frame (t t' : UntypedTable) :
  grow_buckets t = Ok t' ->
  config t' = config t
  /\ (forall h, _heap t = Some h -> _heap t' = Some h)
  /\ length (nodes t') = length (nodes t)
  /\ _spare_node t' = _spare_node t
  /\ _count t' = _count t
  /\ calls t' = calls t
  /\ (is_Some (_buckets t) -> is_Some (_buckets t')).
Proof.
  unfold grow_buckets. intros H.
  destruct (30 <? _bucket_mask_width t).
  - injection H as <-. repeat split; auto.
  - inv_bind H. destruct x as [t1 nb]. inv_bind H. inv_bind H.
    injection H as <-.
    match goal with
    | Hr : redistribute _ _ _ _ _ = Ok _ |- _ =>
        apply redistribute_length in Hr; cbn [fst] in Hr
    end.
    destruct (initial_bucket_mask_width <=? _bucket_mask_width t).
    + inv_bind Hx. unfold new_Bucket_array in *.
      destruct (_ <? 0); [discriminate|].
      injection Hx as <- <-.
      simpl_fields. repeat split; eauto.
    + injection Hx as <- <-.
      destruct (make_heap_config (set_bucket_mask_width
                  (uint32 (_bucket_mask_width t + 1)) t)) as (E1 & E2 & _).
      destruct (make_heap_fields (set_bucket_mask_width
                  (uint32 (_bucket_mask_width t + 1)) t))
        as (_ & _ & _ & E4 & E5 & E6 & E7 & _).
      unfold config in *. simpl_fields.
      repeat split; eauto; congruence.
Qed.

Lemma create_buckets_frame (t : UntypedTable) :
  config (create_buckets t) = config t
  /\ (forall h, _heap t = Some h -> _heap (create_buckets t) = Some h)
  /\ nodes (create_buckets t) = nodes t
  /\ _spare_node (create_buckets t) = _spare_node t
  /\ _count (create_buckets t) = _count t
  /\ calls (create_buckets t) = calls t.
Proof.
  unfold create_buckets, make_heap.
  destruct (_buckets t); [repeat split; auto|].
  simpl_fields. destruct (_heap t) eqn:E; repeat split; auto.
  - intros h0 Hh. cbn. congruence.
  - intros h0 Hh. discriminate Hh.
Qed.

(** A fresh insertion: the count goes up by one, no callback is called,
    and the node comes from the free list when there is one, from the
    arena otherwise. *)
Lemma insert_new_frame (h k v : Z) (t t' : UntypedTable) (r : bool) :
  insert_new h k v t = Ok (r, t') ->
  r = true
  /\ config t' = config t
  /\ (forall hp, _heap t = Some hp -> _heap t' = Some hp)
  /\ is_set (_heap t') = true
  /\ _count t' = uint64 (_count t + 1)
  /\ calls t' = calls t
  /\ match _spare_node t with
     | Some s => length (nodes t') = length (nodes t)
     | None =>
         length (nodes t') = S (length (nodes t)) /\ _spare_node t' = None
     end.
Proof.
  unfold insert_new. intros H.
  inv_bind H. rename x into t2.
  assert (F : config t2 = config t
              /\ (forall hp, _heap t = Some hp -> _heap t2 = Some hp)
              /\ length (nodes t2) = length (nodes t)
              /\ _spare_node t2 = _spare_node t
              /\ _count t2 = _count t
              /\ calls t2 = calls t).
  { destruct (uint64 (shl_int 4 (_bucket_mask_width t)) <? uint64 (_count t + 1)).
    - apply grow_buckets_frame in Hx.
      destruct Hx as (F1 & F2 & F3 & F4 & F5 & F6 & _).
      repeat split; assumption.
    - injection Hx as <-. repeat split; auto. }
  destruct F as (F1 & F2 & F3 & F4 & F5 & F6).
  destruct (make_heap_config t2) as (G1 & G2 & G3).
  destruct (make_heap_fields t2) as (_ & _ & _ & E4 & E5 & E6 & E7 & _).
  set (t3 := make_heap t2) in *. clearbody t3.
  inv_bind H. destruct x as [a t4].
  inv_bind H. inv_bind H. injection H as <- <-.
  split; [reflexivity|].
  unfold store in Hx2. destruct (nodes t4 !! a) eqn:Ha; [|discriminate].
  injection Hx2 as <-.
  rewrite <- F4, <- E5.
  destruct (_spare_node t3) as [s|] eqn:Hs.
  - inv_bind Hx0. injection Hx0 as <- <-.
    unfold load in Hx2. destruct (nodes t3 !! s) as [n|] eqn:Hn; [|discriminate].
    injection Hx2 as <-.
    unfold config in *. simpl_fields. rewrite length_insert.
    rewrite ?E4, ?E6, ?E7, ?F3, ?F5, ?F6.
    repeat split; try congruence; eauto.
  - injection Hx0 as <- <-.
    unfold config in *. simpl_fields. rewrite length_insert, length_app.
    cbn [length]. rewrite ?E4, ?E6, ?E7, ?F3, ?F5, ?F6.
    repeat split; try congruence; eauto; lia.
Qed.

Lemma insert_frame (k v : Z) (t t' : UntypedTable) (r : bool) :
  insert k v t = Ok (r, t') ->
  config t' = config t
  /\ (forall hp, _heap t = Some hp -> _heap t' = Some hp)
  /\ (r = true -> is_set (_heap t') = true)
  /\ _count t' = (if r then uint64 (_count t + 1) else _count t)
  /\ (r = true -> calls t' = calls t)
  /\ length (nodes t')
     = (if r && negb (is_set (_spare_node t))
        then S (length (nodes t)) else length (nodes t))
  /\ (r = false -> _spare_node t' = _spare_node t).
Proof.
  unfold insert. intros H.
  destruct (create_buckets_frame t) as (C1 & C2 & C3 & C4 & C5 & C6).
  assert (C : config (match _buckets t with
                      | Some _ => t
                      | None => create_buckets t
                      end) = config t
              /\ (forall hp, _heap t = Some hp ->
                    _heap (match _buckets t with
                           | Some _ => t
                           | None => create_buckets t
                           end) = Some hp)
              /\ nodes (match _buckets t with
                        | Some _ => t
                        | None => create_buckets t
                        end) = nodes t
              /\ _spare_node (match _buckets t with
                              | Some _ => t
                              | None => create_buckets t
                              end) = _spare_node t
              /\ _count (match _buckets t with
                         | Some _ => t
                         | None => create_buckets t
                         end) = _count t
              /\ calls (match _buckets t with
                        | Some _ => t
                        | None => create_buckets t
                        end) = calls t).
  { destruct (_buckets t); repeat split; auto. }
  clear C1 C2 C3 C4 C5 C6. destruct C as (C1 & C2 & C3 & C4 & C5 & C6).
  set (t1 := match _buckets t with
             | Some _ => t
             | None => create_buckets t
             end) in *.
  clearbody t1.
  inv_bind H. inv_bind H. destruct x0 as [[a n]|].
  - injection H as <- <-. unfold replace_existing, config in *. simpl_fields.
    rewrite length_insert. cbn [andb].
    repeat split; try congruence; auto; discriminate.
  - apply insert_new_frame in H.
    destruct H as (-> & F1 & F2 & F3 & F4 & F5 & F6).
    rewrite C4, C3 in F6. cbn [andb].
    repeat split; try congruence; auto.
    destruct (_spare_node t); cbn [is_set negb]; [exact F6|apply F6].
Qed.

Lemma find_candidate_found (fuel : nat) (ns : list HashNode)
    (p : HashNode -> bool) (node : nat) (candidate : option nat)
    (nd c : nat) :
  find_candidate fuel ns p node candidate = Ok (Some (nd, c)) ->
  exists n, ns !! c = Some n /\ p n = true.
Proof.
  revert node candidate. induction fuel as [|fuel IH]; intros node cand H.
  - destruct cand; discriminate.
  - destruct cand as [a|]; [|discriminate].
    cbn [find_candidate] in H.
    destruct (ns !! a) as [n|] eqn:Ha; [|discriminate].
    destruct (p n) eqn:Hp.
    + injection H as <- <-. eauto.
    + eapply IH; eauto.
Qed.

(** A successful removal: the node goes to the head of the free list, the
    count goes down by one, and the callbacks that are set get the key and
    then the value of the node. *)
Lemma unlink_frame (nd c : nat) (n : HashNode) (t t' : UntypedTable) :
  nodes t !! c = Some n ->
  unlink nd c t = Ok t' ->
  config t' = config t
  /\ _heap t' = _heap t
  /\ length (nodes t') = length (nodes t)
  /\ _spare_node t' = Some c
  /\ _count t' = uint64 (_count t - 1)
  /\ calls t'
     = notify (_did_remove_value t)
         (fun f => did_remove_value_call f (value n))
         (notify (_did_remove_key t)
            (fun f => did_remove_key_call f (key n)) (calls t)).
Proof.
  intros Hc H. unfold unlink in H.
  inv_bind H. inv_bind H. inv_bind H. injection H as <-.
  unfold load in *. rewrite Hc in Hx. injection Hx as <-.
  destruct (nodes t !! nd) as [m|] eqn:Hnd; [|discriminate].
  injection Hx0 as <-.
  assert (Hkv : key x1 = key n /\ value x1 = value n).
  { destruct (decide (nd = c)) as [->|Hne].
    - rewrite list_lookup_insert_eq in Hx1 by (eapply lookup_lt_Some; eauto).
      injection Hx1 as <-. rewrite Hc in Hnd. injection Hnd as <-. auto.
    - rewrite list_lookup_insert_ne, Hc in Hx1 by exact Hne.
      injection Hx1 as <-. auto. }
  destruct Hkv as [Hk Hv].
  unfold config. simpl_fields. rewrite !length_insert, Hk, Hv.
  repeat split.
Qed.

Lemma remove_frame (k : Z) (t t' : UntypedTable) (r : option bool) :
  remove k t = Ok (r, t') ->
  (r = Some true
   /\ exists c n,
        nodes t !! c = Some n /\ matches t k n = true
        /\ config t' = config t
        /\ _heap t' = _heap t
        /\ length (nodes t') = length (nodes t)
        /\ _spare_node t' = Some c
        /\ _count t' = uint64 (_count t - 1)
        /\ calls t'
           = notify (_did_remove_value t)
               (fun f => did_remove_value_call f (value n))
               (notify (_did_remove_key t)
                  (fun f => did_remove_key_call f (key n)) (calls t)))
  \/ (r <> Some true /\ t' = t).
Proof.
  unfold remove, remove_ptr, matches. intros H.
  destruct (_count t =? 0);
    [injection H as <- <-; right; split; [discriminate|reflexivity]|].
  destruct (_compare_by_pointer t).
  - inv_bind H.
    destruct (x !! _);
      [|injection H as <- <-; right; split; [discriminate|reflexivity]].
    inv_bind H. destruct x0 as [[nd c]|];
      [|injection H as <- <-; right; split; [discriminate|reflexivity]].
    inv_bind H. injection H as <- <-. left. split; [reflexivity|].
    destruct (find_candidate_found _ _ _ _ _ _ _ Hx0) as (n0 & Hn0 & Hp).
    exists c, n0. split; [exact Hn0|]. split; [exact Hp|].
    eapply unlink_frame; eauto.
  - inv_bind H.
    destruct (x !! _);
      [|injection H as <- <-; right; split; [discriminate|reflexivity]].
    inv_bind H. destruct x0 as [[nd c]|];
      [|injection H as <- <-; right; split; [discriminate|reflexivity]].
    inv_bind H. injection H as <- <-. left. split; [reflexivity|].
    destruct (find_candidate_found _ _ _ _ _ _ _ Hx0) as (n0 & Hn0 & Hp).
    exists c, n0. split; [exact Hn0|]. split; [exact Hp|].
    eapply unlink_frame; eauto.
Qed.

Lemma for_each_frame (body : nat) (context : Z) (t t' : UntypedTable) :
  for_each body context t = Ok t' -> exists cs, t' = set_calls cs t.
Proof.
  unfold for_each. intros H.
  destruct (negb (_count t =? 0)).
  - inv_bind H. inv_bind H. injection H as <-. eauto.
  - injection H as <-. exists (calls t). destruct t; reflexivity.
Qed.

(** ** Counts, nodes and callbacks *)

Lemma perform_frame (o : operation) (t t' : UntypedTable) (r : outcome) :
  perform o t = Ok (r, t') ->
  config t' = config t
  /\ (forall hp, _heap t = Some hp -> _heap t' = Some hp)
  /\ (length (nodes t) <= length (nodes t'))%nat.
Proof.
  destruct o; cbn [perform]; intros H; inv_bind H; injection H as <- <-.
  - repeat split; auto.
  - destruct x as [fresh t1]. apply insert_frame in Hx.
    destruct Hx as (F1 & F2 & _ & _ & _ & F6 & _). cbn [snd].
    repeat split; auto. rewrite F6. destruct (_ && _); lia.
  - destruct x as [removed t1]. apply remove_frame in Hx. cbn [snd].
    destruct Hx as [(_ & c & n & _ & _ & F1 & F2 & F3 & _)|[_ ->]].
    + repeat split; auto; [congruence|lia].
    + repeat split; auto.
  - apply for_each_frame in Hx. destruct Hx as [cs ->].
    repeat split; auto.
Qed.

Lemma run_frame (ops : list operation) (t t' : UntypedTable)
    (rs : list outcome) :
  run ops t = Ok (rs, t') ->
  config t' = config t
  /\ (forall hp, _heap t = Some hp -> _heap t' = Some hp)
  /\ (length (nodes t) <= length (nodes t'))%nat.
Proof.
  revert t t' rs. induction ops as [|o ops IH]; intros t t' rs H.
  - injection H as <- <-. repeat split; auto.
  - cbn [run] in H. inv_bind H. inv_bind H. injection H as <- <-.
    destruct x as [r t1]. destruct x0 as [rs1 t2]. cbn [snd] in *.
    apply perform_frame in Hx. apply IH in Hx0.
    destruct Hx as (A1 & A2 & A3). destruct Hx0 as (B1 & B2 & B3).
    repeat split; [congruence|auto|lia].
Qed.

(** X1. The hash function, the comparison function and its fast path, the
    two callbacks and the ownership flag of a table are those its
    constructor set, whatever operations have run since; an arena the
    table has is never replaced, and the arena memory holding the nodes
    never shrinks. *)
Theorem configuration_is_fixed (ops : list operation) (t t' : UntypedTable)
    (rs : list outcome) :
  run ops t = Ok (rs, t') ->
  _hash t' = _hash t
  /\ _compare t' = _compare t
  /\ _compare_by_pointer t' = _compare_by_pointer t
  /\ _did_remove_key t' = _did_remove_key t
  /\ _did_remove_value t' = _did_remove_value t
  /\ _is_heap_owner t' = _is_heap_owner t
  /\ (forall hp, _heap t = Some hp -> _heap t' = Some hp)
  /\ (length (nodes t) <= length (nodes t'))%nat.
Proof.
  intros H. apply run_frame in H. destruct H as (C & Hh & Hl).
  unfold config in C. injection C as -> -> -> -> -> ->.
  repeat split; auto.
Qed.

Lemma configuration_is_fixed_witness :
  exists t',
    run [op_insert 8 100; op_remove 8; op_lookup 8 true]
      (UntypedTable_with None None (Some 1%nat) None (Some (caller_Heap 7)))
    = Ok ([insert_returned true; remove_returned (Some true);
           lookup_returned 0 (Some 0)], t')
    /\ _did_remove_key t' = Some 1%nat
    /\ _is_heap_owner t' = false
    /\ _heap t' = Some (caller_Heap 7).
Proof.
  eexists. split; [vm_compute; reflexivity|].
  match goal with
  | |- context [_did_remove_key ?t'] =>
      pose proof (configuration_is_fixed
                    [op_insert 8 100; op_remove 8; op_lookup 8 true]
                    (UntypedTable_with None None (Some 1%nat) None
                       (Some (caller_Heap 7)))
                    t' _ ltac:(vm_compute; reflexivity))
        as (_ & _ & _ & H1 & _ & H2 & H3 & _)
  end.
  split; [exact H1|]. split; [exact H2|]. apply H3. reflexivity.
Defined.

(** X2. [insert] keeps the books: the entry count goes up by one on a
    fresh insertion and is unchanged by a replacement; a fresh insertion
    calls no callback, has an arena afterwards, and takes its node from the
    free list when that is not empty, allocating exactly one node
    otherwise; a replacement allocates nothing and leaves the free list
    alone. *)
Theorem insert_bookkeeping (k v : Z) (t t' : UntypedTable) (fresh : bool) :
  insert k v t = Ok (fresh, t') ->
  _count t' = (if fresh then uint64 (_count t + 1) else _count t)
  /\ (fresh = true -> calls t' = calls t /\ is_set (_heap t') = true)
  /\ length (nodes t')
     = (if fresh && negb (is_set (_spare_node t))
        then S (length (nodes t)) else length (nodes t))
  /\ (fresh = false -> _spare_node t' = _spare_node t).
Proof.
  intros H. apply insert_frame in H.
  destruct H as (_ & _ & F3 & F4 & F5 & F6 & F7).
  repeat split; auto.
Qed.

Lemma insert_bookkeeping_witness :
  exists t',
    insert 24 7 three_in_one_chain = Ok (true, t')
    /\ _count t' = 4
    /\ length (nodes t') = 4%nat.
Proof.
  eexists. split; [vm_compute; reflexivity|].
  match goal with
  | |- _count ?t' = _ /\ _ =>
      pose proof (insert_bookkeeping 24 7 three_in_one_chain t' true
                    ltac:(vm_compute; reflexivity)) as (H1 & _ & H3 & _)
  end.
  split; [exact H1|exact H3].
Defined.

(** X3. [remove] keeps the books: when it returns [true] it has matched a
    node against the key (by identity on the fast path, by cached hash and
    comparison function otherwise), put that node at the head of the free
    list, lowered the count by one and added to the calls made so far a
    call of the key callback with the key of that node and then a call of
    the value callback with its value, each if the callback is set and
    nothing else; the arena keeps its size.  Whenever it does not return
    [true] the table is exactly as it was. *)
Theorem remove_bookkeeping (k : Z) (t t' : UntypedTable) (r : option bool) :
  remove k t = Ok (r, t') ->
  (r = Some true
   /\ exists c n,
        nodes t !! c = Some n /\ matches t k n = true
        /\ _spare_node t' = Some c
        /\ _count t' = uint64 (_count t - 1)
        /\ length (nodes t') = length (nodes t)
        /\ calls t'
           = calls t
             ++ match _did_remove_key t with
                | Some f => [did_remove_key_call f (key n)]
                | None => []
                end
             ++ match _did_remove_value t with
                | Some g => [did_remove_value_call g (value n)]
                | None => []
                end)
  \/ (r <> Some true /\ t' = t).
Proof.
  intros H. apply remove_frame in H.
  destruct H as [(Hr & c & n & H1 & H2 & _ & _ & H5 & H6 & H7 & H8)|H];
    [left|right; exact H].
  split; [exact Hr|]. exists c, n.
  rewrite notify_callback_calls in H8. unfold callback_calls in H8.
  repeat split; assumption.
Qed.

Lemma remove_bookkeeping_witness :
  exists t',
    remove 120 notifying_chain = Ok (Some true, t')
    /\ _count t' = 2
    /\ _spare_node t' = Some 1%nat
    /\ calls t' = [did_remove_key_call 1 120; did_remove_value_call 2 200].
Proof.
  eexists. split; [vm_compute; reflexivity|].
  match goal with
  | |- _count ?t' = _ /\ _ =>
      pose proof (remove_bookkeeping 120 notifying_chain t' (Some true)
                    ltac:(vm_compute; reflexivity)) as H
  end.
  destruct H as [(_ & c & n & Hc & Hm & Hs & Hn & _ & Hcalls)|[Hne _]];
    [|exfalso; apply Hne; reflexivity].
  split; [exact Hn|].
  destruct c as [|[|[|c]]]; [| | |discriminate Hc];
    injection Hc as <-; try discriminate Hm.
  split; [exact Hs|]. rewrite Hcalls. reflexivity.
Defined.

(** ** Lookup on a well-formed table *)

Lemma find_node_first_match (ns : list HashNode) (q : HashNode -> bool)
    (head : option nat) (l : list nat) (fuel : nat) :
  chain ns head l -> (length l <= fuel)%nat ->
  find_node fuel ns q head = Ok (first_match ns q l).
Proof.
  intros H. revert fuel.
  induction H as [|a n l Ha H IH]; intros fuel Hf.
  - destruct fuel; reflexivity.
  - destruct fuel as [|fuel]; [cbn in Hf; lia|].
    cbn [find_node first_match]. rewrite Ha.
    destruct (q n); [reflexivity|]. apply IH. cbn in Hf. lia.
Qed.

Lemma first_match_Some (ns : list HashNode) (q : HashNode -> bool)
    (l : list nat) (a : nat) (n : HashNode) :
  first_match ns q l = Some (a, n) ->
  a ∈ l /\ ns !! a = Some n /\ q n = true.
Proof.
  induction l as [|c l IH]; cbn [first_match]; [discriminate|].
  destruct (ns !! c) as [m|] eqn:Hc; [|discriminate].
  destruct (q m) eqn:Hq.
  - intros H. injection H as <- <-. repeat split; auto. apply elem_of_cons; auto.
  - intros H. destruct (IH H) as (H1 & H2 & H3).
    repeat split; auto. apply elem_of_cons; auto.
Qed.

Lemma first_match_None (ns : list HashNode) (q : HashNode -> bool)
    (l : list nat) :
  Forall (fun a => is_Some (ns !! a)) l ->
  first_match ns q l = None ->
  forall a n, a ∈ l -> ns !! a = Some n -> q n = false.
Proof.
  induction 1 as [|c l [m Hc] Hl IH]; cbn [first_match]; intros H a n Hin Ha.
  - inversion Hin.
  - rewrite Hc in H. destruct (q m) eqn:Hq; [discriminate|].
    apply elem_of_cons in Hin. destruct Hin as [->|Hin]; [congruence|eauto].
Qed.

Lemma chain_all_valid (ns : list HashNode) (head : option nat) (l : list nat) :
  chain ns head l -> Forall (fun a => is_Some (ns !! a)) l.
Proof.
  intros H. apply Forall_forall. intros a Ha.
  eapply chain_valid; eauto.
Qed.

(** [lookup] on a bucket whose chain ends: the first node of the chain that
    matches the key decides the result. *)
Lemma lookup_on_chain (t : UntypedTable) (k : Z) (out : bool)
    (b : gmap Z nat) (l : list nat) :
  _buckets t = Some b ->
  chain (nodes t) (b !! Z.land (_bucket_mask t) (call_hash (_hash t) k)) l ->
  lookup k out t
  = Ok (if _count t =? 0 then (0, if out then Some 0 else None)
        else match first_match (nodes t) (matches t k) l with
             | Some (_, n) => (value n, if out then Some (key n) else None)
             | None => (0, if out then Some 0 else None)
             end).
Proof.
  intros Hb Hc. unfold lookup, matches.
  destruct (_count t =? 0); cbn [negb]; [reflexivity|].
  unfold buckets_of. rewrite Hb. cbn [bind].
  assert (Hlen : (length l <= walk_limit (nodes t))%nat).
  { unfold walk_limit. apply chain_length in Hc. lia. }
  destruct (_compare_by_pointer t).
  - rewrite (find_node_first_match _ _ _ l) by assumption. cbn [bind].
    destruct (first_match _ _ l) as [[a n]|]; reflexivity.
  - assert (E : match b !! Z.land (_bucket_mask t) (call_hash (_hash t) k) with
                | Some _ =>
                    find_node (walk_limit (nodes t)) (nodes t)
                      (fun n => (hash_value n =? call_hash (_hash t) k)
                                && call_compare (_compare t) (key n) k)
                      (b !! Z.land (_bucket_mask t) (call_hash (_hash t) k))
                | None => Ok None
                end
                = Ok (first_match (nodes t)
                        (fun n => (hash_value n =? call_hash (_hash t) k)
                                  && call_compare (_compare t) (key n) k) l)).
    { rewrite <- (find_node_first_match _ _ _ l (walk_limit (nodes t)) Hc Hlen).
      destruct (b !! _); [reflexivity|]. rewrite find_node_null. reflexivity. }
    rewrite E. cbn [bind].
    destruct (first_match _ _ l) as [[a n]|]; reflexivity.
Qed.

(** A live entry whose key compares equal to [k] caches the hash of [k]
    and lies in the bucket that hash selects. *)
Lemma equal_entry_in_bucket (t : UntypedTable) (k : Z) (b : gmap Z nat)
    (i : Z) (l : list nat) (a : nat) (n : HashNode) :
  table_ok t -> _buckets t = Some b ->
  chain (nodes t) (b !! i) l -> a ∈ l -> nodes t !! a = Some n ->
  call_compare (_compare t) (key n) k = true ->
  hash_value n = call_hash (_hash t) k
  /\ i = Z.land (_bucket_mask t) (call_hash (_hash t) k).
Proof.
  intros Hok Hb Hc Hin Ha Hcmp.
  destruct (bucket_chain t b i Hok Hb) as (l' & Hc' & Hpl).
  pose proof (chain_det _ _ _ _ Hc Hc') as <-.
  rewrite Forall_forall in Hpl.
  destruct (Hpl a Hin) as (n' & Ha' & Hh & Hi).
  rewrite Ha in Ha'. injection Ha' as <-.
  apply (ok_compare t Hok) in Hcmp.
  split; [congruence|]. rewrite <- Hi, Hh, Hcmp. reflexivity.
Qed.

(** On the nodes of a well-formed table, the match of [lookup] is the
    comparison function's verdict. *)
Lemma matches_iff_equal (t : UntypedTable) (k : Z) (i : Z) (a : nat)
    (n : HashNode) :
  table_ok t -> fast_path_ok t ->
  placed (_hash t) (_bucket_mask t) (nodes t) i a ->
  nodes t !! a = Some n ->
  matches t k n = call_compare (_compare t) (key n) k.
Proof.
  intros Hok Hfp (n' & Ha' & Hh & _) Ha.
  rewrite Ha in Ha'. injection Ha' as <-.
  unfold matches. destruct (_compare_by_pointer t) eqn:Hm.
  - rewrite (Hfp Hm). reflexivity.
  - destruct (call_compare (_compare t) (key n) k) eqn:Hcmp.
    + apply (ok_compare t Hok) in Hcmp. rewrite Hh, Hcmp, Z.eqb_refl.
      reflexivity.
    + apply andb_false_r.
Qed.

(** X4. On a well-formed table with its bucket array, [lookup(key)] returns
    null, and stores null through [found_key_out], when no live entry has a
    key equal to [key]; when one has and the count is not zero, it returns
    the value of such an entry and stores the key that entry holds. *)
Theorem lookup_finds_equal_entry (t : UntypedTable) (k : Z) (out : bool)
    (b : gmap Z nat) :
  table_ok t -> fast_path_ok t -> _buckets t = Some b ->
  (~ has_equal_entry t k ->
   lookup k out t = Ok (0, if out then Some 0 else None))
  /\ (has_equal_entry t k -> _count t <> 0 ->
      exists a n,
        live t a /\ nodes t !! a = Some n
        /\ call_compare (_compare t) (key n) k = true
        /\ lookup k out t = Ok (value n, if out then Some (key n) else None)).
Proof.
  intros Hok Hfp Hb.
  set (i := Z.land (_bucket_mask t) (call_hash (_hash t) k)).
  destruct (bucket_chain t b i Hok Hb) as (l & Hc & Hpl).
  rewrite (lookup_on_chain t k out b l Hb Hc).
  rewrite Forall_forall in Hpl.
  destruct (first_match (nodes t) (matches t k) l) as [[a n]|] eqn:Hfm.
  - apply first_match_Some in Hfm. destruct Hfm as (Hin & Ha & Hq).
    rewrite (matches_iff_equal t k i a n Hok Hfp (Hpl a Hin) Ha) in Hq.
    assert (Hlive : live t a) by (exists b, i, l; auto).
    split.
    + intros Hne. exfalso. apply Hne. exists a, n. auto.
    + intros _ Hcount. apply Z.eqb_neq in Hcount. rewrite Hcount.
      exists a, n. auto.
  - split.
    + intros _. destruct (_count t =? 0); reflexivity.
    + intros (a & n & (b' & i' & l' & Hb' & Hc' & Hin) & Ha & Hcmp) _.
      exfalso. rewrite Hb in Hb'. injection Hb' as <-.
      destruct (equal_entry_in_bucket t k b i' l' a n Hok Hb Hc' Hin Ha Hcmp)
        as [_ ->].
      pose proof (chain_det _ _ _ _ Hc Hc') as <-.
      pose proof (first_match_None _ _ _ (chain_all_valid _ _ _ Hc) Hfm
                    a n Hin Ha) as Hq.
      rewrite (matches_iff_equal t k i a n Hok Hfp (Hpl a Hin) Ha) in Hq.
      congruence.
Qed.

Lemma three_in_one_chain_fast_path : fast_path_ok three_in_one_chain.
Proof. intros _. reflexivity. Qed.

Lemma lookup_finds_equal_entry_witness :
  (~ has_equal_entry three_in_one_chain 120 ->
   lookup 120 true three_in_one_chain = Ok (0, Some 0))
  /\ (has_equal_entry three_in_one_chain 120 ->
      _count three_in_one_chain <> 0 ->
      exists a n,
        live three_in_one_chain a /\ nodes three_in_one_chain !! a = Some n
        /\ call_compare (_compare three_in_one_chain) (key n) 120 = true
        /\ lookup 120 true three_in_one_chain = Ok (value n, Some (key n))).
Proof.
  exact (lookup_finds_equal_entry three_in_one_chain 120 true _
           three_in_one_chain_ok three_in_one_chain_fast_path
           three_in_one_chain_buckets).
Defined.

(** ** Insert, then look up *)

Lemma first_match_app (ns ns2 : list HashNode) (q : HashNode -> bool)
    (l : list nat) :
  Forall (fun a => is_Some (ns !! a)) l ->
  first_match (ns ++ ns2) q l = first_match ns q l.
Proof.
  induction 1 as [|c l [m Hc] Hl IH]; cbn [first_match]; [reflexivity|].
  rewrite (lookup_app_l_Some _ _ _ _ Hc), Hc, IH. reflexivity.
Qed.

Lemma first_match_ext (ns : list HashNode) (q q' : HashNode -> bool)
    (l : list nat) :
  (forall n, q n = q' n) -> first_match ns q l = first_match ns q' l.
Proof.
  intros H. induction l as [|c l IH]; [reflexivity|].
  cbn [first_match]. destruct (ns !! c); [|reflexivity].
  rewrite H, IH. reflexivity.
Qed.

(** Overwriting the first match with a node that matches too. *)
Lemma first_match_replace (ns : list HashNode) (p q : HashNode -> bool)
    (l : list nat) (a : nat) (n n' : HashNode) :
  first_match ns p l = Some (a, n) ->
  (forall c m, c ∈ l -> ns !! c = Some m -> p m = false -> q m = false) ->
  q n' = true ->
  first_match (<[a := n']> ns) q l = Some (a, n').
Proof.
  intros Hfm Hpq Hq. induction l as [|c l IH]; [discriminate|].
  cbn [first_match] in *.
  destruct (ns !! c) as [m|] eqn:Hc; [|discriminate].
  destruct (p m) eqn:Hp.
  - injection Hfm as -> ->.
    rewrite list_lookup_insert_eq by (eapply lookup_lt_Some; eauto).
    rewrite Hq. reflexivity.
  - destruct (first_match_Some _ _ _ _ _ Hfm) as (_ & Ha & Hpn).
    assert (Hne : a <> c) by (intros ->; congruence).
    rewrite list_lookup_insert_ne, Hc by exact Hne.
    rewrite (Hpq c m) by (auto; apply elem_of_cons; auto).
    apply IH; [exact Hfm|].
    intros c' m' Hin. apply Hpq. apply elem_of_cons; auto.
Qed.

(** Overwriting a node that does not match before or after. *)
Lemma first_match_other (ns : list HashNode) (q : HashNode -> bool)
    (l : list nat) (a : nat) (n n' : HashNode) :
  ns !! a = Some n -> q n = false -> q n' = false ->
  first_match (<[a := n']> ns) q l = first_match ns q l.
Proof.
  intros Ha Hq Hq'. induction l as [|c l IH]; [reflexivity|].
  cbn [first_match].
  destruct (decide (a = c)) as [<-|Hne].
  - rewrite list_lookup_insert_eq by (eapply lookup_lt_Some; eauto).
    rewrite Ha, Hq, Hq'. exact IH.
  - rewrite list_lookup_insert_ne by exact Hne.
    destruct (ns !! c) as [m|]; [|reflexivity].
    destruct (q m); [reflexivity|exact IH].
Qed.

(** The search of [insert] on a placed node is the comparison function's
    verdict. *)
Lemma insert_search_iff_equal (t : UntypedTable) (k : Z) (i : Z) (a : nat)
    (n : HashNode) :
  table_ok t ->
  placed (_hash t) (_bucket_mask t) (nodes t) i a ->
  nodes t !! a = Some n ->
  (hash_value n =? call_hash (_hash t) k)
  && call_compare (_compare t) (key n) k
  = call_compare (_compare t) (key n) k.
Proof.
  intros Hok (n' & Ha' & Hh & _) Ha.
  rewrite Ha in Ha'. injection Ha' as <-.
  destruct (call_compare (_compare t) (key n) k) eqn:Hcmp.
  - apply (ok_compare t Hok) in Hcmp. rewrite Hh, Hcmp, Z.eqb_refl.
    reflexivity.
  - apply andb_false_r.
Qed.

(** [lookup] right after a fresh insertion finds the new node at the head
    of its bucket. *)
Lemma lookup_after_insert_new (k v : Z) (out : bool) (t t' : UntypedTable) :
  insert_new (call_hash (_hash t) k) k v t = Ok (true, t') ->
  call_compare (_compare t) k k = true -> fast_path_ok t ->
  0 <= _count t < 2 ^ 64 - 1 ->
  lookup k out t' = Ok (v, if out then Some k else None).
Proof.
  intros H Hrefl Hfp Hcount.
  pose proof (insert_new_frame _ _ _ _ _ _ H) as (_ & C & _ & _ & Hc & _).
  apply insert_new_inv in H.
  destruct H as (_ & t2 & b2 & a & _ & _ & _ & Hm & Hb & Hn & _).
  unfold config in C. injection C as Eh Ec _ _ _ Ep.
  unfold lookup. rewrite Hc.
  replace (uint64 (_count t + 1) =? 0) with false
    by (symmetry; apply Z.eqb_neq; unfold uint64;
        rewrite Z.mod_small; lia).
  cbn [negb]. unfold buckets_of. rewrite Hb. cbn [bind].
  rewrite Eh, Hm, lookup_insert_eq, Ep, Ec.
  unfold walk_limit. cbn [find_node]. rewrite Hn. cbn [key hash_value value].
  destruct (_compare_by_pointer t) eqn:Hp.
  - rewrite Z.eqb_refl. reflexivity.
  - rewrite Z.eqb_refl, Hrefl. reflexivity.
Qed.

(** X5. Round trip.  On a well-formed table of width at most 29 whose
    count is in step with its entries, for a key the comparison function
    finds equal to itself, [insert(key, value)] returns and a
    [lookup(key)] right after it returns [value] and stores [key] through
    [found_key_out], whether the insertion was fresh or a replacement. *)
Theorem insert_then_lookup (t : UntypedTable) (k v : Z) (out : bool) :
  table_ok t -> fast_path_ok t -> counted t ->
  _bucket_mask_width t <= 29 ->
  call_compare (_compare t) k k = true ->
  exists fresh t',
    insert k v t = Ok (fresh, t')
    /\ lookup k out t' = Ok (v, if out then Some k else None).
Proof.
  intros Hok Hfp [Hcount Hzero] Hw29 Hrefl. unfold insert.
  destruct (_buckets t) as [b|] eqn:Hb.
  - unfold buckets_of. rewrite Hb. cbn [bind].
    set (h := call_hash (_hash t) k).
    set (p := fun n => (hash_value n =? h) && call_compare (_compare t) (key n) k).
    replace (Z.land h (_bucket_mask t)) with (Z.land (_bucket_mask t) h)
      by apply Z.land_comm.
    destruct (bucket_chain t b (Z.land (_bucket_mask t) h) Hok Hb)
      as (l & Hc & Hpl).
    rewrite (find_node_first_match _ p _ l)
      by (auto; unfold walk_limit; apply chain_length in Hc; lia).
    cbn [bind].
    destruct (first_match (nodes t) p l) as [[a n]|] eqn:Hfm.
    + exists false, (replace_existing a n k v t). split; [reflexivity|].
      destruct (first_match_Some _ _ _ _ _ Hfm) as (Hin & Ha & Hp).
      rewrite Forall_forall in Hpl.
      assert (Hcmp : call_compare (_compare t) (key n) k = true).
      { unfold p in Hp. apply andb_true_iff in Hp. apply Hp. }
      assert (Hne : _count t <> 0).
      { intros Hz. apply (Hzero Hz a). exists b, (Z.land (_bucket_mask t) h), l.
        auto. }
      rewrite (lookup_on_chain (replace_existing a n k v t) k out b l).
      * unfold replace_existing. simpl_fields.
        apply Z.eqb_neq in Hne. rewrite Hne.
        rewrite (first_match_replace (nodes t) p _ l a n
                   (mkHashNode (next n) k v (hash_value n)) Hfm).
        -- reflexivity.
        -- intros c m Hc' Hm Hpm. unfold p, h in Hpm.
           rewrite (insert_search_iff_equal t k _ c m Hok (Hpl c Hc') Hm) in Hpm.
           change (matches (set_calls _ (set_nodes _ t)) k m)
             with (matches t k m).
           rewrite (matches_iff_equal t k _ c m Hok Hfp (Hpl c Hc') Hm).
           exact Hpm.
        -- change (matches (set_calls _ (set_nodes _ t)) k
                     (mkHashNode (next n) k v (hash_value n)))
             with (matches t k (mkHashNode (next n) k v (hash_value n))).
           unfold matches. cbn [key hash_value].
           destruct (_compare_by_pointer t); [apply Z.eqb_refl|].
           unfold p in Hp. apply andb_true_iff in Hp. destruct Hp as [Hp _].
           fold h. rewrite Hp, Hrefl. reflexivity.
      * unfold replace_existing. simpl_fields. exact Hb.
      * unfold replace_existing. simpl_fields.
        apply chain_same_links with n; auto.
    + destruct (insert_new_returns h k v t b (table_ok_growable t Hok) Hb)
        as (t' & E'); [lia|].
      exists true, t'. split; [exact E'|].
      apply (lookup_after_insert_new k v out t t' E' Hrefl Hfp Hcount).
  - destruct (create_buckets_fields t Hb)
      as (E1 & E2 & E3 & E4 & E5 & E6 & E7 & E8 & E9).
    unfold buckets_of. rewrite E1. cbn [bind].
    rewrite lookup_empty, find_node_null. cbn [bind].
    destruct (insert_new_returns (call_hash (_hash (create_buckets t)) k) k v
                (create_buckets t) ∅ (create_buckets_growable t Hb Hok) E1)
      as (t' & E'); [rewrite E2; lia|].
    exists true ,t'. split; [exact E'|].
    apply (lookup_after_insert_new k v out (create_buckets t) t' E').
    + rewrite E9. exact Hrefl.
    + unfold fast_path_ok. rewrite E9.
      destruct (create_buckets_frame t) as (C & _).
      unfold config in C. injection C as _ _ _ _ _ ->. exact Hfp.
    + rewrite E6. exact Hcount.
Qed.

Lemma three_in_one_chain_counted : counted three_in_one_chain.
Proof.
  split; [cbn; lia|]. intros H. discriminate H.
Qed.

Lemma insert_then_lookup_witness :
  exists fresh t',
    insert 120 999 three_in_one_chain = Ok (fresh, t')
    /\ lookup 120 true t' = Ok (999, Some 120).
Proof.
  assert (Hw : _bucket_mask_width three_in_one_chain <= 29)
    by (vm_compute; discriminate).
  exact (insert_then_lookup three_in_one_chain 120 999 true
           three_in_one_chain_ok three_in_one_chain_fast_path
           three_in_one_chain_counted Hw eq_refl).
Defined.

(** ** Insert, then look up another key *)

(** A fresh insertion that neither grows the array nor finds a node on the
    free list: one node is allocated and pushed on its bucket. *)
Lemma insert_new_explicit (h k v : Z) (t : UntypedTable) (b : gmap Z nat) :
  _buckets t = Some b -> _spare_node t = None ->
  uint64 (_count t + 1) <= uint64 (shl_int 4 (_bucket_mask_width t)) ->
  insert_new h k v t
  = Ok (true,
        set_count (uint64 (_count t + 1))
          (set_buckets
             (Some (<[Z.land (_bucket_mask t) h := length (nodes t)]> b))
             (set_nodes
                (nodes t
                 ++ [mkHashNode (b !! Z.land (_bucket_mask t) h) k v h])
                (make_heap t)))).
Proof.
  intros Hb Hsp Hth. unfold insert_new.
  apply Z.ltb_ge in Hth. rewrite Hth. cbn [bind].
  destruct (make_heap_fields t) as (E1 & E2 & E3 & E4 & E5 & E6 & _).
  rewrite E5, Hsp. cbn [bind]. unfold buckets_of, store. simpl_fields.
  rewrite E3, Hb. simpl_fields.
  rewrite E4, E2, E6, lookup_app_r, Nat.sub_diag by lia.
  cbn [list_lookup stdpp.base.lookup bind].
  rewrite insert_app_r_alt, Nat.sub_diag by lia.
  cbn [list_insert stdpp.base.insert]. reflexivity.
Qed.

(** X6. Frame.  On a well-formed table in pointer-identity mode with an
    empty free list, an insertion that does not have to grow the bucket
    array leaves the result of [lookup] for every other key as it was. *)
Theorem insert_keeps_other_lookups (t : UntypedTable) (k v k' : Z)
    (out : bool) (b : gmap Z nat) :
  table_ok t -> counted t ->
  _compare_by_pointer t = true -> _compare t = pointer_compare_fn ->
  _buckets t = Some b -> _spare_node t = None ->
  uint64 (_count t + 1) <= uint64 (shl_int 4 (_bucket_mask_width t)) ->
  k' <> k ->
  exists fresh t',
    insert k v t = Ok (fresh, t')
    /\ lookup k' out t' = lookup k' out t.
Proof.
  intros Hok [Hcount Hzero] Hmode Hcmpfn Hb Hsp Hth Hkk. unfold insert.
  rewrite Hb. unfold buckets_of. rewrite Hb. cbn [bind].
  set (h := call_hash (_hash t) k).
  set (p := fun n => (hash_value n =? h) && call_compare (_compare t) (key n) k).
  replace (Z.land h (_bucket_mask t)) with (Z.land (_bucket_mask t) h)
    by apply Z.land_comm.
  destruct (bucket_chain t b (Z.land (_bucket_mask t) h) Hok Hb)
    as (l & Hc & Hpl).
  rewrite (find_node_first_match _ p _ l)
    by (auto; unfold walk_limit; apply chain_length in Hc; lia).
  cbn [bind].
  set (i' := Z.land (_bucket_mask t) (call_hash (_hash t) k')).
  destruct (bucket_chain t b i' Hok Hb) as (l' & Hc' & Hpl').
  rewrite (lookup_on_chain t k' out b l' Hb Hc').
  assert (Hq : forall n, matches t k' n = (key n =? k')).
  { intros n. unfold matches. rewrite Hmode. reflexivity. }
  destruct (first_match (nodes t) p l) as [[a n]|] eqn:Hfm.
  - exists false, (replace_existing a n k v t). split; [reflexivity|].
    destruct (first_match_Some _ _ _ _ _ Hfm) as (Hin & Ha & Hp).
    assert (Hkey : key n = k).
    { unfold p in Hp. apply andb_true_iff in Hp. destruct Hp as [_ Hp].
      rewrite Hcmpfn in Hp. apply Z.eqb_eq in Hp. exact Hp. }
    rewrite (lookup_on_chain (replace_existing a n k v t) k' out b l').
    + unfold replace_existing. simpl_fields.
      change (matches (set_calls _ (set_nodes _ t)) k') with (matches t k').
      rewrite (first_match_other (nodes t) (matches t k') l' a n); auto.
      * rewrite Hq, Hkey. apply Z.eqb_neq. auto.
      * rewrite Hq. cbn [key]. apply Z.eqb_neq. auto.
    + unfold replace_existing. simpl_fields. exact Hb.
    + unfold replace_existing. simpl_fields.
      apply chain_same_links with n; auto.
  - rewrite (insert_new_explicit h k v t b Hb Hsp Hth).
    eexists true, _. split; [reflexivity|].
    set (N := mkHashNode (b !! Z.land (_bucket_mask t) h) k v h).
    set (t' := set_count _ _).
    assert (Hmask : _bucket_mask t' = _bucket_mask t)
      by (destruct (make_heap_fields t) as (_ & E & _); exact E).
    assert (Hhash : _hash t' = _hash t)
      by (destruct (make_heap_fields t) as (_ & _ & _ & _ & _ & _ & _ & E & _);
          exact E).
    assert (Hmode' : _compare_by_pointer t' = true).
    { destruct (make_heap_config t) as (C & _). unfold config in C.
      injection C as _ _ _ _ _ C. rewrite <- Hmode, <- C. reflexivity. }
    assert (Hnodes : nodes t' = nodes t ++ [N]) by reflexivity.
    assert (Hbk : _buckets t'
                  = Some (<[Z.land (_bucket_mask t) h := length (nodes t)]> b))
      by reflexivity.
    assert (Hq' : forall n, matches t' k' n = matches t k' n).
    { intros n. unfold matches. rewrite Hmode', Hmode. reflexivity. }
    assert (Hvalid' := chain_all_valid _ _ _ Hc').
    assert (Hcnt : (_count t' =? 0) = false).
    { apply Z.eqb_neq. change (_count t') with (uint64 (_count t + 1)).
      unfold uint64. rewrite Z.mod_small; lia. }
    assert (Hold : (if _count t =? 0 then (0, if out then Some 0 else None)
                    else match first_match (nodes t) (matches t k') l' with
                         | Some (_, n) =>
                             (value n, if out then Some (key n) else None)
                         | None => (0, if out then Some 0 else None)
                         end)
                   = match first_match (nodes t) (matches t k') l' with
                     | Some (_, n) => (value n, if out then Some (key n) else None)
                     | None => (0, if out then Some 0 else None)
                     end).
    { destruct (_count t =? 0) eqn:Hz; [|reflexivity].
      apply Z.eqb_eq in Hz.
      destruct l' as [|c l']; [reflexivity|].
      exfalso. apply (Hzero Hz c). exists b, i', (c :: l').
      repeat split; auto. apply elem_of_cons; auto. }
    rewrite Hold. clear Hold.
    clearbody t'.
    destruct (decide (Z.land (_bucket_mask t) h = i')) as [Hi|Hi].
    + rewrite (lookup_on_chain t' k' out _ (length (nodes t) :: l') Hbk).
      * rewrite Hcnt, Hnodes. cbn [first_match].
        rewrite lookup_app_r, Nat.sub_diag by lia.
        cbn [list_lookup stdpp.base.lookup].
        rewrite Hq', Hq. cbn [key N].
        replace (k =? k') with false by (symmetry; apply Z.eqb_neq; auto).
        rewrite first_match_app by exact Hvalid'.
        rewrite (first_match_ext _ _ (matches t k')) by exact Hq'.
        reflexivity.
      * rewrite Hmask, Hhash. fold i'. rewrite <- Hi, lookup_insert_eq, Hnodes.
        apply chain_step with N.
        -- rewrite lookup_app_r, Nat.sub_diag by lia. reflexivity.
        -- cbn [next N]. apply chain_app. rewrite Hi. exact Hc'.
    + rewrite (lookup_on_chain t' k' out _ l' Hbk).
      * rewrite Hcnt, Hnodes.
        rewrite first_match_app by exact Hvalid'.
        rewrite (first_match_ext _ _ (matches t k')) by exact Hq'.
        reflexivity.
      * rewrite Hmask, Hhash. fold i'. rewrite lookup_insert_ne by exact Hi.
        rewrite Hnodes. apply chain_app. exact Hc'.
Qed.

Lemma insert_keeps_other_lookups_witness :
  exists fresh t',
    insert 24 7 three_in_one_chain = Ok (fresh, t')
    /\ lookup 8 true t' = lookup 8 true three_in_one_chain.
Proof.
  apply (insert_keeps_other_lookups three_in_one_chain 24 7 8 true _
           three_in_one_chain_ok three_in_one_chain_counted
           eq_refl eq_refl three_in_one_chain_buckets eq_refl).
  - vm_compute. discriminate.
  - discriminate.
Defined.

(** ** Iteration and teardown *)

Lemma body_calls_app (ns : list HashNode) (body : nat) (context : Z)
    (l1 l2 : list nat) :
  body_calls ns body context (l1 ++ l2)
  = body_calls ns body context l1 ++ body_calls ns body context l2.
Proof. unfold body_calls. apply flat_map_app. Qed.

Lemma removal_calls_app (ns : list HashNode) (kf vf : option nat)
    (l1 l2 : list nat) :
  removal_calls ns kf vf (l1 ++ l2)
  = removal_calls ns kf vf l1 ++ removal_calls ns kf vf l2.
Proof. unfold removal_calls. apply flat_map_app. Qed.

Lemma visit_calls (ns : list HashNode) (body : nat) (context : Z)
    (head : option nat) (l : list nat) (fuel : nat) (cs : list call) :
  chain ns head l -> (length l <= fuel)%nat ->
  visit fuel ns body context head cs
  = Ok (cs ++ body_calls ns body context l).
Proof.
  intros H. revert fuel cs.
  induction H as [|a n l Ha H IH]; intros fuel cs Hf.
  - destruct fuel; cbn; rewrite app_nil_r; reflexivity.
  - destruct fuel as [|fuel]; [cbn in Hf; lia|].
    cbn [visit]. unfold load. rewrite Ha. cbn [bind].
    rewrite IH by (cbn in Hf; lia).
    unfold body_calls. cbn [flat_map]. rewrite Ha, <- app_assoc.
    reflexivity.
Qed.

Lemma visit_buckets_calls (ns : list HashNode) (body : nat) (context : Z)
    (b : gmap Z nat) (idxs : list Z) (ls : list (list nat)) (cs : list call) :
  Forall2 (fun i l => chain ns (b !! i) l) idxs ls ->
  visit_buckets ns body context b idxs cs
  = Ok (cs ++ body_calls ns body context (concat ls)).
Proof.
  intros H. revert cs.
  induction H as [|i l idxs ls Hc H IH]; intros cs.
  - cbn. rewrite app_nil_r. reflexivity.
  - cbn [visit_buckets concat].
    rewrite (visit_calls ns body context _ l)
      by (auto; unfold walk_limit; apply chain_length in Hc; lia).
    cbn [bind]. rewrite IH, body_calls_app, app_assoc. reflexivity.
Qed.

Lemma notify_chain_calls (ns : list HashNode) (kf vf : option nat)
    (head : option nat) (l : list nat) (fuel : nat) (cs : list call) :
  chain ns head l -> (length l <= fuel)%nat ->
  notify_chain fuel ns kf vf head cs = Ok (cs ++ removal_calls ns kf vf l).
Proof.
  intros H. revert fuel cs.
  induction H as [|a n l Ha H IH]; intros fuel cs Hf.
  - destruct fuel; cbn; rewrite app_nil_r; reflexivity.
  - destruct fuel as [|fuel]; [cbn in Hf; lia|].
    cbn [notify_chain]. unfold load. rewrite Ha. cbn [bind].
    rewrite IH by (cbn in Hf; lia).
    unfold removal_calls. cbn [flat_map]. rewrite Ha.
    destruct kf, vf; cbn [notify]; rewrite <- ?app_assoc; reflexivity.
Qed.

Lemma notify_buckets_calls (ns : list HashNode) (kf vf : option nat)
    (b : gmap Z nat) (idxs : list Z) (ls : list (list nat)) (cs : list call) :
  Forall2 (fun i l => chain ns (b !! i) l) idxs ls ->
  notify_buckets ns kf vf b idxs cs
  = Ok (cs ++ removal_calls ns kf vf (concat ls)).
Proof.
  intros H. revert cs.
  induction H as [|i l idxs ls Hc H IH]; intros cs.
  - cbn. rewrite app_nil_r. reflexivity.
  - cbn [notify_buckets concat].
    rewrite (notify_chain_calls ns kf vf _ l)
      by (auto; unfold walk_limit; apply chain_length in Hc; lia).
    cbn [bind]. rewrite IH, removal_calls_app, app_assoc. reflexivity.
Qed.

Lemma removal_calls_unset (ns : list HashNode) (l : list nat) :
  removal_calls ns None None l = [].
Proof.
  induction l as [|a l IH]; [reflexivity|].
  unfold removal_calls in *. cbn [flat_map]. rewrite IH.
  destruct (ns !! a); reflexivity.
Qed.

(** The chains of the buckets [idxs] of a well-formed table. *)
Lemma bucket_chains_exist (t : UntypedTable) (b : gmap Z nat) (idxs : list Z) :
  table_ok t -> _buckets t = Some b ->
  exists ls, Forall2 (fun i l => chain (nodes t) (b !! i) l) idxs ls.
Proof.
  intros Hok Hb. induction idxs as [|i idxs [ls IH]].
  - exists []. constructor.
  - destruct (bucket_chain t b i Hok Hb) as (l & Hc & _).
    exists (l :: ls). constructor; assumption.
Qed.

(** X7. On a well-formed table, [for_each] returns and changes nothing but
    the record of calls: when the count is not zero it has called [body]
    with the key, the value and the context once for every node on a
    bucket chain, bucket by bucket in index order and along each chain
    from its head. *)
Theorem for_each_visits_every_chain (t : UntypedTable) (body : nat)
    (context : Z) (b : gmap Z nat) :
  table_ok t -> _buckets t = Some b ->
  exists ls,
    Forall2 (fun i l => chain (nodes t) (b !! i) l)
      (bucket_indices (_bucket_mask_width t)) ls
    /\ for_each body context t
       = Ok (if _count t =? 0 then t
             else set_calls
                    (calls t ++ body_calls (nodes t) body context (concat ls))
                    t).
Proof.
  intros Hok Hb.
  destruct (bucket_chains_exist t b (bucket_indices (_bucket_mask_width t))
              Hok Hb) as [ls Hls].
  exists ls. split; [exact Hls|].
  unfold for_each. destruct (_count t =? 0); cbn [negb]; [reflexivity|].
  unfold buckets_of. rewrite Hb. cbn [bind].
  rewrite (visit_buckets_calls _ _ _ _ _ ls) by exact Hls.
  reflexivity.
Qed.

Lemma for_each_visits_every_chain_witness :
  exists ls,
    Forall2 (fun i l => chain (nodes three_in_one_chain) (({[13 := 2%nat]} : gmap Z nat) !! i) l)
      (bucket_indices (_bucket_mask_width three_in_one_chain)) ls
    /\ for_each 5 9 three_in_one_chain
       = Ok (if _count three_in_one_chain =? 0 then three_in_one_chain
             else set_calls
                    (calls three_in_one_chain
                     ++ body_calls (nodes three_in_one_chain) 5 9 (concat ls))
                    three_in_one_chain).
Proof.
  exact (for_each_visits_every_chain three_in_one_chain 5 9 _
           three_in_one_chain_ok three_in_one_chain_buckets).
Defined.

(** X8. On a well-formed table, the destructor returns.  When the count is
    not zero it has called, for every node on a bucket chain in bucket
    order and chain order, the key callback with the node's key and then
    the value callback with its value, each if it is set, and nothing
    else; with a count of zero it calls nothing.  It passes the bucket
    array to [free] when the mask is above 4, and resets and deletes the
    arena when the table owns one. *)
Theorem destroy_notifies_every_entry (t : UntypedTable) (b : gmap Z nat) :
  table_ok t -> _buckets t = Some b ->
  exists ls,
    Forall2 (fun i l => chain (nodes t) (b !! i) l)
      (bucket_indices (_bucket_mask_width t)) ls
    /\ destroy t
       = Ok {| final_calls :=
                 if _count t =? 0 then calls t
                 else calls t
                      ++ removal_calls (nodes t) (_did_remove_key t)
                           (_did_remove_value t) (concat ls);
               buckets_freed := 4 <? _bucket_mask t;
               heap_deleted := _is_heap_owner t && is_set (_heap t) |}.
Proof.
  intros Hok Hb.
  destruct (bucket_chains_exist t b (bucket_indices (_bucket_mask_width t))
              Hok Hb) as [ls Hls].
  exists ls. split; [exact Hls|].
  unfold destroy.
  destruct (_count t =? 0); cbn [negb];
    [rewrite andb_false_r; reflexivity|].
  rewrite andb_true_r.
  destruct (is_set (_did_remove_key t) || is_set (_did_remove_value t)) eqn:E.
  - unfold buckets_of. rewrite Hb. cbn [bind].
    rewrite (notify_buckets_calls _ _ _ _ _ ls) by exact Hls.
    reflexivity.
  - apply orb_false_iff in E. destruct E as [E1 E2].
    destruct (_did_remove_key t); [discriminate|].
    destruct (_did_remove_value t); [discriminate|].
    rewrite removal_calls_unset, app_nil_r. reflexivity.
Qed.

Lemma destroy_notifies_every_entry_witness :
  (exists ls,
     Forall2 (fun i l => chain (nodes notifying_chain)
                           (({[13 := 2%nat]} : gmap Z nat) !! i) l)
       (bucket_indices (_bucket_mask_width notifying_chain)) ls
     /\ destroy notifying_chain
        = Ok {| final_calls :=
                  if _count notifying_chain =? 0
                  then calls notifying_chain
                  else calls notifying_chain
                       ++ removal_calls (nodes notifying_chain)
                            (_did_remove_key notifying_chain)
                            (_did_remove_value notifying_chain) (concat ls);
                buckets_freed := 4 <? _bucket_mask notifying_chain;
                heap_deleted :=
                  _is_heap_owner notifying_chain
                  && is_set (_heap notifying_chain) |})
  /\ destroy notifying_chain
     = Ok {| final_calls :=
               [did_remove_key_call 1 160; did_remove_value_call 2 300;
                did_remove_key_call 1 120; did_remove_value_call 2 200;
                did_remove_key_call 1 8; did_remove_value_call 2 100];
             buckets_freed := true;
             heap_deleted := true |}.
Proof.
  split.
  - exact (destroy_notifies_every_entry notifying_chain _
             notifying_chain_ok notifying_chain_buckets).
  - vm_compute. reflexivity.
Defined.

(** ** The bucket array and its mask *)

Lemma state_after_run (ops : list operation) (t t' : UntypedTable) :
  state_after ops t = Ok t' -> exists rs, run ops t = Ok (rs, t').
Proof.
  unfold state_after. intros H. inv_bind H. injection H as <-.
  destruct x as [rs t1]. eauto.
Qed.

Lemma grow_buckets_array_described (t t' : UntypedTable) :
  grow_buckets t = Ok t' -> array_described t -> is_Some (_buckets t) ->
  array_described t' /\ is_Some (_buckets t').
Proof.
  intros H Hd [b Hb]. unfold array_described in *. rewrite Hb in Hd.
  apply grow_buckets_inv in H.
  destruct H as [[_ ->]|(Hle & Hw & Hm & _ & _ & _ & old & st & _ & _ & _ & Hb')].
  - rewrite Hb. split; [exact Hd|eauto].
  - rewrite Hb'. split; [|eauto].
    rewrite (uint32_small (_bucket_mask_width t + 1)) in Hw, Hm by lia.
    rewrite Hw, Hm. split; [lia|]. apply mask_of_width. lia.
Qed.

Lemma insert_array_described (k v : Z) (t t' : UntypedTable) (r : bool) :
  insert k v t = Ok (r, t') -> array_described t ->
  array_described t' /\ is_Some (_buckets t').
Proof.
  unfold insert. intros H Hd.
  set (t1 := match _buckets t with
             | Some _ => t
             | None => create_buckets t
             end) in *.
  assert (Hd1 : array_described t1 /\ is_Some (_buckets t1)).
  { subst t1. destruct (_buckets t) eqn:Hb.
    - split; [exact Hd|]. rewrite Hb. eauto.
    - destruct (create_buckets_fields t Hb) as (E1 & E2 & E3 & _).
      unfold array_described. rewrite E1, E2, E3.
      split; [split; [lia|reflexivity]|eauto]. }
  clearbody t1. destruct Hd1 as [Hd1 Hs1].
  inv_bind H. inv_bind H. destruct x0 as [[a n]|].
  - injection H as <- <-. unfold replace_existing, array_described in *.
    simpl_fields. auto.
  - apply insert_new_inv in H.
    destruct H as (_ & t2 & b2 & a & Hg & Hb2 & Ew & Em & Eb & _).
    assert (Hd2 : array_described t2).
    { destruct (uint64 (shl_int 4 (_bucket_mask_width t1)) <? uint64 (_count t1 + 1)).
      - apply (grow_buckets_array_described t1 t2 Hg Hd1 Hs1).
      - subst t2. exact Hd1. }
    unfold array_described in *. rewrite Hb2 in Hd2. rewrite Eb, Ew, Em.
    split; [exact Hd2|eauto].
Qed.

Lemma perform_array_described (o : operation) (t t' : UntypedTable)
    (r : outcome) :
  perform o t = Ok (r, t') -> array_described t -> array_described t'.
Proof.
  destruct o; cbn [perform]; intros H Hd; inv_bind H; injection H as <- <-.
  - exact Hd.
  - destruct x as [fresh t1]. eapply insert_array_described; eauto.
  - destruct x as [removed t1]. apply remove_fields in Hx.
    destruct Hx as (E1 & E2 & E3). unfold array_described in *. cbn [snd].
    rewrite E1, E2, E3. exact Hd.
  - apply for_each_fields in Hx. destruct Hx as (E1 & E2 & E3).
    unfold array_described in *. rewrite E1, E2, E3. exact Hd.
Qed.

Lemma run_array_described (ops : list operation) (t t' : UntypedTable)
    (rs : list outcome) :
  run ops t = Ok (rs, t') -> array_described t -> array_described t'.
Proof.
  revert t t' rs. induction ops as [|o ops IH]; intros t t' rs H Hd.
  - injection H as <- <-. exact Hd.
  - cbn [run] in H. inv_bind H. inv_bind H. injection H as <- <-.
    destruct x as [r t1]. destruct x0 as [rs1 t2]. cbn [snd] in *.
    eapply IH; [exact Hx0|]. eapply perform_array_described; eauto.
Qed.

Lemma constructed_array_described (custom_hash : option hasher)
    (custom_compare : option key_equal) (dk dv : option nat)
    (heap : option Heap) :
  array_described (UntypedTable_with custom_hash custom_compare dk dv heap).
Proof. split; reflexivity. Qed.

(** X9. Along every sequence of operations on a constructed table, the
    bucket array and the fields that describe it stay in step: while there
    is no array, width and mask are zero; once there is one, the width is
    between 4 and 31, the mask is [2^width - 1], and the index
    [_bucket_mask & hash] the operations compute lies within the
    [2^width] slots of the array for every hash. *)
Theorem bucket_index_in_range (custom_hash : option hasher)
    (custom_compare : option key_equal) (dk dv : option nat)
    (heap : option Heap) (ops : list operation) (t : UntypedTable) :
  state_after ops (UntypedTable_with custom_hash custom_compare dk dv heap)
  = Ok t ->
  match _buckets t with
  | None => _bucket_mask_width t = 0 /\ _bucket_mask t = 0
  | Some _ =>
      4 <= _bucket_mask_width t <= 31
      /\ _bucket_mask t = 2 ^ _bucket_mask_width t - 1
      /\ forall h, 0 <= Z.land (_bucket_mask t) h < 2 ^ _bucket_mask_width t
  end.
Proof.
  intros H. apply state_after_run in H. destruct H as [rs H].
  apply run_array_described in H; [|apply constructed_array_described].
  unfold array_described in H. destruct (_buckets t); [|exact H].
  destruct H as [Hw Hm]. repeat split; try lia; try exact Hm.
  - rewrite Hm, Z.land_comm.
    replace (2 ^ _bucket_mask_width t - 1) with (Z.ones (_bucket_mask_width t))
      by (rewrite Z.ones_equiv; lia).
    rewrite Z.land_ones by lia. apply Z.mod_pos_bound.
    apply Z.pow_pos_nonneg; lia.
  - rewrite Hm, Z.land_comm.
    replace (2 ^ _bucket_mask_width t - 1) with (Z.ones (_bucket_mask_width t))
      by (rewrite Z.ones_equiv; lia).
    rewrite Z.land_ones by lia. apply Z.mod_pos_bound.
    apply Z.pow_pos_nonneg; lia.
Qed.

Lemma bucket_index_in_range_witness :
  4 <= _bucket_mask_width three_in_one_chain <= 31
  /\ _bucket_mask three_in_one_chain
     = 2 ^ _bucket_mask_width three_in_one_chain - 1
  /\ forall h,
       0 <= Z.land (_bucket_mask three_in_one_chain) h
       < 2 ^ _bucket_mask_width three_in_one_chain.
Proof.
  exact (bucket_index_in_range None None None None None
           [op_insert 8 100; op_insert 120 200; op_insert 160 300]
           three_in_one_chain three_in_one_chain_built).
Defined.

(** X10. Ownership at teardown.  Whatever operations have run on a
    constructed table, its destructor deletes the arena exactly when the
    table was constructed without one and has created its own since; an
    arena passed to the constructor is still the table's arena and is not
    deleted.  The bucket array is passed to [free] exactly when one has
    been allocated. *)
Theorem teardown_respects_ownership (custom_hash : option hasher)
    (custom_compare : option key_equal) (dk dv : option nat)
    (heap : option Heap) (ops : list operation) (t : UntypedTable)
    (d : teardown) :
  state_after ops (UntypedTable_with custom_hash custom_compare dk dv heap)
  = Ok t ->
  destroy t = Ok d ->
  heap_deleted d
  = match heap with
    | Some _ => false
    | None => is_set (_heap t)
    end
  /\ (forall hp, heap = Some hp -> _heap t = Some hp)
  /\ buckets_freed d = is_set (_buckets t).
Proof.
  intros H Hd. apply state_after_run in H. destruct H as [rs H].
  pose proof (run_frame _ _ _ _ H) as (C & Hh & _).
  apply run_array_described in H; [|apply constructed_array_described].
  unfold config in C. injection C as _ _ _ _ Ho _.
  unfold destroy in Hd. inv_bind Hd. injection Hd as <-. cbn [heap_deleted buckets_freed].
  rewrite Ho. cbn [UntypedTable_with _is_heap_owner _heap] in *.
  split; [|split].
  - destruct heap; reflexivity.
  - intros hp ->. apply Hh. reflexivity.
  - unfold array_described in H. destruct (_buckets t); cbn [is_set].
    + destruct H as [Hw ->]. apply Z.ltb_lt.
      assert (2 ^ 4 <= 2 ^ _bucket_mask_width t)
        by (apply Z.pow_le_mono_r; lia).
      lia.
    + destruct H as [_ ->]. reflexivity.
Qed.

Lemma teardown_respects_ownership_witness :
  exists t d,
    state_after [op_insert 8 100; op_remove 8]
      (UntypedTable_with None None (Some 1%nat) None (Some (caller_Heap 7)))
    = Ok t
    /\ destroy t = Ok d
    /\ heap_deleted d = false
    /\ _heap t = Some (caller_Heap 7)
    /\ buckets_freed d = true.
Proof.
  eexists. eexists.
  split; [vm_compute; reflexivity|].
  split; [vm_compute; reflexivity|].
  match goal with
  | |- heap_deleted ?d = _ /\ _heap ?t = _ /\ _ =>
      pose proof (teardown_respects_ownership None None (Some 1%nat) None
                    (Some (caller_Heap 7)) [op_insert 8 100; op_remove 8]
                    t d ltac:(vm_compute; reflexivity)
                    ltac:(vm_compute; reflexivity)) as (H1 & H2 & H3)
  end.
  split; [exact H1|]. split; [apply H2; reflexivity|].
  rewrite H3. reflexivity.
Defined.

(** ** Removing an entry that is not the head of its chain *)

Lemma chain_ext (ns ns' : list HashNode) (head : option nat) (l : list nat) :
  chain ns head l ->
  (forall a, a ∈ l -> ns' !! a = ns !! a) ->
  chain ns' head l.
Proof.
  induction 1 as [|a n l Ha H IH]; intros Hext; [constructor|].
  apply chain_step with n.
  - rewrite Hext by (apply elem_of_cons; auto). exact Ha.
  - apply IH. intros c Hc. apply Hext. apply elem_of_cons; auto.
Qed.

Lemma chain_app_inv (ns : list HashNode) (head : option nat)
    (l1 l2 : list nat) :
  chain ns head (l1 ++ l2) ->
  exists mid, chain ns mid l2
              /\ forall ns', (forall a, a ∈ l1 -> ns' !! a = ns !! a) ->
                   forall l2', chain ns' mid l2' -> chain ns' head (l1 ++ l2').
Proof.
  revert head. induction l1 as [|a l1 IH]; intros head H.
  - exists head. split; [exact H|]. intros ns' _ l2' H'. exact H'.
  - cbn [app] in H. inversion H as [|? n ? Ha Hc]; subst.
    destruct (IH _ Hc) as (mid & Hmid & Hre).
    exists mid. split; [exact Hmid|].
    intros ns' Hext l2' H'. cbn [app].
    apply chain_step with n.
    + rewrite Hext by (apply elem_of_cons; auto). exact Ha.
    + apply Hre; [|exact H'].
      intros c Hc'. apply Hext. apply elem_of_cons; auto.
Qed.

(** The loop of [remove] stops at the first match, with the node before it
    in [node]. *)
Lemma find_candidate_inner (ns : list HashNode) (p : HashNode -> bool)
    (l1 : list nat) (prev c : nat) (l2 : list nat) (n : HashNode)
    (fuel : nat) (node0 : nat) (head : option nat) :
  chain ns head (l1 ++ prev :: c :: l2) ->
  (forall a m, a ∈ l1 ++ [prev] -> ns !! a = Some m -> p m = false) ->
  ns !! c = Some n -> p n = true ->
  (length (l1 ++ prev :: c :: l2) <= fuel)%nat ->
  find_candidate fuel ns p node0 head = Ok (Some (prev, c)).
Proof.
  revert fuel node0 head. induction l1 as [|a l1 IH];
    intros fuel node0 head Hc Hno Hn Hp Hf.
  - cbn [app] in *. inversion Hc as [|? m ? Hprev Hc1]; subst.
    inversion Hc1 as [|? m' ? Hc' Hc2]; subst.
    destruct fuel as [|[|fuel]]; try (cbn in Hf; lia).
    cbn [find_candidate]. rewrite Hprev.
    rewrite (Hno prev m) by (auto; apply elem_of_cons; auto).
    match goal with E : Some c = next m |- _ => rewrite <- E end.
    rewrite Hn, Hp. reflexivity.
  - cbn [app] in *. inversion Hc as [|? m ? Ha Hc1]; subst.
    destruct fuel as [|fuel]; [cbn in Hf; lia|].
    cbn [find_candidate]. rewrite Ha.
    rewrite (Hno a m) by (auto; apply elem_of_cons; auto).
    apply IH; auto.
    + intros a' m' Hin. apply Hno. apply elem_of_cons; auto.
    + cbn in Hf. lia.
Qed.

Lemma matches_set_next (t : UntypedTable) (k : Z) (n : HashNode)
    (x : option nat) :
  matches t k (set_next n x) = matches t k n.
Proof. reflexivity. Qed.

Lemma first_match_none (ns : list HashNode) (q : HashNode -> bool)
    (l : list nat) :
  (forall a m, a ∈ l -> ns !! a = Some m -> q m = false) ->
  first_match ns q l = None.
Proof.
  induction l as [|a l IH]; intros H; [reflexivity|].
  cbn [first_match]. destruct (ns !! a) as [m|] eqn:Ha; [|reflexivity].
  rewrite (H a m) by (auto; apply elem_of_cons; auto).
  apply IH. intros a' m' Hin. apply H. apply elem_of_cons; auto.
Qed.

(** X11. Removing an entry that is not the head of its chain works: when
    the chain of the key's bucket runs through [l1], [prev], [c] and [l2],
    the node [c] matches the key and no other node of the chain does,
    [remove(key)] returns [true], the chain afterwards runs through [l1],
    [prev] and [l2], and a [lookup(key)] returns null. *)
Theorem remove_inner_entry (t : UntypedTable) (k : Z) (out : bool)
    (b : gmap Z nat) (l1 : list nat) (prev c : nat) (l2 : list nat)
    (n : HashNode) :
  _buckets t = Some b -> _count t <> 0 ->
  chain (nodes t) (b !! Z.land (_bucket_mask t) (call_hash (_hash t) k))
    (l1 ++ prev :: c :: l2) ->
  nodes t !! c = Some n -> matches t k n = true ->
  (forall a m, a ∈ l1 ++ prev :: l2 -> nodes t !! a = Some m ->
     matches t k m = false) ->
  exists t',
    remove k t = Ok (Some true, t')
    /\ _buckets t' = Some b
    /\ chain (nodes t') (b !! Z.land (_bucket_mask t) (call_hash (_hash t) k))
         (l1 ++ prev :: l2)
    /\ lookup k out t' = Ok (0, if out then Some 0 else None).
Proof.
  intros Hb Hcount Hc Hn Hm Hno.
  set (i := Z.land (_bucket_mask t) (call_hash (_hash t) k)) in *.
  set (ns := nodes t) in *.
  pose proof (chain_NoDup _ _ _ Hc) as Hnd.
  assert (Hprev_c : prev <> c).
  { apply NoDup_app in Hnd. destruct Hnd as (_ & _ & Hnd).
    apply NoDup_cons in Hnd. destruct Hnd as [Hnd _].
    intros ->. apply Hnd. apply elem_of_cons; auto. }
  assert (Hc_out : c ∉ l1 ++ prev :: l2).
  { intros Hin. apply elem_of_app in Hin. apply NoDup_app in Hnd.
    destruct Hnd as (_ & Hdis & Hnd).
    destruct Hin as [Hin|Hin].
    - apply (Hdis c Hin). apply elem_of_cons. right. apply elem_of_cons; auto.
    - apply elem_of_cons in Hin. destruct Hin as [->|Hin]; [congruence|].
      apply NoDup_cons in Hnd. destruct Hnd as [_ Hnd].
      apply NoDup_cons in Hnd. destruct Hnd as [Hnd _]. auto. }
  assert (Hprev_out : prev ∉ l1 ++ l2).
  { intros Hin. apply elem_of_app in Hin. apply NoDup_app in Hnd.
    destruct Hnd as (_ & Hdis & Hnd).
    destruct Hin as [Hin|Hin].
    - apply (Hdis prev Hin). apply elem_of_cons; auto.
    - apply NoDup_cons in Hnd. destruct Hnd as [Hnd _].
      apply Hnd. apply elem_of_cons; auto. }
  destruct (chain_app_inv _ _ _ _ Hc) as (mid & Hmid & Hre).
  inversion Hmid as [|? pn ? Hprev Hc1]; subst.
  inversion Hc1 as [|? n0 ? Hc0 Hc2]; subst.
  fold ns in Hc0, Hprev, Hc2. rewrite Hn in Hc0. injection Hc0 as <-.
  assert (Hfind : forall fuel,
            (length (l1 ++ prev :: c :: l2) <= fuel)%nat ->
            forall node0,
              find_candidate fuel ns (matches t k) node0 (b !! i)
              = Ok (Some (prev, c))).
  { intros fuel Hf node0.
    apply (find_candidate_inner ns (matches t k) l1 prev c l2 n); auto.
    intros a m Hin. apply Hno.
    apply elem_of_app in Hin. apply elem_of_app.
    destruct Hin as [Hin|Hin]; [auto|].
    right. apply elem_of_cons. left.
    apply elem_of_cons in Hin. destruct Hin as [->|Hin]; [reflexivity|].
    inversion Hin. }
  assert (Hlen : (length (l1 ++ prev :: c :: l2) <= walk_limit ns)%nat).
  { unfold walk_limit. apply chain_length in Hc. lia. }
  set (ns1 := <[prev := set_next pn (next n)]> ns).
  set (ns2 := <[c := set_next n (_spare_node t)]> ns1).
  assert (Hunlink : unlink prev c t
                    = Ok (set_count (uint64 (_count t - 1))
                            (set_spare_node (Some c)
                               (set_calls
                                  (notify (_did_remove_value t)
                                     (fun f => did_remove_value_call f (value n))
                                     (notify (_did_remove_key t)
                                        (fun f => did_remove_key_call f (key n))
                                        (calls t)))
                                  (set_nodes ns2 t))))).
  { unfold unlink, load. fold ns. rewrite Hn, Hprev. cbn [bind].
    fold ns1. unfold ns1 at 1.
    rewrite list_lookup_insert_ne, Hn by exact Hprev_c. cbn [bind].
    reflexivity. }
  set (t' := set_count _ _) in Hunlink.
  assert (Hhead : exists h0, b !! i = Some h0).
  { inversion Hc; subst; [|eauto].
    exfalso. destruct l1; discriminate. }
  destruct Hhead as [h0 Hh0].
  assert (Hrem : remove k t = Ok (Some true, t')).
  { unfold remove, remove_ptr.
    apply Z.eqb_neq in Hcount. rewrite Hcount.
    unfold buckets_of. rewrite Hb. cbn [bind]. fold i. rewrite Hh0.
    pose proof (Hfind (walk_limit ns) Hlen h0) as Hf.
    rewrite Hh0 in Hf. unfold matches in Hf. fold ns.
    destruct (_compare_by_pointer t); rewrite Hf; cbn [bind];
      rewrite Hunlink; reflexivity. }
  assert (Hchain' : chain ns2 (b !! i) (l1 ++ prev :: l2)).
  { apply Hre.
    - intros a Ha. unfold ns2, ns1.
      rewrite !list_lookup_insert_ne; auto.
      + intros ->. apply Hprev_out. apply elem_of_app; auto.
      + intros ->. apply Hc_out. apply elem_of_app; auto.
    - apply chain_step with (set_next pn (next n)).
      + unfold ns2, ns1. rewrite list_lookup_insert_ne by auto.
        apply list_lookup_insert_eq. eapply lookup_lt_Some; eauto.
      + cbn [set_next next]. apply chain_ext with ns; [exact Hc2|].
        intros a Ha. unfold ns2, ns1.
        rewrite !list_lookup_insert_ne; auto.
        * intros ->. apply Hprev_out. apply elem_of_app; auto.
        * intros ->. apply Hc_out. apply elem_of_app. right.
          apply elem_of_cons; auto. }
  exists t'. split; [exact Hrem|]. split; [exact Hb|].
  split; [exact Hchain'|].
  rewrite (lookup_on_chain t' k out b (l1 ++ prev :: l2) Hb Hchain').
  rewrite first_match_none; [destruct (_count t' =? 0); reflexivity|].
  intros a m Hin Ha.
  change (matches t' k m) with (matches t k m).
  change (nodes t') with ns2 in Ha. unfold ns2, ns1 in Ha.
  rewrite list_lookup_insert_ne in Ha
    by (intros ->; apply Hc_out; exact Hin).
  destruct (decide (prev = a)) as [<-|Hne].
  - rewrite list_lookup_insert_eq in Ha by (eapply lookup_lt_Some; eauto).
    injection Ha as <-. rewrite matches_set_next.
    apply (Hno prev pn Hin Hprev).
  - rewrite list_lookup_insert_ne in Ha by exact Hne.
    apply (Hno a m Hin Ha).
Qed.

Lemma remove_inner_entry_witness :
  exists t',
    remove 120 three_in_one_chain = Ok (Some true, t')
    /\ _buckets t' = Some {[13 := 2%nat]}
    /\ chain (nodes t')
         (({[13 := 2%nat]} : gmap Z nat)
          !! Z.land (_bucket_mask three_in_one_chain)
               (call_hash (_hash three_in_one_chain) 120))
         ([] ++ [2; 0]%nat)
    /\ lookup 120 true t' = Ok (0, Some 0).
Proof.
  apply (remove_inner_entry three_in_one_chain 120 true _ [] 2%nat 1%nat
           [0%nat] (mkHashNode (Some 0%nat) 120 200 (pointer_hash 120))
           three_in_one_chain_buckets).
  - discriminate.
  - vm_compute.
    repeat (eapply chain_step; [reflexivity|]; cbn [next]).
    apply chain_end.
  - vm_compute. reflexivity.
  - reflexivity.
  - intros a m Hin Ha. cbn [app] in Hin.
    apply elem_of_cons in Hin. destruct Hin as [->|Hin].
    + vm_compute in Ha. injection Ha as <-. reflexivity.
    + apply elem_of_cons in Hin. destruct Hin as [->|Hin]; [|inversion Hin].
      vm_compute in Ha. injection Ha as <-. reflexivity.
Defined.

(** ** Removing the head of a chain *)

(** X19. What [remove] does to the head of a chain, in either comparison
    mode: when the first node of the key's bucket matches the key,
    [remove(key)] returns [true] and puts the node on the free list, but
    the bucket array is not written: the node stays the head of its
    bucket, its link now leading into the free list, and as long as the
    count has not dropped to zero a [lookup(key)] still returns its
    value. *)
Theorem remove_head_entry (t : UntypedTable) (k : Z) (out : bool)
    (b : gmap Z nat) (c : nat) (n : HashNode) :
  _buckets t = Some b -> 0 < _count t < 2 ^ 64 ->
  b !! Z.land (_bucket_mask t) (call_hash (_hash t) k) = Some c ->
  nodes t !! c = Some n -> matches t k n = true ->
  exists t',
    remove k t = Ok (Some true, t')
    /\ _buckets t' = Some b
    /\ nodes t' !! c = Some (set_next n (_spare_node t))
    /\ _spare_node t' = Some c
    /\ (_count t <> 1 ->
        lookup k out t' = Ok (value n, if out then Some (key n) else None)).
Proof.
  intros Hb Hcount Hhead Hn Hm.
  assert (Hlt : (c < length (nodes t))%nat) by (eapply lookup_lt_Some; eauto).
  assert (Hunlink :
    unlink c c t
    = Ok (set_count (uint64 (_count t - 1))
            (set_spare_node (Some c)
               (set_calls
                  (notify (_did_remove_value t)
                     (fun f => did_remove_value_call f (value n))
                     (notify (_did_remove_key t)
                        (fun f => did_remove_key_call f (key n)) (calls t)))
                  (set_nodes
                     (<[c := set_next n (_spare_node t)]> (nodes t)) t))))).
  { unfold unlink, load. rewrite Hn. cbn [bind].
    rewrite list_lookup_insert_eq by exact Hlt. cbn [bind].
    rewrite list_insert_insert_eq. reflexivity. }
  set (t' := set_count _ _) in Hunlink.
  exists t'.
  assert (Hrem : remove k t = Ok (Some true, t')).
  { unfold remove, remove_ptr.
    replace (_count t =? 0) with false by (symmetry; apply Z.eqb_neq; lia).
    unfold buckets_of. rewrite Hb. cbn [bind]. rewrite Hhead.
    unfold walk_limit. cbn [find_candidate]. rewrite Hn.
    unfold matches in Hm.
    destruct (_compare_by_pointer t); rewrite Hm; cbn [bind];
      rewrite Hunlink; reflexivity. }
  split; [exact Hrem|]. split; [exact Hb|].
  split; [apply list_lookup_insert_eq; exact Hlt|].
  split; [reflexivity|].
  intros Hne. unfold lookup.
  change (_count t') with (uint64 (_count t - 1)).
  replace (uint64 (_count t - 1) =? 0) with false
    by (symmetry; apply Z.eqb_neq; unfold uint64; rewrite Z.mod_small; lia).
  cbn [negb]. unfold buckets_of.
  change (_buckets t') with (_buckets t). rewrite Hb. cbn [bind].
  change (_bucket_mask t') with (_bucket_mask t).
  change (_hash t') with (_hash t).
  change (_compare_by_pointer t') with (_compare_by_pointer t).
  change (_compare t') with (_compare t).
  rewrite Hhead. unfold walk_limit. cbn [find_node].
  change (nodes t') with (<[c := set_next n (_spare_node t)]> (nodes t)).
  rewrite list_lookup_insert_eq by exact Hlt.
  unfold matches in Hm. cbn [set_next key hash_value value].
  destruct (_compare_by_pointer t); rewrite Hm; reflexivity.
Qed.

Lemma remove_head_entry_witness :
  exists t',
    remove 160 three_in_one_chain = Ok (Some true, t')
    /\ _buckets t' = Some {[13 := 2%nat]}
    /\ nodes t' !! 2%nat
       = Some (set_next (mkHashNode (Some 1%nat) 160 300 (pointer_hash 160))
                 (_spare_node three_in_one_chain))
    /\ _spare_node t' = Some 2%nat
    /\ (_count three_in_one_chain <> 1 ->
        lookup 160 true t' = Ok (300, Some 160)).
Proof.
  apply (remove_head_entry three_in_one_chain 160 true _ 2%nat
           (mkHashNode (Some 1%nat) 160 300 (pointer_hash 160))
           three_in_one_chain_buckets).
  - cbn. lia.
  - vm_compute. reflexivity.
  - vm_compute. reflexivity.
  - reflexivity.
Defined.

(** ** Allocation and reuse *)

Lemma remove_true_count (k : Z) (t t' : UntypedTable) :
  remove k t = Ok (Some true, t') -> _count t <> 0.
Proof.
  unfold remove. intros H Hz. apply Z.eqb_eq in Hz. rewrite Hz in H.
  discriminate H.
Qed.

(** X12. Node reuse.  A fresh insertion that follows a successful removal
    takes the removed node from the free list: the arena holds as many
    nodes as before the removal, and the count is back to what it was. *)
Theorem removed_node_is_reused (k k2 v : Z) (t t1 t2 : UntypedTable) :
  0 <= _count t < 2 ^ 64 ->
  remove k t = Ok (Some true, t1) ->
  insert k2 v t1 = Ok (true, t2) ->
  length (nodes t2) = length (nodes t) /\ _count t2 = _count t.
Proof.
  intros Hc Hr Hi.
  pose proof (remove_true_count _ _ _ Hr) as Hnz.
  apply remove_frame in Hr.
  destruct Hr as [(_ & c & n & _ & _ & _ & _ & Hl & Hs & Hn & _)|[Hne _]];
    [|exfalso; apply Hne; reflexivity].
  apply insert_frame in Hi.
  destruct Hi as (_ & _ & _ & Hc2 & _ & Hl2 & _).
  rewrite Hs in Hl2. cbn [is_set negb andb] in Hl2.
  split; [congruence|].
  rewrite Hc2, Hn. unfold uint64.
  rewrite (Z.mod_small (_count t - 1)) by lia.
  replace (_count t - 1 + 1) with (_count t) by lia.
  apply Z.mod_small. lia.
Qed.

Lemma removed_node_is_reused_witness :
  exists t1 t2,
    remove 120 three_in_one_chain = Ok (Some true, t1)
    /\ insert 24 7 t1 = Ok (true, t2)
    /\ length (nodes t2) = length (nodes three_in_one_chain)
    /\ _count t2 = _count three_in_one_chain.
Proof.
  eexists. eexists.
  split; [vm_compute; reflexivity|].
  split; [vm_compute; reflexivity|].
  match goal with
  | |- length (nodes ?t2) = _ /\ _ =>
      refine (removed_node_is_reused 120 24 7 three_in_one_chain _ t2 _ _ _)
  end.
  - cbn. lia.
  - vm_compute. reflexivity.
  - vm_compute. reflexivity.
Defined.

(** X13. Allocation is lazy.  On a constructed table, any sequence of
    lookups, removals and iterations returns null, [false] and nothing,
    and leaves the table exactly as constructed: no bucket array, no
    arena of its own, no node.  The first insertion returns [true] and
    allocates the 16-slot array (width 4, mask 15), the arena if the
    constructor was given none, and one node, the head of its bucket. *)
Theorem allocation_is_lazy (custom_hash : option hasher)
    (custom_compare : option key_equal) (dk dv : option nat)
    (heap : option Heap) (ops : list operation) (k v : Z) :
  let t0 := UntypedTable_with custom_hash custom_compare dk dv heap in
  forallb (fun o => negb (is_insert o)) ops = true ->
  run ops t0 = Ok (map quiet_outcome ops, t0)
  /\ _buckets t0 = None /\ _heap t0 = heap /\ nodes t0 = []
  /\ exists t1,
       insert k v t0 = Ok (true, t1)
       /\ _bucket_mask_width t1 = 4 /\ _bucket_mask t1 = 15
       /\ _buckets t1
          = Some {[Z.land 15 (call_hash (_hash t0) k) := 0%nat]}
       /\ nodes t1 = [mkHashNode None k v (call_hash (_hash t0) k)]
       /\ _count t1 = 1
       /\ _heap t1 = Some (match heap with Some hp => hp | None => new_Heap end).
Proof.
  intros t0 Hops.
  split; [|split; [reflexivity|split; [reflexivity|split; [reflexivity|]]]].
  - induction ops as [|o ops IH]; [reflexivity|].
    cbn [forallb] in Hops. apply andb_true_iff in Hops.
    destruct Hops as [Ho Hops].
    cbn [run map]. 
    assert (E : perform o t0 = Ok (quiet_outcome o, t0)).
    { destruct o; try discriminate Ho; reflexivity. }
    rewrite E. cbn [bind snd fst]. rewrite (IH Hops). reflexivity.
  - unfold insert. cbn [_buckets t0 UntypedTable_with].
    destruct (create_buckets_fields t0 eq_refl)
      as (E1 & E2 & E3 & E4 & E5 & E6 & E7 & E8 & E9).
    unfold buckets_of. rewrite E1. cbn [bind].
    rewrite lookup_empty, find_node_null. cbn [bind].
    rewrite (insert_new_explicit _ k v (create_buckets t0) ∅ E1).
    + eexists. split; [reflexivity|].
      destruct (make_heap_fields (create_buckets t0))
        as (F1 & F2 & _).
      simpl_fields. rewrite F1, F2, E2, E3, E4, E6, E8, lookup_empty.
      repeat split.
      unfold create_buckets, make_heap. subst t0. destruct heap; reflexivity.
    + rewrite E5. reflexivity.
    + rewrite E2, E6. vm_compute. discriminate.
Qed.

Lemma allocation_is_lazy_witness :
  run [op_lookup 8 true; op_remove 8; op_for_each 0 0]
    (UntypedTable_with None None None None None)
  = Ok ([lookup_returned 0 (Some 0); remove_returned (Some false);
         for_each_returned],
        UntypedTable_with None None None None None).
Proof.
  exact (proj1 (allocation_is_lazy None None None None None
                  [op_lookup 8 true; op_remove 8; op_for_each 0 0] 8 100
                  eq_refl)).
Defined.

(** X21. Most recent first.  On a well-formed table with an empty free
    list, inserting a key no live entry is equal to, when the array does
    not have to grow, returns [true] and allocates one node that becomes
    the head of the chain of its bucket, in front of the nodes that were
    there; the chain of every other bucket is as it was. *)
Theorem fresh_insert_goes_first (t : UntypedTable) (k v : Z)
    (b : gmap Z nat) :
  table_ok t -> _buckets t = Some b -> _spare_node t = None ->
  uint64 (_count t + 1) <= uint64 (shl_int 4 (_bucket_mask_width t)) ->
  ~ has_equal_entry t k ->
  let h := call_hash (_hash t) k in
  let i := Z.land (_bucket_mask t) h in
  exists t',
    insert k v t = Ok (true, t')
    /\ _buckets t' = Some (<[i := length (nodes t)]> b)
    /\ nodes t' = nodes t ++ [mkHashNode (b !! i) k v h]
    /\ (forall l, chain (nodes t) (b !! i) l ->
          chain (nodes t') (Some (length (nodes t))) (length (nodes t) :: l))
    /\ (forall j l, j <> i -> chain (nodes t) (b !! j) l ->
          chain (nodes t') (<[i := length (nodes t)]> b !! j) l).
Proof.
  intros Hok Hb Hsp Hth Hne h i. unfold insert.
  rewrite Hb. unfold buckets_of. rewrite Hb. cbn [bind].
  fold h. replace (Z.land h (_bucket_mask t)) with i by apply Z.land_comm.
  set (p := fun n => (hash_value n =? h) && call_compare (_compare t) (key n) k).
  destruct (bucket_chain t b i Hok Hb) as (l0 & Hc0 & Hpl0).
  rewrite (find_node_first_match _ p _ l0)
    by (auto; unfold walk_limit; apply chain_length in Hc0; lia).
  cbn [bind].
  destruct (first_match (nodes t) p l0) as [[a n]|] eqn:Hfm.
  - exfalso. apply Hne.
    destruct (first_match_Some _ _ _ _ _ Hfm) as (Hin & Ha & Hp).
    exists a, n. split; [exists b, i, l0; auto|]. split; [exact Ha|].
    unfold p in Hp. apply andb_true_iff in Hp. apply Hp.
  - rewrite (insert_new_explicit h k v t b Hb Hsp Hth). fold i.
    eexists. split; [reflexivity|]. simpl_fields.
    split; [reflexivity|]. split; [reflexivity|]. split.
    + intros l Hl. apply chain_step with (mkHashNode (b !! i) k v h).
      * rewrite lookup_app_r, Nat.sub_diag by lia. reflexivity.
      * cbn [next]. apply chain_app. exact Hl.
    + intros j l Hj Hl. rewrite lookup_insert_ne by auto.
      apply chain_app. exact Hl.
Qed.

Lemma three_in_one_chain_without_24 : ~ has_equal_entry three_in_one_chain 24.
Proof.
  intros (a & n & (b & i & l & Hb & Hc & Hin) & Ha & Hcmp).
  cbn in Hcmp. unfold pointer_compare in Hcmp. apply Z.eqb_eq in Hcmp.
  apply lookup_lt_Some in Ha as Hlt.
  destruct a as [|[|[|a]]]; vm_compute in Ha; try discriminate Ha;
    injection Ha as <-; discriminate Hcmp.
Qed.

Lemma fresh_insert_goes_first_witness :
  exists t',
    insert 24 7 three_in_one_chain = Ok (true, t')
    /\ nodes t'
       = nodes three_in_one_chain
         ++ [mkHashNode
               (({[13 := 2%nat]} : gmap Z nat)
                !! Z.land (_bucket_mask three_in_one_chain)
                     (call_hash (_hash three_in_one_chain) 24))
               24 7 (call_hash (_hash three_in_one_chain) 24)].
Proof.
  destruct (fresh_insert_goes_first three_in_one_chain 24 7 _
              three_in_one_chain_ok three_in_one_chain_buckets eq_refl)
    as (t' & H1 & _ & H3 & _).
  - vm_compute. discriminate.
  - exact three_in_one_chain_without_24.
  - exists t'. split; [exact H1|exact H3].
Defined.

(** ** Hashing strings *)

Lemma int64_mod (z : Z) : int64 z mod 2 ^ 64 = z mod 2 ^ 64.
Proof.
  unfold int64. rewrite Zminus_mod_idemp_l. f_equal. lia.
Qed.

Lemma horner_mod (acc acc' : Z) (cs : list Z) :
  acc mod 2 ^ 64 = acc' mod 2 ^ 64 ->
  horner acc cs mod 2 ^ 64 = horner acc' cs mod 2 ^ 64.
Proof.
  revert acc acc'. induction cs as [|c cs IH]; intros acc acc' H; [exact H|].
  cbn [horner]. apply IH.
  rewrite (Z.add_mod (acc * 33)), (Z.add_mod (acc' * 33)) by lia.
  rewrite (Z.mul_mod acc), (Z.mul_mod acc'), H by lia. reflexivity.
Qed.

Lemma string_hash_from_spec (acc : Z) (cs rest : list Z) :
  Forall (fun c => c <> 0) cs ->
  string_hash_from acc (cs ++ 0 :: rest) = Some (horner acc cs mod 2 ^ 64).
Proof.
  intros H. revert acc. induction H as [|c cs Hc H IH]; intros acc.
  - reflexivity.
  - cbn [app string_hash_from horner].
    apply Z.eqb_neq in Hc. rewrite Hc, IH. f_equal.
    apply horner_mod, int64_mod.
Qed.

Lemma horner_shift (acc : Z) (cs : list Z) :
  horner acc cs = acc * 33 ^ Z.of_nat (length cs) + horner 0 cs.
Proof.
  revert acc. induction cs as [|c cs IH]; intros acc.
  - cbn. lia.
  - cbn [horner length]. rewrite (IH (acc * 33 + c)), (IH (0 * 33 + c)).
    rewrite Nat2Z.inj_succ, Z.pow_succ_r by lia. lia.
Qed.

Lemma horner_app (acc : Z) (cs1 cs2 : list Z) :
  horner acc (cs1 ++ cs2) = horner (horner acc cs1) cs2.
Proof.
  revert acc. induction cs1 as [|c cs1 IH]; intros acc; [reflexivity|].
  cbn [app horner]. apply IH.
Qed.

(** X15. [string_hash] is the base-33 polynomial of the characters before
    the terminating zero, reduced modulo [2^64]: the wrap-around of the
    signed accumulator at each step does not show in the result, whatever
    follows the terminator is not read, and the empty string hashes to
    0. *)
Theorem string_hash_is_base_33_polynomial (cs rest : list Z) :
  Forall (fun c => c <> 0) cs ->
  string_hash (cs ++ 0 :: rest) = Some (horner 0 cs mod 2 ^ 64)
  /\ string_hash (cs ++ 0 :: rest) = string_hash (cs ++ [0])
  /\ string_hash (0 :: rest) = Some 0.
Proof.
  intros H. unfold string_hash.
  rewrite !string_hash_from_spec by exact H.
  repeat split.
Qed.

Lemma string_hash_is_base_33_polynomial_witness :
  string_hash ([97; 98] ++ 0 :: [99]) = Some (horner 0 [97; 98] mod 2 ^ 64)
  /\ string_hash ([97; 98] ++ 0 :: [99]) = string_hash ([97; 98] ++ [0])
  /\ string_hash (0 :: [99]) = Some 0.
Proof.
  apply (string_hash_is_base_33_polynomial [97; 98] [99]).
  repeat constructor; discriminate.
Defined.

(** X16. The hash of a concatenation: with [h1] the hash of the string
    [cs1] and [h2] that of [cs2], the string [cs1 cs2] hashes to
    [h1 * 33^length(cs2) + h2] modulo [2^64]. *)
Theorem string_hash_of_concatenation (cs1 cs2 rest : list Z) (h1 h2 : Z) :
  Forall (fun c => c <> 0) cs1 -> Forall (fun c => c <> 0) cs2 ->
  string_hash (cs1 ++ [0]) = Some h1 ->
  string_hash (cs2 ++ [0]) = Some h2 ->
  string_hash ((cs1 ++ cs2) ++ 0 :: rest)
  = Some ((h1 * 33 ^ Z.of_nat (length cs2) + h2) mod 2 ^ 64).
Proof.
  intros H1 H2 E1 E2. unfold string_hash in *.
  rewrite string_hash_from_spec in E1, E2 by assumption.
  injection E1 as <-. injection E2 as <-.
  rewrite string_hash_from_spec by (apply Forall_app; auto).
  f_equal. rewrite horner_app, horner_shift. symmetry.
  rewrite Zplus_mod_idemp_r, <- Zplus_mod_idemp_l.
  rewrite Zmult_mod_idemp_l, Zplus_mod_idemp_l. reflexivity.
Qed.

Lemma string_hash_of_concatenation_witness :
  string_hash (([97] ++ [98]) ++ 0 :: [])
  = Some ((97 * 33 ^ Z.of_nat (length [98]) + 98) mod 2 ^ 64).
Proof.
  apply (string_hash_of_concatenation [97] [98] [] 97 98).
  - repeat constructor; discriminate.
  - repeat constructor; discriminate.
  - reflexivity.
  - reflexivity.
Defined.

(** * Further properties of attribute references *)

Section AttributeID_more_facts.

Import AttributeID.

Lemma aligned_pointer_bits (p : Z) :
  0 <= p < 2 ^ 32 -> Z.land p KindMask = 0 -> Z.land p not_KindMask = p.
Proof.
  intros Hr Ha.
  assert (E : Z.land p (Z.ones 32) = p)
    by (rewrite Z.land_ones by lia; apply Z.mod_small; exact Hr).
  change (Z.ones 32) with (Z.lor not_KindMask KindMask) in E.
  rewrite Z.land_lor_distr_r, Ha, Z.lor_0_r in E. exact E.
Qed.

Lemma kind_of_node (p : Z) : kind (of_node p) = Z.land p KindMask.
Proof.
  unfold kind, of_node; cbn [_value Kind_value]. rewrite Z.lor_0_r.
  reflexivity.
Qed.

(** X17. Construction and access round trip.  For a node offset that fits
    32 bits and has its two tag bits clear, the direct reference made from
    it is direct and [to_node()] dereferences exactly that offset, while
    [to_indirect_node()] fails its assertion; the indirect reference made
    from it is indirect and [to_indirect_node()] dereferences that offset,
    while [to_node()] fails its assertion. *)
Theorem reference_round_trip (p : Z) :
  0 <= p < 2 ^ 32 -> Z.land p KindMask = 0 ->
  is_direct (of_node p) = true
  /\ to_node (of_node p) = Some p
  /\ to_indirect_node (of_node p) = None
  /\ is_indirect (of_indirect_node p) = true
  /\ to_indirect_node (of_indirect_node p) = Some p
  /\ to_node (of_indirect_node p) = None.
Proof.
  intros Hr Ha.
  assert (Kd : kind (of_node p) = 0) by (rewrite kind_of_node; exact Ha).
  assert (Ki : kind (of_indirect_node p) = 1).
  { unfold kind, of_indirect_node; cbn [_value].
    rewrite Z.land_lor_distr_l, Ha. reflexivity. }
  assert (Pd : Z.land (_value (of_node p)) not_KindMask = p).
  { unfold of_node; cbn [_value Kind_value]. rewrite Z.lor_0_r.
    apply aligned_pointer_bits; assumption. }
  assert (Pi : Z.land (_value (of_indirect_node p)) not_KindMask = p).
  { unfold of_indirect_node; cbn [_value].
    rewrite Z.land_lor_distr_l, aligned_pointer_bits by assumption.
    change (Z.land (Kind_value Indirect) not_KindMask) with 0.
    apply Z.lor_0_r. }
  unfold is_direct, is_indirect, to_node, to_indirect_node,
    is_direct, is_indirect.
  rewrite Kd, Ki, Pd, Pi. repeat split.
Qed.

Lemma reference_round_trip_witness :
  is_direct (of_node 8) = true
  /\ to_node (of_node 8) = Some 8
  /\ to_indirect_node (of_node 8) = None
  /\ is_indirect (of_indirect_node 8) = true
  /\ to_indirect_node (of_indirect_node 8) = Some 8
  /\ to_node (of_indirect_node 8) = None.
Proof.
  apply (reference_round_trip 8); [lia|reflexivity].
Defined.

(** X18. Retagging composes: a second [with_kind] overrides the first,
    [with_kind] with the kind a reference already has gives the reference
    back (for a 32-bit value), and a reference is of at most one kind, the
    tag with both bits set being of none. *)
Theorem with_kind_overrides (a : t) (k1 k2 : Kind) :
  with_kind (with_kind a k1) k2 = with_kind a k2
  /\ (0 <= _value a < 2 ^ 32 -> kind a = Kind_value k1 -> with_kind a k1 = a)
  /\ (is_direct a && is_indirect a = false)
  /\ (is_direct a && is_nil a = false)
  /\ (is_indirect a && is_nil a = false)
  /\ (kind a = 3 ->
      is_direct a = false /\ is_indirect a = false /\ is_nil a = false).
Proof.
  split; [|split].
  - unfold with_kind at 1 3. f_equal.
    fold (pointer_bits (with_kind a k1)). rewrite pointer_bits_with_kind.
    reflexivity.
  - intros Hr Hk. destruct a as [v]. unfold with_kind, kind in *.
    cbn [_value] in *. f_equal. rewrite <- Hk, <- Z.land_lor_distr_r.
    change (Z.lor not_KindMask KindMask) with (Z.ones 32).
    rewrite Z.land_ones by lia. apply Z.mod_small. exact Hr.
  - unfold is_direct, is_indirect, is_nil.
    assert (X : forall x y : Z, x <> y -> (kind a =? x) && (kind a =? y) = false).
    { intros x y Hxy. destruct (kind a =? x) eqn:E1; [|reflexivity].
      apply Z.eqb_eq in E1. rewrite E1. apply Z.eqb_neq. exact Hxy. }
    split; [apply X; discriminate|].
    split; [apply X; discriminate|].
    split; [apply X; discriminate|].
    intros H. rewrite H. repeat split.
Qed.

Lemma with_kind_overrides_witness :
  0 <= _value (of_indirect_node 8) < 2 ^ 32
  /\ kind (of_indirect_node 8) = Kind_value Indirect
  /\ with_kind (of_indirect_node 8) Indirect = of_indirect_node 8.
Proof.
  assert (H1 : 0 <= _value (of_indirect_node 8) < 2 ^ 32)
    by (vm_compute; split; [discriminate|reflexivity]).
  assert (H2 : kind (of_indirect_node 8) = Kind_value Indirect) by reflexivity.
  split; [exact H1|]. split; [exact H2|].
  exact (proj1 (proj2 (with_kind_overrides (of_indirect_node 8)
                         Indirect Direct)) H1 H2).
Defined.

End AttributeID_more_facts.

(** ** What growth keeps *)

(** The nodes the redistribution loop leaves in the new array are those
    that were in it and the heads of the old buckets. *)
Lemma redistribute_image (fuel : nat) (hf : hasher) (mask omask : Z)
    (old : gmap Z nat) (idxs : list Z) :
  Z.land omask mask = omask ->
  NoDup idxs ->
  forall (ns : list HashNode) (nb : gmap Z nat),
    (forall i a, i ∈ idxs -> old !! i = Some a -> placed hf omask ns i a) ->
    (forall j a, nb !! j = Some a ->
       (Z.land omask j ∉ idxs) /\ lone_head hf mask ns j a) ->
    exists ns' nb',
      redistribute (S fuel) mask old idxs (ns, nb) = Ok (ns', nb')
      /\ forall x, (exists j, nb' !! j = Some x)
                   <-> (exists j, nb !! j = Some x)
                       \/ (exists i, i ∈ idxs /\ old !! i = Some x).
Proof.
  intros Hm. induction idxs as [|i idxs IH]; intros Hnd ns nb Hheads Hnb.
  - exists ns, nb. split; [reflexivity|].
    intros x. split; [auto|]. intros [H|(i & Hi & _)]; [exact H|inversion Hi].
  - apply NoDup_cons in Hnd. destruct Hnd as [Hi Hnd].
    cbn [redistribute].
    destruct (old !! i) as [a|] eqn:Hold.
    + destruct (Hheads i a) as (n & Ha & Hcached & Hn);
        [apply elem_of_cons; auto | exact Hold |].
      assert (Hfree : nb !! Z.land mask (hash_value n) = None).
      { destruct (nb !! Z.land mask (hash_value n)) as [c|] eqn:E; [|reflexivity].
        exfalso. apply (Hnb _ _ E).
        rewrite Z.land_assoc, Hm, Hn. apply elem_of_cons; auto. }
      rewrite (relink_head fuel mask a n ns nb Ha Hfree). cbn [bind].
      destruct (IH Hnd (<[a := set_next n None]> ns)
                  (<[Z.land mask (hash_value n) := a]> nb))
        as (ns' & nb' & E & Himg).
      * intros i' a' Hi' Hold'.
        destruct (Hheads i' a') as (n' & Ha' & Hc' & Hn');
          [apply elem_of_cons; auto | exact Hold' |].
        destruct (decide (a = a')) as [<-|Hne].
        -- exfalso. apply Hi. congruence.
        -- exists n'. rewrite list_lookup_insert_ne by exact Hne. auto.
      * intros j c Hj.
        destruct (decide (Z.land mask (hash_value n) = j)) as [<-|Hne].
        -- rewrite lookup_insert_eq in Hj. injection Hj as <-.
           split; [rewrite Z.land_assoc, Hm, Hn; exact Hi|].
           exists (set_next n None).
           rewrite list_lookup_insert_eq by (eapply lookup_lt_Some; eauto).
           auto.
        -- rewrite lookup_insert_ne in Hj by exact Hne.
           destruct (Hnb _ _ Hj) as (Hout & n2 & Hc2 & Hnx2 & Hca2 & Hj2).
           split; [intros Hin; apply Hout, elem_of_cons; auto|].
           exists n2. repeat split; auto.
           rewrite list_lookup_insert_ne; [exact Hc2|].
           intros <-. apply Hout.
           rewrite Ha in Hc2. injection Hc2 as <-.
           rewrite <- Hj2, Z.land_assoc, Hm, Hn. apply elem_of_cons; auto.
      * exists ns', nb'. split; [exact E|].
        intros x. rewrite Himg. split.
        -- intros [[j Hj]|(i' & Hi' & Hx)].
           ++ destruct (decide (Z.land mask (hash_value n) = j)) as [<-|Hne].
              ** rewrite lookup_insert_eq in Hj. injection Hj as <-.
                 right. exists i. split; [apply elem_of_cons; auto|exact Hold].
              ** rewrite lookup_insert_ne in Hj by exact Hne. left. eauto.
           ++ right. exists i'. split; [apply elem_of_cons; auto|exact Hx].
        -- intros [[j Hj]|(i' & Hi' & Hx)].
           ++ left. exists j.
              rewrite lookup_insert_ne; [exact Hj|].
              intros <-. congruence.
           ++ apply elem_of_cons in Hi'. destruct Hi' as [->|Hi'].
              ** left. exists (Z.land mask (hash_value n)).
                 rewrite Hold in Hx. injection Hx as <-.
                 apply lookup_insert_eq.
              ** right. eauto.
    + rewrite relink_null. cbn [bind].
      destruct (IH Hnd ns nb) as (ns' & nb' & E & Himg).
      * intros i' a' Hi'. apply Hheads. apply elem_of_cons; auto.
      * intros j c Hj. destruct (Hnb _ _ Hj) as [Hout Hl].
        split; [intros Hin; apply Hout, elem_of_cons; auto|exact Hl].
      * exists ns', nb'. split; [exact E|].
        intros x. rewrite Himg. split.
        -- intros [H|(i' & Hi' & Hx)]; [auto|].
           right. exists i'. split; [apply elem_of_cons; auto|exact Hx].
        -- intros [H|(i' & Hi' & Hx)]; [auto|].
           apply elem_of_cons in Hi'. destruct Hi' as [->|Hi']; [congruence|].
           right. eauto.
Qed.

Lemma placed_index_in_range (hf : hasher) (w : Z) (ns : list HashNode)
    (i : Z) (a : nat) :
  0 <= w -> placed hf (2 ^ w - 1) ns i a -> i ∈ bucket_indices w.
Proof.
  intros Hw (n & _ & _ & <-). unfold bucket_indices.
  apply elem_of_seqZ. rewrite Z.land_comm.
  replace (2 ^ w - 1) with (Z.ones w) by (rewrite Z.ones_equiv; lia).
  rewrite Z.land_ones by lia.
  pose proof (Z.mod_pos_bound (hash_value n) (2 ^ w)
                (Z.pow_pos_nonneg 2 w eq_refl Hw)).
  lia.
Qed.

(** X20. What [grow_buckets] keeps.  On a well-formed table of width at
    most 29, growth returns a well-formed table one bit wider, but the
    entries that are live afterwards are exactly the nodes that were at
    the head of a bucket before: every chain is cut to its first node, and
    the entries behind it are no longer reachable. *)
Theorem growth_keeps_only_chain_heads (t : UntypedTable) (b : gmap Z nat) :
  table_ok t -> _buckets t = Some b -> _bucket_mask_width t <= 29 ->
  exists t',
    grow_buckets t = Ok t'
    /\ table_ok t'
    /\ _bucket_mask_width t' = _bucket_mask_width t + 1
    /\ forall x, live t' x <-> exists i, b !! i = Some x.
Proof.
  intros Hok Hb Hw.
  pose proof (table_ok_growable t Hok) as Hg.
  destruct (grow_buckets_ok t b Hok Hb)
    as (t' & b' & E & Hb' & Hok' & _ & _); [lia|].
  destruct (grow_buckets_returns t b Hg Hb)
    as (t2 & b2 & E2 & Hb2 & _ & _ & _ & _ & Hcase); [lia|].
  rewrite E in E2. injection E2 as <-.
  rewrite Hb' in Hb2. injection Hb2 as <-.
  pose proof (grow_buckets_inv t t' E) as Hinv.
  destruct Hinv as [[Hgt _]|(_ & Ew & Em & _ & _ & _ & old & st & Hold & Hred & Hns & Hbs)];
    [lia|].
  rewrite Hb in Hold. injection Hold as <-.
  rewrite Hb' in Hbs. injection Hbs as ->.
  pose proof (ok_width t Hok) as Hw0.
  rewrite (uint32_small (_bucket_mask_width t + 1)) in Ew, Em by lia.
  rewrite mask_of_width in Em by lia.
  destruct Hcase as [->|(_ & _ & Hlone)]; [lia|].
  destruct (redistribute_image (length (nodes t)) (_hash t)
              (2 ^ (_bucket_mask_width t + 1) - 1) (_bucket_mask t) b
              (bucket_indices (_bucket_mask_width t)))
    with (ns := nodes t) (nb := (∅ : gmap Z nat))
    as (ns' & nb' & E3 & Himg).
  { rewrite (ok_mask t Hok). apply land_masks. exact Hw0. }
  { apply NoDup_seqZ. }
  { intros i a _ Hi. eapply (gr_heads t Hg); eauto. }
  { intros j a Hj. rewrite lookup_empty in Hj. discriminate Hj. }
  unfold walk_limit in Hred. rewrite Em, E3 in Hred. injection Hred as <-.
  cbn [snd] in *.
  exists t'. split; [exact E|]. split; [exact Hok'|]. split; [exact Ew|].
  intros x. split.
  - intros (b0 & j & l & Hb0 & Hc & Hin).
    rewrite Hb' in Hb0. injection Hb0 as <-.
    destruct (nb' !! j) as [a|] eqn:Hj;
      [|inversion Hc; subst; inversion Hin].
    destruct (Hlone j a Hj) as (n & Ha & Hnx & _).
    assert (l = [a]).
    { eapply chain_det; [exact Hc|].
      apply chain_step with n; [exact Ha|]. rewrite Hnx. constructor. }
    subst l. apply elem_of_cons in Hin. destruct Hin as [->|Hin];
      [|inversion Hin].
    destruct (proj1 (Himg a) (ex_intro _ j Hj)) as [[j' Hj']|(i & _ & Hi)].
    + rewrite lookup_empty in Hj'. discriminate Hj'.
    + eauto.
  - intros [i Hi].
    assert (Hin : i ∈ bucket_indices (_bucket_mask_width t)).
    { apply (placed_index_in_range (_hash t) _ (nodes t) i x Hw0).
      rewrite <- (ok_mask t Hok). eapply (gr_heads t Hg); eauto. }
    destruct (proj2 (Himg x) (or_intror (ex_intro _ i (conj Hin Hi))))
      as [j Hj].
    destruct (Hlone j x Hj) as (n & Ha & Hnx & _).
    exists nb', j, [x]. split; [exact Hb'|]. split.
    + rewrite Hj. apply chain_step with n; [exact Ha|].
      rewrite Hnx. constructor.
    + apply elem_of_cons; auto.
Qed.

Lemma growth_keeps_only_chain_heads_witness :
  exists t',
    grow_buckets three_in_one_chain = Ok t'
    /\ table_ok t'
    /\ _bucket_mask_width t' = _bucket_mask_width three_in_one_chain + 1
    /\ forall x, live t' x
                 <-> exists i, ({[13 := 2%nat]} : gmap Z nat) !! i = Some x.
Proof.
  apply (growth_keeps_only_chain_heads three_in_one_chain _
           three_in_one_chain_ok three_in_one_chain_buckets).
  cbn. lia.
Defined.

(** ** How the width gets to 30

    The threshold of [insert], [4 << width], is computed at type [int] and
    compared with the count as [uint64_t]: it is [2^(width + 2)] up to
    width 28, [2^64 - 2^31] at width 29 and 0 at width 30. *)
Lemma threshold_grows (w : Z) :
  4 <= w <= 28 ->
  uint64 (shl_int 4 w) + 1 <= uint64 (shl_int 4 (w + 1))
  /\ uint64 (shl_int 4 w) <= 2 ^ 30.
Proof.
  intros Hw.
  assert (Hall : forallb
                   (fun w => (uint64 (shl_int 4 w) + 1
                              <=? uint64 (shl_int 4 (w + 1)))
                             && (uint64 (shl_int 4 w) <=? 2 ^ 30))
                   (seqZ 4 25) = true) by (vm_compute; reflexivity).
  rewrite forallb_forall in Hall.
  specialize (Hall w). rewrite andb_true_iff, !Z.leb_le in Hall.
  apply Hall, list_elem_of_In, elem_of_seqZ. lia.
Qed.

Lemma find_node_no_match (fuel : nat) (ns : list HashNode)
    (p : HashNode -> bool) (head : option nat)
    (r : option (nat * HashNode)) :
  (forall a n, ns !! a = Some n -> p n = false) ->
  find_node fuel ns p head = Ok r -> r = None.
Proof.
  intros Hp. revert head. induction fuel as [|fuel IH]; intros head H.
  - destruct head; [discriminate|]. injection H as <-. reflexivity.
  - destruct head as [a|]; [|injection H as <-; reflexivity].
    cbn [find_node] in H.
    destruct (ns !! a) as [n|] eqn:Ha; [|discriminate].
    rewrite (Hp a n Ha) in H. eapply IH; eauto.
Qed.

(** Growth rewrites links only: what holds of the keys in the arena
    before holds after. *)
Lemma relink_keys (P : Z -> Prop) (fuel : nat) (mask : Z) (node : option nat)
    (st st' : list HashNode * gmap Z nat) :
  relink fuel mask node st = Ok st' ->
  Forall (fun nd => P (key nd)) (fst st) ->
  Forall (fun nd => P (key nd)) (fst st').
Proof.
  revert node st. induction fuel as [|fuel IH]; intros node [ns nb] H HP.
  - destruct node; [discriminate|]. injection H as <-. exact HP.
  - destruct node as [a|]; [|injection H as <-; exact HP].
    cbn [relink] in H. inv_bind H.
    unfold load in Hx. destruct (ns !! a) as [n|] eqn:Ha; [|discriminate].
    injection Hx as <-.
    apply IH in H; [exact H|]. cbn [fst] in *.
    apply Forall_insert; [exact HP|].
    rewrite Forall_lookup in HP. exact (HP a n Ha).
Qed.

Lemma redistribute_keys (P : Z -> Prop) (fuel : nat) (mask : Z)
    (old : gmap Z nat) (idxs : list Z)
    (st st' : list HashNode * gmap Z nat) :
  redistribute fuel mask old idxs st = Ok st' ->
  Forall (fun nd => P (key nd)) (fst st) ->
  Forall (fun nd => P (key nd)) (fst st').
Proof.
  revert st. induction idxs as [|i idxs IH]; intros st H HP.
  - injection H as <-. exact HP.
  - cbn [redistribute] in H. inv_bind H.
    eapply IH; [exact H|]. eapply relink_keys; eauto.
Qed.

Lemma grow_buckets_keys (P : Z -> Prop) (t t' : UntypedTable) :
  grow_buckets t = Ok t' ->
  Forall (fun nd => P (key nd)) (nodes t) ->
  Forall (fun nd => P (key nd)) (nodes t').
Proof.
  intros H HP. apply grow_buckets_inv in H.
  destruct H as [[_ ->]|(_ & _ & _ & _ & _ & _ & old & st & _ & Hr & Hn & _)];
    [exact HP|].
  rewrite Hn. eapply redistribute_keys; [exact Hr|exact HP].
Qed.

Lemma insert_new_keys (P : Z -> Prop) (h k v : Z) (t t' : UntypedTable)
    (r : bool) :
  insert_new h k v t = Ok (r, t') ->
  _spare_node t = None ->
  Forall (fun nd => P (key nd)) (nodes t) -> P k ->
  Forall (fun nd => P (key nd)) (nodes t').
Proof.
  unfold insert_new. intros H Hsp HP Hk.
  inv_bind H. rename x into t2.
  assert (F : _spare_node t2 = None
              /\ Forall (fun nd => P (key nd)) (nodes t2)).
  { destruct (uint64 (shl_int 4 (_bucket_mask_width t))
              <? uint64 (_count t + 1)).
    - split; [|eapply grow_buckets_keys; eauto].
      apply grow_buckets_frame in Hx.
      destruct Hx as (_ & _ & _ & F4 & _). congruence.
    - injection Hx as <-. auto. }
  destruct F as [F1 F2].
  destruct (make_heap_fields t2) as (_ & _ & _ & E4 & E5 & _).
  rewrite E5, F1 in H. cbn [bind] in H.
  inv_bind H. inv_bind H. injection H as <- <-.
  unfold store in Hx1. simpl_fields.
  destruct (_ !! _) in Hx1; [|discriminate]. injection Hx1 as <-.
  rewrite E4, insert_app_r_alt, Nat.sub_diag by lia.
  apply Forall_app. split; [exact F2|].
  repeat constructor. exact Hk.
Qed.

(** A sequence of operations that ends with an insertion. *)
Lemma run_app (ops1 ops2 : list operation) (t : UntypedTable) :
  run (ops1 ++ ops2) t
  = (r1 <- run ops1 t ;;
     r2 <- run ops2 (snd r1) ;;
     Ok (fst r1 ++ fst r2, snd r2)).
Proof.
  revert t. induction ops1 as [|o ops1 IH]; intros t; cbn [app run].
  - cbn [bind fst snd app].
    destruct (run ops2 t) as [[rs t']| | |]; reflexivity.
  - destruct (perform o t) as [[r t1]| | |]; cbn [bind]; try reflexivity.
    cbn [fst snd]. rewrite IH.
    destruct (run ops1 t1) as [[rs1 t2]| | |]; cbn [bind]; try reflexivity.
    cbn [fst snd].
    destruct (run ops2 t2) as [[rs2 t3]| | |]; reflexivity.
Qed.

Lemma insert_keys_then_insert (n : nat) (t : UntypedTable) :
  state_after (insert_keys (S n)) t
  = (t1 <- state_after (insert_keys n) t ;;
     r <- insert (8 * Z.of_nat (S n)) (8 * Z.of_nat (S n) + 1) t1 ;;
     Ok (snd r)).
Proof.
  unfold state_after, insert_keys.
  rewrite seq_S, map_app, run_app.
  destruct (run _ t) as [[rs t1]| | |]; cbn [bind fst snd]; try reflexivity.
  cbn [map run perform Nat.add].
  destruct (insert _ _ t1) as [[r t2]| | |]; reflexivity.
Qed.

(** An insertion of a key above every key in the arena, by identity of
    keys: it is fresh, and raises the width exactly when the count gets
    above the threshold. *)
Lemma fresh_insert_step (t : UntypedTable) (k v : Z) :
  table_ok t -> _spare_node t = None -> _compare t = pointer_compare_fn ->
  is_Some (_buckets t) -> _bucket_mask_width t <= 29 ->
  0 <= _count t -> _count t + 1 < 2 ^ 64 ->
  Forall (fun nd => key nd < k) (nodes t) ->
  exists t',
    insert k v t = Ok (true, t')
    /\ table_ok t' /\ _spare_node t' = None
    /\ _compare t' = pointer_compare_fn
    /\ is_Some (_buckets t')
    /\ _count t' = _count t + 1
    /\ _bucket_mask_width t'
       = (if uint64 (shl_int 4 (_bucket_mask_width t)) <? _count t + 1
          then _bucket_mask_width t + 1 else _bucket_mask_width t)
    /\ Forall (fun nd => key nd <= k) (nodes t').
Proof.
  intros Hok Hsp Hcmp [b Hb] Hw Hc0 Hc1 Hkeys.
  pose proof (ok_width t Hok) as Hw0.
  destruct (insert_keeps_ok k v t Hok Hsp) as (r & t' & E & Hok' & Hsp');
    [lia|].
  pose proof (insert_frame k v t t' r E) as (C & _).
  assert (Hcmp' : _compare t' = pointer_compare_fn).
  { unfold config in C. injection C as _ C _ _ _ _. congruence. }
  pose proof E as E0. unfold insert in E0. rewrite Hb in E0.
  unfold buckets_of in E0. rewrite Hb in E0. cbn [bind] in E0.
  inv_bind E0.
  assert (x = None) as ->.
  { eapply find_node_no_match; [|exact Hx]. intros a n Ha. cbn beta.
    rewrite Hcmp. cbn [call_compare]. unfold pointer_compare.
    rewrite Forall_lookup in Hkeys. specialize (Hkeys a n Ha).
    cbn beta in Hkeys.
    replace (key n =? k) with false by (symmetry; apply Z.eqb_neq; lia).
    apply andb_false_r. }
  assert (Hkeys' : Forall (fun nd => key nd <= k) (nodes t')).
  { apply (insert_new_keys (fun z => z <= k) _ _ _ _ _ _ E0 Hsp); [|lia].
    eapply Forall_impl; [exact Hkeys|]. cbn beta. intros nd ?. lia. }
  apply insert_new_inv in E0.
  destruct E0 as (-> & t2 & b2 & a & Hg & Hb2 & Ew & _ & Hb' & _ & Ec & _).
  replace (uint64 (_count t + 1)) with (_count t + 1) in Hg
    by (unfold uint64; rewrite Z.mod_small; lia).
  exists t'. split; [exact E|]. split; [exact Hok'|]. split; [exact Hsp'|].
  split; [exact Hcmp'|]. split; [rewrite Hb'; eauto|].
  rewrite Ec, Ew.
  destruct (uint64 (shl_int 4 (_bucket_mask_width t)) <? _count t + 1).
  - apply grow_buckets_inv in Hg.
    destruct Hg as [[? _]|(_ & E1 & _ & _ & E2 & _)]; [lia|].
    rewrite E1, E2, uint32_small by lia.
    unfold uint64. rewrite Z.mod_small by lia. auto.
  - subst t2. unfold uint64. rewrite Z.mod_small by lia. auto.
Qed.

(** The keys 8, 16, ..., 8n, inserted into a default table, are all fresh;
    up to [2^64 - 2^31] of them leave the width at 29 at most. *)
Lemma insertions_fill (n : nat) :
  (1 <= n)%nat -> Z.of_nat n <= 2 ^ 64 - 2 ^ 31 ->
  exists t,
    state_after (insert_keys n) UntypedTable_default = Ok t /\ filled_to n t.
Proof.
  induction n as [|n IH]; [lia|]. intros _ Hn.
  destruct n as [|n].
  - destruct (insert_keeps_ok 8 9 UntypedTable_default default_table_ok
                eq_refl) as (r & t' & E & Hok & _); [discriminate|].
    vm_compute in E. injection E as <- <-.
    eexists. split; [vm_compute; reflexivity|].
    split; [exact Hok|].
    split; [reflexivity|]. split; [reflexivity|]. split; [eauto|].
    split; [vm_compute; split; discriminate|].
    split; [reflexivity|]. split; [vm_compute; discriminate|].
    repeat constructor. vm_compute. discriminate.
  - destruct IH as (t & E & Hok & Hsp & Hcmp & Hb & Hw & Hc & Hthr & Hkeys);
      [lia|lia|].
    rewrite insert_keys_then_insert, E. cbn [bind].
    destruct (fresh_insert_step t (8 * Z.of_nat (S (S n)))
                (8 * Z.of_nat (S (S n)) + 1) Hok Hsp Hcmp Hb)
      as (t' & E' & Hok' & Hsp' & Hcmp' & Hb' & Hc' & Hw' & Hkeys');
      [lia|lia|lia| |].
    { eapply Forall_impl; [exact Hkeys|]. cbn beta. intros nd ?. lia. }
    rewrite E'. cbn [bind snd]. exists t'. split; [reflexivity|].
    split; [exact Hok'|]. split; [exact Hsp'|]. split; [exact Hcmp'|].
    split; [exact Hb'|].
    assert (Hwc : 4 <= _bucket_mask_width t' <= 29
                  /\ Z.of_nat (S (S n))
                     <= uint64 (shl_int 4 (_bucket_mask_width t'))).
    { rewrite Hw'.
      destruct (Z.ltb_spec (uint64 (shl_int 4 (_bucket_mask_width t)))
                  (_count t + 1)) as [Hlt|Hge].
      - destruct (Z.eq_dec (_bucket_mask_width t) 29) as [E29|Hne].
        + exfalso. rewrite E29 in Hlt.
          change (uint64 (shl_int 4 29)) with (2 ^ 64 - 2 ^ 31) in Hlt. lia.
        + destruct (threshold_grows (_bucket_mask_width t)) as [G _];
            [lia|]. lia.
      - lia. }
    destruct Hwc as [Hw2 Hthr2].
    split; [exact Hw2|]. split; [lia|]. split; [exact Hthr2|exact Hkeys'].
Qed.

(** An insertion of a new key into a table of width 30 does not return:
    the count is above the threshold, which is 0 there, and the growth it
    asks for throws. *)
Lemma insert_throws_at_width_30 (t : UntypedTable) (k v : Z) :
  table_ok t -> is_Some (_buckets t) -> _bucket_mask_width t = 30 ->
  _compare t = pointer_compare_fn ->
  Forall (fun nd => key nd < k) (nodes t) ->
  0 <= _count t -> _count t + 1 < 2 ^ 64 ->
  insert k v t = Throw (set_bucket_mask_width 31 t).
Proof.
  intros Hok [b Hb] Hw Hcmp Hkeys Hc0 Hc1.
  unfold insert. rewrite Hb. unfold buckets_of. rewrite Hb. cbn [bind].
  set (h := call_hash (_hash t) k).
  set (p := fun n => (hash_value n =? h)
                     && call_compare (_compare t) (key n) k).
  destruct (bucket_chain t b (Z.land h (_bucket_mask t)) Hok Hb)
    as (l & Hc & _).
  destruct (find_node_chain (nodes t) p _ l (walk_limit (nodes t)) Hc)
    as [[E _]|(a & n & _ & _ & Ha & Hp)].
  { unfold walk_limit. apply chain_length in Hc. lia. }
  - rewrite E. cbn [bind]. unfold insert_new. rewrite Hw.
    replace (uint64 (shl_int 4 30) <? uint64 (_count t + 1)) with true.
    + rewrite (grow_buckets_throws t Hw). reflexivity.
    + symmetry. apply Z.ltb_lt. change (uint64 (shl_int 4 30)) with 0.
      unfold uint64. rewrite Z.mod_small; lia.
  - exfalso. unfold p in Hp. rewrite Hcmp in Hp. cbn [call_compare] in Hp.
    unfold pointer_compare in Hp.
    rewrite Forall_lookup in Hkeys. specialize (Hkeys a n Ha).
    cbn beta in Hkeys.
    apply andb_true_iff in Hp. destruct Hp as [_ Hp].
    apply Z.eqb_eq in Hp. lia.
Qed.

